(** * OCRProyecto: analysis, OCR fallback chain and batch orchestration

    A shallow embedding of [src/pdf_analyzer.py], [src/ocr_processor.py],
    [src/pdf_processor.py] and of [generate_output_filename],
    [validate_paths], [format_file_size] and [sanitize_filename] of
    [src/utils.py], followed by the properties of the specification that
    they decide and by further properties of the code.

    Conventions of the embedding.
    - Python [str] contents of a page are lists of Unicode code points; file
      paths and error messages are [string]s.
    - Python [float] percentages are idealised as rationals ([Q]).
    - A Python exception is a [Raise] carrying [str(e)]; [try/except
      Exception] is [try_except].
    - The filesystem is a finite map from paths to files; everything that the
      repository delegates to a library (PyMuPDF, OCRmyPDF, Tesseract, PyPDF2,
      [os], [shutil], [pathlib]) is a field of a record of library functions,
      so a theorem holds for whatever those libraries do, unless it names
      what it assumes of them.
    - Calls to [logger] and the text of progress messages are not modelled. *)

From Stdlib Require Import ZArith QArith Qround List Ascii String Lia Lqa.
From stdpp Require Import base option gmap strings list pretty.

Local Open Scope Z_scope.
Local Open Scope string_scope.
Local Open Scope list_scope.

(** ** Results of fallible library calls *)

Inductive result (A : Type) : Type :=
| Ok (a : A)
| Raise (msg : string).
Arguments Ok {A} a.
Arguments Raise {A} msg.

(** ** Documents and the filesystem *)

(** A code point of a Python [str]. *)
Definition codepoint := N.
Definition pystr := list codepoint.

(** [str.isalnum] and [str.isspace] on one character. *)
Record Unicode := {
  isalnum : codepoint -> bool;
  isspace : codepoint -> bool
}.

(** A page as PyMuPDF shows it: [page.get_text()] (which may raise) and
    [len(page.get_images())]. *)
Record Page := {
  get_text : result pystr;
  image_count : nat
}.

(** An opened [fitz] document. *)
Record Doc := {
  doc_pages : list Page;
  is_encrypted : bool;
  (** [doc.authenticate("")] *)
  authenticate_empty : bool;
  (** [doc.metadata is not None]; PyMuPDF leaves the metadata out of a
      document that still needs its password *)
  has_metadata : bool
}.

(** A filesystem entry: [os.path.getsize] and what [fitz.open] makes of it. *)
Record File := {
  st_size : Z;
  fitz_open : result Doc
}.

Abbreviation FS := (gmap string File).

Definition path_exists (fs : FS) (p : string) : bool :=
  match fs !! p with Some _ => true | None => false end.

Definition getsize (fs : FS) (p : string) : Z :=
  match fs !! p with Some f => st_size f | None => 0 end.

(** [fitz.open(path)]: raises when the path is missing or is not a readable
    document. *)
Definition open_doc (fs : FS) (p : string) : result Doc :=
  match fs !! p with
  | Some f => fitz_open f
  | None => Raise "no such file"
  end.

(** ** Python string helpers *)

Fixpoint lstrip (sp : codepoint -> bool) (s : pystr) : pystr :=
  match s with
  | [] => []
  | c :: s' => if sp c then lstrip sp s' else s
  end.

Definition rstrip (sp : codepoint -> bool) (s : pystr) : pystr :=
  rev (lstrip sp (rev s)).

(** [s.strip()] *)
Definition strip (U : Unicode) (s : pystr) : pystr :=
  rstrip (isspace U) (lstrip (isspace U) s).

(** ** [PDFAnalyzer] *)

Module PDFAnalyzer.

(** The default of [__init__(self, min_text_length=50)]. *)
Definition default_min_text_length : Z := 50.

(** The loop [for page_num in range(pages_to_check): total_text +=
    doc[page_num].get_text()]. Indexing past the end raises [IndexError]. *)
Fixpoint collect_text (pages : list Page) (page_nums : list nat)
  (total_text : pystr) : result pystr :=
  match page_nums with
  | [] => Ok total_text
  | page_num :: rest =>
      match pages !! page_num with
      | None => Raise "page not in document"
      | Some page =>
          match get_text page with
          | Raise e => Raise e
          | Ok text => collect_text pages rest (total_text ++ text)
          end
      end
  end.

(** [c.isalnum() or c.isspace()] *)
Definition meaningful (U : Unicode) (c : codepoint) : bool :=
  isalnum U c || isspace U c.

(** The body of the [try] of [has_embedded_text]. *)
Definition has_embedded_text_body (U : Unicode) (min_text_length : Z)
  (fs : FS) (pdf_path : string) : result (bool * nat) :=
  match open_doc fs pdf_path with
  | Raise e => Raise e
  | Ok doc =>
      let total_pages := length (doc_pages doc) in
      let pages_to_check := Nat.min 5 total_pages in
      match collect_text (doc_pages doc) (seq 0 pages_to_check) [] with
      | Raise e => Raise e
      | Ok total_text =>
          let meaningful_text := List.filter (meaningful U) total_text in
          let has_text :=
            Z.of_nat (length (strip U meaningful_text)) >? min_text_length in
          Ok (has_text, total_pages)
      end
  end.

(** [has_embedded_text]: any exception is logged and turned into
    [(False, 0)]. *)
Definition has_embedded_text (U : Unicode) (min_text_length : Z)
  (fs : FS) (pdf_path : string) : bool * nat :=
  match has_embedded_text_body U min_text_length fs pdf_path with
  | Ok r => r
  | Raise _ => (false, 0%nat)
  end.

(** The fields of [get_detailed_info] that do not come from the metadata
    dictionary; [None] stands for the [{}] returned when the document cannot
    be opened or has no metadata ([doc.metadata.get] on [None] raises). *)
Record DetailedInfo := {
  info_pages : nat;
  info_is_encrypted : bool
}.

Definition get_detailed_info (fs : FS) (pdf_path : string) : option DetailedInfo :=
  match open_doc fs pdf_path with
  | Raise _ => None
  | Ok doc =>
      if has_metadata doc then
        Some {| info_pages := length (doc_pages doc);
                info_is_encrypted := is_encrypted doc |}
      else None
  end.

(** One entry of [analyze_pages] ([text_area] and [dimensions], which no
    decision reads, are left out; of the calls on a page only [get_text] is
    taken to be able to raise). *)
Record PageInfo := {
  page_number : nat;
  text_length : nat;
  has_meaningful_text : bool;
  page_image_count : nat
}.

(** The loop of [analyze_pages]. *)
Fixpoint analyze_pages_loop (U : Unicode) (pages : list Page)
  (page_nums : list nat) (page_analysis : list PageInfo)
  : result (list PageInfo) :=
  match page_nums with
  | [] => Ok page_analysis
  | page_num :: rest =>
      match pages !! page_num with
      | None => Raise "page not in document"
      | Some page =>
          match get_text page with
          | Raise e => Raise e
          | Ok text =>
              let text_length := length (strip U text) in
              let page_info :=
                {| page_number := page_num + 1;
                   text_length := text_length;
                   has_meaningful_text := (20 <? text_length)%nat;
                   page_image_count := image_count page |} in
              analyze_pages_loop U pages rest (page_analysis ++ [page_info])
          end
      end
  end.

Definition default_max_pages : nat := 10.

(** [analyze_pages]: any exception yields the empty list. *)
Definition analyze_pages (U : Unicode) (fs : FS) (pdf_path : string)
  (max_pages : nat) : list PageInfo :=
  match open_doc fs pdf_path with
  | Raise _ => []
  | Ok doc =>
      let pages_to_analyze := Nat.min max_pages (length (doc_pages doc)) in
      match analyze_pages_loop U (doc_pages doc) (seq 0 pages_to_analyze) [] with
      | Ok page_analysis => page_analysis
      | Raise _ => []
      end
  end.

(** [sum(1 for page in page_analysis if page['has_meaningful_text'])] *)
Definition pages_with_text (page_analysis : list PageInfo) : nat :=
  length (List.filter has_meaningful_text page_analysis).

(** [_calculate_text_coverage]. At most ten pages are sampled, and on
    every fraction with a denominator up to ten the float
    [(pages_with_text / len(page_analysis)) * 100] compares with 50 and with
    80 as the exact quotient does. *)
Definition _calculate_text_coverage (page_analysis : list PageInfo) : Q :=
  match page_analysis with
  | [] => 0
  | _ =>
      (inject_Z (Z.of_nat (pages_with_text page_analysis))
       / inject_Z (Z.of_nat (length page_analysis))) * 100
  end%Q.

(** The four messages of [_get_recommendation]. *)
Inductive Recommendation :=
| NoOcrNeeded      (* "El PDF ya tiene texto embebido. No necesita OCR." *)
| PartialOcr       (* "El PDF tiene texto parcial. Considera OCR para completar." *)
| OcrRecommended   (* "El PDF tiene poco texto. Se recomienda OCR." *)
| OcrRequired.     (* "PDF escaneado detectado. Se requiere OCR ..." *)

(** [a > b] on floats. *)
Definition Qgtb (a b : Q) : bool := negb (Qle_bool a b).

(** [_get_recommendation] *)
Definition _get_recommendation (has_text : bool)
  (page_analysis : list PageInfo) : Recommendation :=
  if has_text then
    let text_coverage := _calculate_text_coverage page_analysis in
    if Qgtb text_coverage 80 then NoOcrNeeded
    else if Qgtb text_coverage 50 then PartialOcr
    else OcrRecommended
  else OcrRequired.

(** The dictionary returned by [analyze_pdf] (also by [validate] failures of
    [analyze_file]); absent keys are [None]. [file_name] and [file_size_mb]
    are left out. *)
Record Analysis := {
  success : bool;
  error : option string;
  file_path : option string;
  file_size : option Z;
  page_count : option nat;
  has_text : option bool;          (* 'has_embedded_text' *)
  text_coverage : option Q;
  recommendation : option Recommendation;
  detailed_info : option DetailedInfo;
  page_analysis : list PageInfo;
  processing_needed : option bool
}.

Definition analysis_error (e : string) (path : option string) : Analysis :=
  {| success := false; error := Some e; file_path := path;
     file_size := None; page_count := None; has_text := None;
     text_coverage := None; recommendation := None; detailed_info := None;
     page_analysis := []; processing_needed := None |}.

(** [analyze_pdf] *)
Definition analyze_pdf (U : Unicode) (min_text_length : Z) (fs : FS)
  (pdf_path : string) : Analysis :=
  if negb (path_exists fs pdf_path) then
    analysis_error "Archivo no encontrado" None
  else
    let file_size := getsize fs pdf_path in
    let '(has_text, page_count) :=
      has_embedded_text U min_text_length fs pdf_path in
    let detailed_info := get_detailed_info fs pdf_path in
    let page_analysis := analyze_pages U fs pdf_path default_max_pages in
    {| success := true;
       error := None;
       file_path := Some pdf_path;
       file_size := Some file_size;
       page_count := Some page_count;
       has_text := Some has_text;
       text_coverage := Some (_calculate_text_coverage page_analysis);
       recommendation := Some (_get_recommendation has_text page_analysis);
       detailed_info := detailed_info;
       page_analysis := page_analysis;
       processing_needed := Some (negb has_text) |}.

(** [pdf_path.lower().endswith('.pdf')] *)
Definition lower_ascii (c : ascii) : ascii :=
  let n := nat_of_ascii c in
  if ((65 <=? n) && (n <=? 90))%nat then ascii_of_nat (n + 32) else c.

Fixpoint lower (s : string) : string :=
  match s with
  | EmptyString => EmptyString
  | String c s' => String (lower_ascii c) (lower s')
  end.

Fixpoint endswith (s suffix : string) : bool :=
  if String.eqb s suffix then true
  else match s with
       | EmptyString => false
       | String _ s' => endswith s' suffix
       end.

(** [validate_pdf] *)
Definition validate_pdf (fs : FS) (pdf_path : string) : bool * string :=
  if negb (path_exists fs pdf_path) then (false, "El archivo no existe")
  else if negb (endswith (lower pdf_path) ".pdf") then
    (false, "El archivo no tiene extensión .pdf")
  else
    match open_doc fs pdf_path with
    | Raise e => (false, "Error al validar PDF: " +:+ e)
    | Ok doc =>
        if (length (doc_pages doc) =? 0)%nat then
          (false, "El PDF no contiene páginas")
        else (true, "PDF válido con " +:+ pretty (length (doc_pages doc))
                    +:+ " páginas")
    end.

End PDFAnalyzer.

(** ** Effects: the world, events and a state-and-exception monad *)

(** The keyword arguments of [ocrmypdf.ocr]; a key that the call does not pass
    is [None]. ['pages': None] is the library default and is left out. *)
Record OcrOptions := {
  opt_language : string;
  opt_output_type : option string;
  opt_optimize : Z;
  opt_clean : bool;
  opt_deskew : bool;
  opt_remove_background : bool;
  opt_rotate_pages : bool;
  opt_skip_big : option Q;
  opt_jpeg_quality : option Z;
  opt_png_quality : option Z;
  opt_force_ocr : bool;
  opt_skip_text : option bool;
  opt_redo_ocr : option bool;
  opt_invalidate_digital_signatures : bool;
  opt_max_image_mpixels : option Z
}.

(** What the program does to the outside, in the order it does it. Pages of
    the per-page fallback are named by their [page_num]. *)
Inductive event :=
| Progress (percent : Q)
| SaveDecrypted (input_path temp_path : string)
| OcrMyPdf (input_file output_file : string) (options : OcrOptions)
| Mkdtemp
| GetPixmap (page_num : nat) (zoom_x zoom_y : Z)
| Tesseract (page_num : nat) (language : string)
| CombinePdfs (pdf_list : list string) (output_path : string)
| Rmtree (temp_dir : string)
| Unlink (path : string).

(** [self.stats] of [PDFProcessor] (the two timestamps are left out). *)
Record Stats := {
  files_processed : Z;
  files_with_ocr : Z;
  files_copied : Z;
  total_size_processed : Z;
  errors : Z
}.

Record World := {
  fs : FS;
  stats : Stats;
  log : list event
}.

Definition M (A : Type) : Type := World -> result A * World.

Definition ret {A} (a : A) : M A := fun w => (Ok a, w).

Definition bind {A B} (m : M A) (k : A -> M B) : M B :=
  fun w =>
    match m w with
    | (Ok a, w') => k a w'
    | (Raise e, w') => (Raise e, w')
    end.

(** [raise Exception(msg)] *)
Definition raise {A} (msg : string) : M A := fun w => (Raise msg, w).

(** [try: m  except Exception as e: handler(e)] *)
Definition try_except {A} (m : M A) (handler : string -> M A) : M A :=
  fun w =>
    match m w with
    | (Ok a, w') => (Ok a, w')
    | (Raise e, w') => handler e w'
    end.

Declare Scope py_scope.
Delimit Scope py_scope with py.
Notation "x <- m ;; k" := (bind m (fun x => k))
  (at level 100, m at next level, right associativity) : py_scope.
Notation "m ;; k" := (bind m (fun _ => k))
  (at level 100, right associativity) : py_scope.

Definition emit (e : event) : M unit :=
  fun w => (Ok tt, {| fs := fs w; stats := stats w; log := log w ++ [e] |}).

Definition emits (es : list event) : M unit :=
  fun w => (Ok tt, {| fs := fs w; stats := stats w; log := log w ++ es |}).

Definition get_fs : M FS := fun w => (Ok (fs w), w).

(** A library call that reads and writes the filesystem and may raise. *)
Definition Effect (A : Type) : Type := FS -> result A * FS.

Definition lift_fs {A} (f : Effect A) : M A :=
  fun w =>
    let '(r, fs') := f (fs w) in
    (r, {| fs := fs'; stats := stats w; log := log w |}).

Definition lift_result {A} (r : result A) : M A := fun w => (r, w).

Definition modify_stats (f : Stats -> Stats) : M unit :=
  fun w => (Ok tt, {| fs := fs w; stats := f (stats w); log := log w |}).

(** A progress callback: the percentages that calling it with a percentage
    shows to the outside (a wrapper such as [file_progress] of
    [process_batch] rescales the one it is given; a callback that shows
    nothing returns none). [None] is the absent ([None]) callback. *)
Definition Callback := Q -> list Q.

(** The callback that shows the percentage it is given. *)
Definition record_progress : Callback := fun percent => [percent].

(** [if progress_callback: progress_callback(percent, ...)] *)
Definition progress (cb : option Callback) (percent : Q) : M unit :=
  match cb with
  | Some f => emits (Progress <$> f percent)
  | None => ret tt
  end.

(** ** Library functions the repository calls *)

(** [os.path] and [pathlib]. *)
Record PathLib := {
  dirname : string -> string;
  basename : string -> string;
  join : string -> string -> string;
  gettempdir : string;
  (** [str(Path(p))] *)
  path_str : string -> string;
  (** [str(Path(p).parent)], [Path(p).stem], [Path(p).suffix] *)
  path_parent : string -> string;
  path_stem : string -> string;
  path_suffix : string -> string
}.

(** PyMuPDF, OCRmyPDF, Tesseract, PyPDF2, [os] and [shutil]. *)
Record Backend := {
  os_makedirs : string -> Effect unit;
  os_unlink : string -> Effect unit;
  (** [doc.save(temp_path, encryption=PDF_ENCRYPT_NONE)] of the document at
      the first path *)
  save_decrypted : string -> string -> Effect unit;
  (** [ocrmypdf.ocr(input_file, output_file, **options)] *)
  ocrmypdf_ocr : string -> string -> OcrOptions -> Effect unit;
  (** the imports at the head of [_tesseract_fallback_ocr] *)
  fallback_imports : result unit;
  (** [tempfile.mkdtemp()]: the directory it has made *)
  mkdtemp : Effect string;
  (** [page.get_pixmap(matrix=fitz.Matrix(zx, zy))] for a page of the
      document at the path, and [pix.save(img_path)] *)
  get_pixmap : string -> nat -> Z -> Z -> string -> Effect unit;
  (** [subprocess.run(['tesseract', img_path, out_base, '-l', lang, 'pdf'],
      ...)]: the return code *)
  run_tesseract : string -> string -> string -> Effect Z;
  (** reading the page PDFs and writing them to the output with PyPDF2 *)
  write_combined : list string -> string -> Effect unit;
  (** [shutil.rmtree(temp_dir, ignore_errors=True)], which does not raise *)
  shutil_rmtree : string -> FS -> FS;
  (** [Path.mkdir] and [shutil.copy2] *)
  path_mkdir : string -> Effect unit;
  shutil_copy2 : string -> string -> Effect unit;
  (** [datetime.now().strftime("%Y%m%d_%H%M%S")] *)
  timestamp : string
}.

(** ** [OCRProcessor] *)

Module OCRProcessor.

(** The [config] dictionary; an absent key is [None]. *)
Record Config := {
  optimize : option Z;
  clean : option bool;
  deskew : option bool;
  remove_background : option bool;
  rotate_pages : option bool;
  skip_big : option Q;
  jpeg_quality : option Z;
  png_quality : option Z;
  force_ocr : option bool
}.

(** [self.default_config] *)
Definition default_config : Config :=
  {| optimize := Some 1;
     clean := Some true;
     deskew := Some true;
     remove_background := Some false;
     rotate_pages := Some true;
     skip_big := Some 100%Q;
     jpeg_quality := Some 85;
     png_quality := Some 85;
     force_ocr := None |}.

(** [config.get(key, dflt)] *)
Definition get {A} (value : option A) (dflt : A) : A :=
  match value with Some v => v | None => dflt end.

(** The dictionary returned by [process_pdf] ([compression_ratio],
    [language_used] and [config_used] are left out). *)
Record PdfResult := {
  success : bool;
  error : option string;
  input_path : string;
  output_path : option string;
  input_size : option Z;
  output_size : option Z;
  size_change : option Z
}.

Definition failure (e : string) (input : string) (output : option string)
  : PdfResult :=
  {| success := false; error := Some e; input_path := input;
     output_path := output; input_size := None; output_size := None;
     size_change := None |}.

Section Engine.

Context (P : PathLib) (B : Backend).
(** [self.language] *)
Context (language : string).

Local Open Scope py_scope.

(** [ocr_options] of [process_pdf] *)
Definition ocr_options (config : Config) : OcrOptions :=
  {| opt_language := language;
     opt_output_type := Some "pdf";
     opt_optimize := get (optimize config) 1;
     opt_clean := get (clean config) true;
     opt_deskew := get (deskew config) true;
     opt_remove_background := get (remove_background config) false;
     opt_rotate_pages := get (rotate_pages config) true;
     opt_skip_big := Some (get (skip_big config) 100%Q);
     opt_jpeg_quality := Some (get (jpeg_quality config) 85);
     opt_png_quality := Some (get (png_quality config) 85);
     opt_force_ocr := get (force_ocr config) false;
     opt_skip_text := Some (negb (get (force_ocr config) false));
     opt_redo_ocr := Some (get (force_ocr config) false);
     opt_invalidate_digital_signatures := true;
     opt_max_image_mpixels := Some 128 |}.

(** [minimal_options] of [process_pdf] *)
Definition minimal_options : OcrOptions :=
  {| opt_language := language;
     opt_output_type := None;
     opt_optimize := 0;
     opt_clean := false;
     opt_deskew := false;
     opt_remove_background := false;
     opt_rotate_pages := false;
     opt_skip_big := None;
     opt_jpeg_quality := None;
     opt_png_quality := None;
     opt_force_ocr := true;
     opt_skip_text := None;
     opt_redo_ocr := None;
     opt_invalidate_digital_signatures := true;
     opt_max_image_mpixels := None |}.

(** [ocrmypdf.ocr(input_file=..., output_file=..., **options)] *)
Definition ocrmypdf (input_file output_file : string) (options : OcrOptions)
  : M unit :=
  emit (OcrMyPdf input_file output_file options) ;;
  lift_fs (ocrmypdf_ocr B input_file output_file options).

(** [_handle_encrypted_pdf] *)
Definition _handle_encrypted_pdf (input_path : string)
  (progress_callback : option Callback) : M string :=
  try_except
    (progress progress_callback 5 ;;
     files <- get_fs ;;
     doc <- lift_result (open_doc files input_path) ;;
     if negb (is_encrypted doc) then ret input_path
     else
       progress progress_callback 7 ;;
       if authenticate_empty doc then
         let temp_dir := gettempdir P in
         let temp_name := "temp_decrypted_" +:+ basename P input_path in
         let temp_path := join P temp_dir temp_name in
         emit (SaveDecrypted input_path temp_path) ;;
         lift_fs (save_decrypted B input_path temp_path) ;;
         ret temp_path
       else raise "PDF requiere contraseña para descifrar")
    (fun _ => ret input_path).

(** [45 + (page_num / len(doc)) * 40] *)
Definition page_progress (page_num total : nat) : Q :=
  (45 + (inject_Z (Z.of_nat page_num) / inject_Z (Z.of_nat total)) * 40)%Q.

(** [os.path.join(temp_dir, f"page_{page_num}")], the name that Tesseract
    is given for its output, and the image and the PDF of the page. *)
Definition page_base (temp_dir : string) (page_num : nat) : string :=
  join P temp_dir ("page_" +:+ pretty page_num).

Definition page_png (temp_dir : string) (page_num : nat) : string :=
  join P temp_dir ("page_" +:+ pretty page_num +:+ ".png").

Definition page_pdf (temp_dir : string) (page_num : nat) : string :=
  join P temp_dir ("page_" +:+ pretty page_num +:+ ".pdf").

(** The loop [for page_num in range(len(doc))] of
    [_tesseract_fallback_ocr]. A failure to rasterize leaves the loop with
    the exception; a failure of Tesseract only skips the page. *)
Fixpoint fallback_pages (input_path : string)
  (progress_callback : option Callback) (temp_dir : string) (total : nat)
  (page_nums : list nat) (ocr_results : list string) : M (list string) :=
  match page_nums with
  | [] => ret ocr_results
  | page_num :: rest =>
      progress progress_callback (page_progress page_num total) ;;
      emit (GetPixmap page_num 2 2) ;;
      lift_fs (get_pixmap B input_path page_num 2 2
                 (page_png temp_dir page_num)) ;;
      ocr_results' <-
        try_except
          (emit (Tesseract page_num language) ;;
           returncode <-
             lift_fs (run_tesseract B (page_png temp_dir page_num)
                        (page_base temp_dir page_num) language) ;;
           if Z.eqb returncode 0 then
             files <- get_fs ;;
             if path_exists files (page_pdf temp_dir page_num)
             then ret (ocr_results ++ [page_pdf temp_dir page_num])
             else ret ocr_results
           else ret ocr_results)
          (fun _ => ret ocr_results) ;;
      fallback_pages input_path progress_callback temp_dir total rest
        ocr_results'
  end.

(** [_combine_pdfs]: the pages of every listed PDF that exists, in list
    order, written to [output_path]; an exception is logged and raised
    again. *)
Definition _combine_pdfs (pdf_list : list string) (output_path : string)
  : M unit :=
  emit (CombinePdfs pdf_list output_path) ;;
  files <- get_fs ;;
  lift_fs (write_combined B (List.filter (path_exists files) pdf_list)
             output_path).

(** [_tesseract_fallback_ocr]. The temporary directory is removed only
    after the pages have been combined; every other way out leaves it. *)
Definition _tesseract_fallback_ocr (input_path output_path : string)
  (progress_callback : option Callback) : M bool :=
  try_except
    (lift_result (fallback_imports B) ;;
     progress progress_callback 45 ;;
     files <- get_fs ;;
     doc <- lift_result (open_doc files input_path) ;;
     emit Mkdtemp ;;
     temp_dir <- lift_fs (mkdtemp B) ;;
     let total := length (doc_pages doc) in
     ocr_results <-
       fallback_pages input_path progress_callback temp_dir total
         (seq 0 total) [] ;;
     progress progress_callback 85 ;;
     match ocr_results with
     | [] => ret false
     | _ =>
         _combine_pdfs ocr_results output_path ;;
         emit (Rmtree temp_dir) ;;
         lift_fs (fun files => (Ok tt, shutil_rmtree B temp_dir files)) ;;
         ret true
     end)
    (fun _ => ret false).

(** The nested [try]/[except] of [process_pdf] that runs the three
    strategies. *)
Definition run_strategies (temp_input output_path : string)
  (progress_callback : option Callback) (config : Config) : M unit :=
  try_except
    (ocrmypdf temp_input output_path (ocr_options config))
    (fun ocr_error =>
       progress progress_callback 40 ;;
       try_except
         (ok <- _tesseract_fallback_ocr temp_input output_path
                  progress_callback ;;
          if negb ok then raise "Método alternativo también falló"
          else ret tt)
         (fun fallback_error =>
            progress progress_callback 50 ;;
            try_except
              (ocrmypdf temp_input output_path minimal_options)
              (fun final_error =>
                 raise ("Todos los métodos de OCR fallaron: "
                        +:+ final_error)))).

(** [process_pdf] *)
Definition process_pdf (input_path output_path : string)
  (progress_callback : option Callback) (config : option Config)
  : M PdfResult :=
  try_except
    (files <- get_fs ;;
     if negb (path_exists files input_path) then
       ret (failure "Archivo de entrada no encontrado" input_path None)
     else
       let config := get config default_config in
       let output_dir := dirname P output_path in
       (if negb (String.eqb output_dir "")
           && negb (path_exists files output_dir)
        then lift_fs (os_makedirs B output_dir) else ret tt) ;;
       progress progress_callback 0 ;;
       temp_input <-
         try_except (_handle_encrypted_pdf input_path progress_callback)
                    (fun _ => ret input_path) ;;
       progress progress_callback 10 ;;
       progress progress_callback 20 ;;
       run_strategies temp_input output_path progress_callback config ;;
       files <- get_fs ;;
       (if negb (String.eqb temp_input input_path)
           && path_exists files temp_input
        then try_except
               (emit (Unlink temp_input) ;;
                lift_fs (os_unlink B temp_input))
               (fun _ => ret tt)
        else ret tt) ;;
       progress progress_callback 90 ;;
       files <- get_fs ;;
       if path_exists files output_path then
         let output_size := getsize files output_path in
         let input_size := getsize files input_path in
         let result :=
           {| success := true;
              error := None;
              input_path := input_path;
              output_path := Some output_path;
              input_size := Some input_size;
              output_size := Some output_size;
              size_change := Some (output_size - input_size) |} in
         progress progress_callback 100 ;;
         ret result
       else
         ret (failure "El archivo de salida no se generó" input_path
                (Some output_path)))
    (fun e =>
       let error_msg := "Error durante procesamiento: " +:+ e in
       progress progress_callback (-1) ;;
       ret (failure error_msg input_path (Some output_path))).

End Engine.

End OCRProcessor.

(** ** [utils.generate_output_filename] *)

Module Utils.

Section Names.

Context (P : PathLib).

(** [output_directory / f"{base_name}_{counter}{input_file.suffix}"] *)
Definition unique_path (output_directory base_name ext : string)
  (counter : nat) : string :=
  join P output_directory (base_name +:+ "_" +:+ pretty counter +:+ ext).

(** The loop [while output_path.exists()], with a bound on its iterations. *)
Fixpoint unique_loop (files : FS) (output_directory base_name ext : string)
  (fuel : nat) (output_path : string) (counter : nat) : option string :=
  match fuel with
  | O => None
  | S fuel' =>
      if path_exists files output_path then
        unique_loop files output_directory base_name ext fuel'
          (unique_path output_directory base_name ext counter) (counter + 1)
      else Some output_path
  end.

(** [generate_output_filename(input_path, output_dir, suffix)] on the
    filesystem [files]. The loop is given two iterations more than there are
    entries in the filesystem; [None] stands for a loop that has not ended by
    then. *)
Definition generate_output_filename (files : FS) (input_path : string)
  (output_dir : option string) (suffix : string) : option string :=
  let output_directory :=
    match output_dir with
    | Some d => d
    | None => path_parent P input_path
    end in
  let base_name := path_stem P input_path +:+ suffix in
  let ext := path_suffix P input_path in
  let output_path := join P output_directory (base_name +:+ ext) in
  unique_loop files output_directory base_name ext (S (S (size files)))
    output_path 1.

(** The name tried in the [k]-th round of the loop, [k = 0] being the name
    without a counter. *)
Definition nth_candidate (input_path : string) (output_dir : option string)
  (suffix : string) (k : nat) : string :=
  let output_directory :=
    match output_dir with
    | Some d => d
    | None => path_parent P input_path
    end in
  let base_name := path_stem P input_path +:+ suffix in
  let ext := path_suffix P input_path in
  match k with
  | O => join P output_directory (base_name +:+ ext)
  | S _ => unique_path output_directory base_name ext k
  end.

End Names.

End Utils.

(** ** [PDFProcessor] *)

Module PDFProcessor.

Inductive ProcessingType := ocr_applied | copy_only.

(** The dictionary returned by [process_file]; absent keys are [None]. The
    wall-clock keys are left out. *)
Record ProcessingResult := {
  success : bool;
  error : option string;
  input_path : option string;
  output_path : option string;
  file_path : option string;
  analysis : option PDFAnalyzer.Analysis;
  backup_path : option string;
  processing_type : option ProcessingType;
  input_size : option Z;
  output_size : option Z
}.

(** [{'success': False, 'error': e, 'input_path': input_path}] *)
Definition error_result (e : string) (input : string) : ProcessingResult :=
  {| success := false; error := Some e; input_path := Some input;
     output_path := None; file_path := None; analysis := None;
     backup_path := None; processing_type := None; input_size := None;
     output_size := None |}.

(** A failed analysis returned as it is by [process_file]. *)
Definition analysis_result (a : PDFAnalyzer.Analysis) : ProcessingResult :=
  {| success := PDFAnalyzer.success a; error := PDFAnalyzer.error a;
     input_path := None; output_path := None;
     file_path := PDFAnalyzer.file_path a; analysis := None;
     backup_path := None; processing_type := None; input_size := None;
     output_size := None |}.

(** [result.update(ocr_result)] followed by
    [result['processing_type'] = 'ocr_applied']. *)
Definition update_with_ocr (r : ProcessingResult)
  (ocr_result : OCRProcessor.PdfResult) : ProcessingResult :=
  {| success := OCRProcessor.success ocr_result;
     error := OCRProcessor.error ocr_result;
     input_path := Some (OCRProcessor.input_path ocr_result);
     output_path :=
       match OCRProcessor.output_path ocr_result with
       | Some p => Some p
       | None => output_path r
       end;
     file_path := file_path r;
     analysis := analysis r;
     backup_path := backup_path r;
     processing_type := Some ocr_applied;
     input_size := OCRProcessor.input_size ocr_result;
     output_size := OCRProcessor.output_size ocr_result |}.

(** [result.update({'success': True, 'processing_type': 'copy_only',
    'input_size': ..., 'output_size': ...})] *)
Definition update_copied (r : ProcessingResult) (in_size out_size : Z)
  : ProcessingResult :=
  {| success := true; error := error r; input_path := input_path r;
     output_path := output_path r; file_path := file_path r;
     analysis := analysis r; backup_path := backup_path r;
     processing_type := Some copy_only;
     input_size := Some in_size; output_size := Some out_size |}.

(** [result.update({'success': False, 'error': f"Error al copiar archivo:
    {e}"})] *)
Definition update_copy_failed (r : ProcessingResult) (e : string)
  : ProcessingResult :=
  {| success := false; error := Some ("Error al copiar archivo: " +:+ e);
     input_path := input_path r; output_path := output_path r;
     file_path := file_path r; analysis := analysis r;
     backup_path := backup_path r; processing_type := processing_type r;
     input_size := input_size r; output_size := output_size r |}.

(** The snapshot of [get_stats] (the two durations are left out). *)
Record Snapshot := {
  snap_stats : Stats;
  success_rate : Q
}.

(** [get_stats] *)
Definition get_stats (s : Stats) : Snapshot :=
  {| snap_stats := s;
     success_rate :=
       (inject_Z (files_processed s)
        / inject_Z (Z.max (files_processed s + errors s) 1) * 100)%Q |}.

(** [reset_stats] and the initial value of [self.stats] *)
Definition initial_stats : Stats :=
  {| files_processed := 0; files_with_ocr := 0; files_copied := 0;
     total_size_processed := 0; errors := 0 |}.

Definition incr_files_with_ocr (s : Stats) : Stats :=
  {| files_processed := files_processed s;
     files_with_ocr := files_with_ocr s + 1;
     files_copied := files_copied s;
     total_size_processed := total_size_processed s;
     errors := errors s |}.

Definition incr_files_copied (s : Stats) : Stats :=
  {| files_processed := files_processed s;
     files_with_ocr := files_with_ocr s;
     files_copied := files_copied s + 1;
     total_size_processed := total_size_processed s;
     errors := errors s |}.

Definition record_success (size : Z) (s : Stats) : Stats :=
  {| files_processed := files_processed s + 1;
     files_with_ocr := files_with_ocr s;
     files_copied := files_copied s;
     total_size_processed := total_size_processed s + size;
     errors := errors s |}.

Definition incr_errors (s : Stats) : Stats :=
  {| files_processed := files_processed s;
     files_with_ocr := files_with_ocr s;
     files_copied := files_copied s;
     total_size_processed := total_size_processed s;
     errors := errors s + 1 |}.

(** [int(x)] on a float: truncation towards zero. *)
Definition py_int (x : Q) : Z :=
  if Qle_bool 0 x then Qfloor x else Qceiling x.

(** [needs_ocr = not analysis['has_embedded_text'] or force_ocr] *)
Definition needs_ocr (has_embedded_text force_ocr : bool) : bool :=
  negb has_embedded_text || force_ocr.

Section Orchestrator.

Context (U : Unicode) (P : PathLib) (B : Backend).
(** The fields of [self]: the OCR language, [output_dir] and
    [create_backups]. *)
Context (language : string) (output_dir : option string)
        (create_backups : bool).

Local Open Scope py_scope.

(** [self.analyzer = PDFAnalyzer()] *)
Definition min_text_length : Z := PDFAnalyzer.default_min_text_length.

(** [analyze_file] (the advisory [time_estimate] key is left out). *)
Definition analyze_file (files : FS) (file_path : string)
  : PDFAnalyzer.Analysis :=
  let '(is_valid, message) := PDFAnalyzer.validate_pdf files file_path in
  if negb is_valid then PDFAnalyzer.analysis_error message (Some file_path)
  else PDFAnalyzer.analyze_pdf U min_text_length files file_path.

(** [utils.create_backup(file_path)] *)
Definition create_backup (file_path : string) : M (option string) :=
  try_except
    (files <- get_fs ;;
     if negb (path_exists files (path_str P file_path)) then ret None
     else
       let backup_path := join P (path_parent P file_path) "backups" in
       lift_fs (path_mkdir B backup_path) ;;
       let backup_filename :=
         path_stem P file_path +:+ "_backup_" +:+ timestamp B
         +:+ path_suffix P file_path in
       let backup_file := join P backup_path backup_filename in
       lift_fs (shutil_copy2 B (path_str P file_path) backup_file) ;;
       ret (Some backup_file))
    (fun _ => ret None).

(** [analysis['has_embedded_text']] *)
Definition lookup_key {A} (key : string) (value : option A) : M A :=
  match value with
  | Some v => ret v
  | None => raise key
  end.

(** [process_file] *)
Definition process_file (input_path : string) (output_path : option string)
  (force_ocr : bool) (progress_callback : option Callback)
  : M ProcessingResult :=
  try_except
    (progress progress_callback 0 ;;
     files <- get_fs ;;
     if negb (path_exists files (path_str P input_path)) then
       ret (error_result "Archivo no encontrado" input_path)
     else
       output_path <-
         match output_path with
         | Some p =>
             if String.eqb p "" then
               lookup_key "generate_output_filename"
                 (Utils.generate_output_filename P files input_path
                    output_dir "_processed")
             else ret p
         | None =>
             lookup_key "generate_output_filename"
               (Utils.generate_output_filename P files input_path
                  output_dir "_processed")
         end ;;
       progress progress_callback 10 ;;
       let analysis := analyze_file files input_path in
       if negb (PDFAnalyzer.success analysis) then
         ret (analysis_result analysis)
       else
         backup_path <-
           (if create_backups && negb force_ocr
            then create_backup input_path else ret None) ;;
         let result :=
           {| success := false; error := None;
              input_path := Some (path_str P input_path);
              output_path := Some (path_str P output_path);
              file_path := None; analysis := Some analysis;
              backup_path := backup_path; processing_type := None;
              input_size := None; output_size := None |} in
         progress progress_callback 20 ;;
         has_embedded_text <-
           lookup_key "has_embedded_text" (PDFAnalyzer.has_text analysis) ;;
         result <-
           (if needs_ocr has_embedded_text force_ocr then
              progress progress_callback 30 ;;
              ocr_result <-
                OCRProcessor.process_pdf P B language
                  (path_str P input_path) (path_str P output_path)
                  progress_callback
                  (Some {| OCRProcessor.optimize := None;
                           OCRProcessor.clean := None;
                           OCRProcessor.deskew := None;
                           OCRProcessor.remove_background := None;
                           OCRProcessor.rotate_pages := None;
                           OCRProcessor.skip_big := None;
                           OCRProcessor.jpeg_quality := None;
                           OCRProcessor.png_quality := None;
                           OCRProcessor.force_ocr := Some force_ocr |}) ;;
              (if OCRProcessor.success ocr_result
               then modify_stats incr_files_with_ocr else ret tt) ;;
              ret (update_with_ocr result ocr_result)
            else
              progress progress_callback 50 ;;
              try_except
                (lift_fs (path_mkdir B (path_parent P output_path)) ;;
                 lift_fs (shutil_copy2 B (path_str P input_path)
                            (path_str P output_path)) ;;
                 files <- get_fs ;;
                 modify_stats incr_files_copied ;;
                 progress progress_callback 100 ;;
                 ret (update_copied result
                        (getsize files (path_str P input_path))
                        (getsize files (path_str P output_path))))
                (fun e => ret (update_copy_failed result e))) ;;
         (if success result then
            modify_stats
              (record_success
                 (OCRProcessor.get (PDFAnalyzer.file_size analysis) 0))
          else modify_stats incr_errors) ;;
         ret result)
    (fun e =>
       modify_stats incr_errors ;;
       progress progress_callback (-1) ;;
       ret (error_result e input_path)).

(** [int((i / total_files) * 100)] *)
Definition overall_progress (i total_files : nat) : Q :=
  inject_Z (py_int
    (inject_Z (Z.of_nat i) / inject_Z (Z.of_nat total_files) * 100)%Q).

(** The closure [file_progress] of [process_batch]. *)
Definition file_progress (progress_callback : option Callback)
  (i total_files : nat) : Callback :=
  fun percent =>
    match progress_callback with
    | Some f =>
        let file_weight := (100 / inject_Z (Z.of_nat total_files))%Q in
        let combined_progress :=
          py_int (inject_Z (Z.of_nat i) * file_weight
                  + percent * file_weight / 100)%Q in
        f (inject_Z combined_progress)
    | None => []
    end.

(** The loop [for i, file_path in enumerate(file_paths)] of
    [process_batch]. *)
Fixpoint batch_loop (progress_callback : option Callback)
  (total_files i : nat) (file_paths : list string)
  (results : list ProcessingResult) : M (list ProcessingResult) :=
  match file_paths with
  | [] => ret results
  | file_path :: rest =>
      results' <-
        try_except
          (progress progress_callback (overall_progress i total_files) ;;
           result <-
             process_file file_path None false
               (Some (file_progress progress_callback i total_files)) ;;
           ret (results ++ [result]))
          (fun e => ret (results ++ [error_result e file_path])) ;;
      batch_loop progress_callback total_files (S i) rest results'
  end.

(** What calling [completion_callback(results, stats)] lets the outside
    see. *)
Definition Completion := list ProcessingResult -> Snapshot -> list event.

(** [process_batch] *)
Definition process_batch (file_paths : list string)
  (progress_callback : option Callback)
  (completion_callback : option Completion) : M (list ProcessingResult) :=
  let total_files := length file_paths in
  results <- batch_loop progress_callback total_files 0 file_paths [] ;;
  progress progress_callback 100 ;;
  (match completion_callback with
   | Some f => fun w => emits (f results (get_stats (stats w))) w
   | None => ret tt
   end) ;;
  ret results.

End Orchestrator.

End PDFProcessor.

(** ** The rest of [OCRProcessor]: languages, error codes, time estimates *)

Module OcrSupport.

(** [self.supported_languages] *)
Definition supported_languages : list (string * string) :=
  [("spa", "Español"); ("eng", "English"); ("fra", "Français");
   ("deu", "Deutsch"); ("ita", "Italiano"); ("por", "Português")].

(** [key in d] and [d.get(key)] on a dictionary kept as its list of items. *)
Fixpoint dict_get {V} (d : list (string * V)) (key : string) : option V :=
  match d with
  | [] => None
  | (k, v) :: rest => if String.eqb key k then Some v else dict_get rest key
  end.

Definition dict_in {V} (d : list (string * V)) (key : string) : bool :=
  match dict_get d key with Some _ => true | None => false end.

(** [set_language]: the answer and the new [self.language]. *)
Definition set_language (self_language language : string) : bool * string :=
  if dict_in supported_languages language then (true, language)
  else (false, self_language).

(** [self.language] after a sequence of [set_language] calls. *)
Definition set_languages (self_language : string) (calls : list string)
  : string :=
  fold_left (fun current l => snd (set_language current l)) calls
    self_language.

(** [error_codes] of [_interpret_ocr_error] *)
Definition error_codes : list (Z * string) :=
  [(1, "Error general de OCRmyPDF");
   (2, "PDF de entrada inválido o corrupto");
   (3, "PDF de entrada cifrado con contraseña");
   (4, "Error de Tesseract (posible problema de idioma)");
   (5, "Archivo de salida no se pudo escribir");
   (6, "PDF ya procesado con OCR");
   (7, "Otras limitaciones de entrada");
   (8, "PDF no contiene imágenes para procesar");
   (15, "Error de tiempo de ejecución o memoria insuficiente")].

Fixpoint codes_get (d : list (Z * string)) (code : Z) : option string :=
  match d with
  | [] => None
  | (k, v) :: rest => if Z.eqb code k then Some v else codes_get rest code
  end.

(** [_interpret_ocr_error] *)
Definition _interpret_ocr_error (exit_code : Z) : string :=
  match codes_get error_codes exit_code with
  | Some description => description
  | None => "Error desconocido (código " +:+ pretty exit_code +:+ ")"
  end.

Inductive Complexity := Bajo | Medio | Alto | MuyAlto.

(** The four messages of [_get_time_recommendation]. *)
Inductive TimeRecommendation :=
| Rapido       (* "Procesamiento rápido" *)
| Moderado     (* "Tiempo moderado - puedes esperar" *)
| Largo        (* "Procesamiento largo - considera hacer otras tareas" *)
| MuyLargo.    (* "Procesamiento muy largo - considera partir el archivo" *)

(** [a < b] on floats. *)
Definition Qltb (a b : Q) : bool := negb (Qle_bool b a).

(** [_get_time_recommendation] *)
Definition _get_time_recommendation (seconds : Q) : TimeRecommendation :=
  if Qltb seconds 60 then Rapido
  else if Qltb seconds 300 then Moderado
  else if Qltb seconds 900 then Largo
  else MuyLargo.

(** The dictionary of [estimate_processing_time] (the two rounded keys
    [file_size_mb] and [estimated_minutes] are left out). *)
Record TimeEstimate := {
  estimated_seconds : Z;
  complexity : Complexity;
  recommendation : TimeRecommendation
}.

(** [os.path.getsize(pdf_path) / (1024 * 1024)]: a division by a power of
    two, exact on floats. *)
Definition file_size_mb (size : Z) : Q :=
  (inject_Z size / inject_Z (1024 * 1024))%Q.

Definition base_time_per_mb : Q := 30.

(** The seconds and the complexity that the size decides. *)
Definition estimate_of_size (size : Z) : Q * Complexity :=
  let mb := file_size_mb size in
  if Qltb mb 1 then (15%Q, Bajo)
  else if Qltb mb 5 then ((mb * base_time_per_mb)%Q, Medio)
  else if Qltb mb 20 then ((mb * (base_time_per_mb * (3 # 2)))%Q, Alto)
  else ((mb * (base_time_per_mb * 2))%Q, MuyAlto).

(** [estimate_processing_time]: [inl] is the dictionary with the single key
    ['error']. *)
Definition estimate_processing_time (files : FS) (pdf_path : string)
  : string + TimeEstimate :=
  if negb (path_exists files pdf_path) then inl "Archivo no encontrado"
  else
    let '(seconds, level) := estimate_of_size (getsize files pdf_path) in
    inr {| estimated_seconds := PDFProcessor.py_int seconds;
           complexity := level;
           recommendation := _get_time_recommendation seconds |}.

End OcrSupport.

(** ** The rest of [utils]: names, sizes and path validation *)

Module UtilsText.

(** [invalid_chars]: less-than, greater-than, colon, double quote, slash,
    backslash, vertical bar, question mark and asterisk. *)
Definition invalid_chars : pystr := [60; 62; 58; 34; 47; 92; 124; 63; 42]%N.

Definition underscore : codepoint := 95%N.
Definition space : codepoint := 32%N.

(** [s.replace(char, '_')] for a single character [char]. *)
Definition replace (char replacement : codepoint) (s : pystr) : pystr :=
  map (fun c => if N.eqb c char then replacement else c) s.

(** [s.split()]: the maximal runs without whitespace, [cur] being the run
    under construction. *)
Fixpoint split_from (U : Unicode) (s cur : pystr) : list pystr :=
  match s with
  | [] => match cur with [] => [] | _ => [cur] end
  | c :: s' =>
      if isspace U c then
        match cur with
        | [] => split_from U s' []
        | _ => cur :: split_from U s' []
        end
      else split_from U s' (cur ++ [c])
  end.

Definition split (U : Unicode) (s : pystr) : list pystr := split_from U s [].

(** [' '.join(words)] *)
Fixpoint join_space (words : list pystr) : pystr :=
  match words with
  | [] => []
  | w :: rest =>
      match rest with
      | [] => w
      | _ => w ++ space :: join_space rest
      end
  end.

(** The name before it is cut to 200 characters. *)
Definition cleaned (U : Unicode) (filename : pystr) : pystr :=
  let clean_name :=
    fold_left (fun name char => replace char underscore name) invalid_chars
      filename in
  join_space (split U clean_name).

(** [sanitize_filename] *)
Definition sanitize_filename (U : Unicode) (filename : pystr) : pystr :=
  let clean_name := cleaned U filename in
  if (200 <? length clean_name)%nat then take 200 clean_name else clean_name.

(** [units] of [format_file_size] *)
Definition units : list string := ["B"; "KB"; "MB"; "GB"; "TB"].

(** The loop [while size >= 1024 and unit_index < len(units) - 1]; the
    second test ends it after four rounds at the latest, so five rounds are
    enough. *)
Fixpoint scale (fuel : nat) (size : Q) (unit_index : nat) : Q * nat :=
  match fuel with
  | O => (size, unit_index)
  | S fuel' =>
      if Qle_bool 1024 size && (unit_index <? length units - 1)%nat
      then scale fuel' (size / 1024)%Q (unit_index + 1)
      else (size, unit_index)
  end.

(** Rounding to the nearest integer, ties to even, as float formatting
    rounds. *)
Definition round_half_even (q : Q) : Z :=
  let f := Qfloor q in
  let r := (q - inject_Z f)%Q in
  if OcrSupport.Qltb r (1 # 2) then f
  else if OcrSupport.Qltb (1 # 2) r then f + 1
  else if Z.even f then f else f + 1.

(** [f"{size:.1f}"] for a size that is not negative. *)
Definition format_1f (size : Q) : string :=
  let tenths := round_half_even (size * 10) in
  pretty (tenths / 10) +:+ "." +:+ pretty (tenths mod 10).

(** [float(n)] on an integer: the nearest value with 53 significant bits,
    a tie going to the even one, and [OverflowError] when that value would
    reach [2^1024]. *)
Definition float_of_int (n : Z) : result Q :=
  let a := Z.abs n in
  if Z.ltb a (2 ^ 53) then Ok (inject_Z n)
  else
    let e := Z.log2 a - 52 in
    let m := a / 2 ^ e in
    let r := a mod 2 ^ e in
    let half := 2 ^ (e - 1) in
    let m' :=
      if Z.ltb r half then m
      else if Z.ltb half r then m + 1
      else if Z.even m then m else m + 1 in
    let v := m' * 2 ^ e in
    if Z.leb (2 ^ 1024) v then Raise "int too large to convert to float"
    else Ok (inject_Z (Z.sgn n * v)).

(** [format_file_size]. The divisions by 1024 are exact on floats, and the
    formatting rounds the exact value of the float. *)
Definition format_file_size (size_bytes : Z) : result string :=
  if Z.eqb size_bytes 0 then Ok "0 B"
  else
    match float_of_int size_bytes with
    | Raise e => Raise e
    | Ok size =>
        let '(size, unit_index) := scale 5 size 0 in
        let unit := nth unit_index units "" in
        if (unit_index =? 0)%nat
        then Ok (pretty (PDFProcessor.py_int size) +:+ " " +:+ unit)
        else Ok (format_1f size +:+ " " +:+ unit)
    end.

(** [Path.is_file] and [os.access(path, os.R_OK)]. *)
Record Access := {
  is_file : string -> bool;
  readable : string -> bool
}.

(** What one round of the loop of [validate_paths] appends to [errors]. *)
Definition path_error (P : PathLib) (A : Access) (files : FS)
  (path : string) : option string :=
  if String.eqb path "" then Some "Ruta vacía proporcionada"
  else if negb (path_exists files (path_str P path)) then
    Some ("No existe: " +:+ path)
  else if is_file A (path_str P path)
          && negb (PDFAnalyzer.endswith (PDFAnalyzer.lower path) ".pdf")
  then Some ("No es un archivo PDF: " +:+ path)
  else if negb (readable A path) then
    Some ("Sin permisos de lectura: " +:+ path)
  else None.

(** [validate_paths] on the paths it is given. *)
Definition validate_paths (P : PathLib) (A : Access) (files : FS)
  (paths : list string) : bool * list string :=
  let errors :=
    fold_left
      (fun errors path =>
         match path_error P A files path with
         | Some e => errors ++ [e]
         | None => errors
         end)
      paths [] in
  ((length errors =? 0)%nat, errors).

End UtilsText.

(** ** Concrete libraries and files used in the examples *)

Module Examples.

(** ASCII letters and digits; the ASCII whitespace characters. *)
Definition ascii_unicode : Unicode :=
  {| isalnum := fun c =>
       ((48 <=? c) && (c <=? 57) || (65 <=? c) && (c <=? 90)
        || (97 <=? c) && (c <=? 122))%N;
     isspace := fun c =>
       ((9 <=? c) && (c <=? 13) || (28 <=? c) && (c <=? 32))%N |}.

(** Paths of one directory level, written [dir/name.ext]. *)
Fixpoint after_last (sep : ascii) (s acc : string) : string :=
  match s with
  | EmptyString => acc
  | String c s' =>
      if Ascii.eqb c sep then after_last sep s' ""
      else after_last sep s' (acc +:+ String c "")
  end.

Fixpoint before_last (sep : ascii) (s : string) : string :=
  match s with
  | EmptyString => ""
  | String c s' =>
      if existsb (Ascii.eqb sep) (list_ascii_of_string s)
      then (if Ascii.eqb c sep
            then (if existsb (Ascii.eqb sep) (list_ascii_of_string s')
                  then String c (before_last sep s') else "")
            else String c (before_last sep s'))
      else ""
  end.

(** [Path(p).stem] and [Path(p).suffix] of a file name: the suffix starts
    at the last dot, unless that dot opens or ends the name. *)
Definition split_suffix (name : string) : string * string :=
  let stem := before_last "." name in
  let ext := after_last "." name "" in
  if existsb (Ascii.eqb ".") (list_ascii_of_string name)
     && negb (String.eqb stem "") && negb (String.eqb ext "")
  then (stem, "." +:+ ext)
  else (name, "").

Definition posix : PathLib :=
  {| dirname := before_last "/";
     basename := fun p => after_last "/" p "";
     join := fun d n => d +:+ "/" +:+ n;
     gettempdir := "/tmp";
     path_str := fun p => p;
     path_parent := before_last "/";
     path_stem := fun p => fst (split_suffix (after_last "/" p ""));
     path_suffix := fun p => snd (split_suffix (after_last "/" p "")) |}.

(** A page whose text is [n] copies of the letter [a]. *)
Definition text_page (n : nat) : Page :=
  {| get_text := Ok (repeat 97%N n); image_count := 0 |}.

Definition plain_doc (pages : list Page) : Doc :=
  {| doc_pages := pages; is_encrypted := false; authenticate_empty := false;
     has_metadata := true |}.

Definition pdf_file (d : Doc) : File :=
  {| st_size := 1000; fitz_open := Ok d |}.

(** A file that exists and that PyMuPDF cannot open. *)
Definition corrupt_file : File :=
  {| st_size := 12; fitz_open := Raise "cannot open broken document" |}.

Definition a_directory : File :=
  {| st_size := 4096; fitz_open := Raise "is a directory" |}.

(** Two pages: sixty letters on the first, nothing on the second. *)
Definition half_text_fs : FS :=
  {[ "/in/half.pdf" := pdf_file (plain_doc [text_page 60; text_page 0]) ]}.

(** One page with three hundred letters. *)
Definition text_fs : FS :=
  {[ "/in/text.pdf" := pdf_file (plain_doc [text_page 300]) ]}.

Definition corrupt_fs : FS := {[ "/in/broken.pdf" := corrupt_file ]}.

(** A scanned page: no text layer, one image. *)
Definition scanned_page : Page := {| get_text := Ok []; image_count := 1 |}.

(** A one-page scan that needs a password: PyMuPDF reports it encrypted,
    the empty password does not open it, and it shows no metadata. *)
Definition protected_doc : Doc :=
  {| doc_pages := [scanned_page]; is_encrypted := true;
     authenticate_empty := false; has_metadata := false |}.

Definition protected_fs : FS :=
  {[ "/in/protected.pdf" := pdf_file protected_doc ]}.

Definition scan_fs : FS :=
  {[ "/in/scan.pdf" := pdf_file (plain_doc [scanned_page]) ]}.

Definition write_file (p : string) (f : File) : Effect unit :=
  fun files => (Ok tt, <[p := f]> files).

Definition copy_file (src dst : string) : Effect unit :=
  fun files =>
    match files !! src with
    | Some f => (Ok tt, <[dst := f]> files)
    | None => (Raise "No such file or directory", files)
    end.

Definition remove_file (p : string) : Effect unit :=
  fun files => (Ok tt, delete p files).

(** A directory and everything below it removed. *)
Definition remove_tree (d : string) (files : FS) : FS :=
  filter (fun entry => negb (String.prefix d (fst entry))) files.

(** [tempfile.mkdtemp()] making [/tmp/tmpocr]. *)
Definition make_temp_dir : Effect string :=
  fun files => (Ok "/tmp/tmpocr", <[ "/tmp/tmpocr" := a_directory ]> files).

Definition png_file : File :=
  {| st_size := 2048; fitz_open := Raise "not a document" |}.

(** Tesseract writing [out_base.pdf] and exiting with code 0. *)
Definition tesseract_writes (out_base : string) : Effect Z :=
  fun files => (Ok 0, <[ out_base +:+ ".pdf" := pdf_file (plain_doc []) ]> files).

Definition ocr_output : File :=
  pdf_file (plain_doc [text_page 100]).

(** Libraries that all work: OCRmyPDF writes its output. *)
Definition working_backend : Backend :=
  {| os_makedirs := fun d => write_file d a_directory;
     os_unlink := remove_file;
     save_decrypted := copy_file;
     ocrmypdf_ocr := fun _ output _ => write_file output ocr_output;
     fallback_imports := Ok tt;
     mkdtemp := make_temp_dir;
     get_pixmap := fun _ _ _ _ img_path => write_file img_path png_file;
     run_tesseract := fun _ out_base _ => tesseract_writes out_base;
     write_combined := fun _ output => write_file output ocr_output;
     shutil_rmtree := remove_tree;
     path_mkdir := fun d => write_file d a_directory;
     shutil_copy2 := copy_file;
     timestamp := "20240101_120000" |}.

(** Libraries in which OCRmyPDF always raises and Tesseract exits with
    code 1 on every page: the three strategies fail. *)
Definition failing_ocr_backend : Backend :=
  {| os_makedirs := fun d => write_file d a_directory;
     os_unlink := remove_file;
     save_decrypted := copy_file;
     ocrmypdf_ocr := fun _ _ _ files => (Raise "PriorOcrFoundError", files);
     fallback_imports := Ok tt;
     mkdtemp := make_temp_dir;
     get_pixmap := fun _ _ _ _ img_path => write_file img_path png_file;
     run_tesseract := fun _ _ _ files => (Ok 1, files);
     write_combined := fun _ output => write_file output ocr_output;
     shutil_rmtree := remove_tree;
     path_mkdir := fun d => write_file d a_directory;
     shutil_copy2 := copy_file;
     timestamp := "20240101_120000" |}.

Definition start (files : FS) : World :=
  {| fs := files;
     stats := {| files_processed := 0; files_with_ocr := 0;
                 files_copied := 0; total_size_processed := 0;
                 errors := 0 |};
     log := [] |}.

(** The percentages among the events of a log. *)
Definition percentages (events : list event) : list Q :=
  flat_map (fun e => match e with Progress q => [Qred q] | _ => [] end)
    events.

(** The name that [generate_output_filename] tries first for
    [/in/report.pdf] is taken. *)
Definition taken_fs : FS :=
  {[ "/in/report.pdf" := pdf_file (plain_doc [text_page 300]);
     "/in/report_processed.pdf" := ocr_output ]}.

(** Every percentage is at most the one that follows it. *)
Fixpoint non_decreasing (qs : list Q) : bool :=
  match qs with
  | [] => true
  | a :: rest =>
      match rest with
      | [] => true
      | b :: _ => Qle_bool a b && non_decreasing rest
      end
  end.

(** The percentages other than the failure sentinel [-1]. *)
Definition without_sentinel (qs : list Q) : list Q :=
  List.filter (fun q => negb (Qeq_bool q (-1))) qs.

(** Between 0 and 100. *)
Definition in_range (q : Q) : bool := Qle_bool 0 q && Qle_bool q 100.

End Examples.

(** ** More concrete libraries and files *)

Module FurtherExamples.

(** Libraries in which OCRmyPDF raises and the second page of a document
    cannot be rasterized. *)
Definition second_page_unrenderable : Backend :=
  {| os_makedirs := fun d => Examples.write_file d Examples.a_directory;
     os_unlink := Examples.remove_file;
     save_decrypted := Examples.copy_file;
     ocrmypdf_ocr := fun _ _ _ files => (Raise "InputFileError", files);
     fallback_imports := Ok tt;
     mkdtemp := Examples.make_temp_dir;
     get_pixmap := fun _ page_num _ _ img_path files =>
       if (page_num =? 1)%nat then (Raise "cannot render page", files)
       else Examples.write_file img_path Examples.png_file files;
     run_tesseract := fun _ out_base _ => Examples.tesseract_writes out_base;
     write_combined := fun _ output =>
       Examples.write_file output Examples.ocr_output;
     shutil_rmtree := Examples.remove_tree;
     path_mkdir := fun d => Examples.write_file d Examples.a_directory;
     shutil_copy2 := Examples.copy_file;
     timestamp := "20240101_120000" |}.

(** Libraries in which OCRmyPDF raises and Tesseract exits with code 1 on
    the second page of a document. *)
Definition second_page_unrecognised : Backend :=
  {| os_makedirs := fun d => Examples.write_file d Examples.a_directory;
     os_unlink := Examples.remove_file;
     save_decrypted := Examples.copy_file;
     ocrmypdf_ocr := fun _ _ _ files => (Raise "InputFileError", files);
     fallback_imports := Ok tt;
     mkdtemp := Examples.make_temp_dir;
     get_pixmap := fun _ _ _ _ img_path =>
       Examples.write_file img_path Examples.png_file;
     run_tesseract := fun _ out_base _ files =>
       if String.eqb out_base "/tmp/tmpocr/page_1" then (Ok 1, files)
       else Examples.tesseract_writes out_base files;
     write_combined := fun _ output =>
       Examples.write_file output Examples.ocr_output;
     shutil_rmtree := Examples.remove_tree;
     path_mkdir := fun d => Examples.write_file d Examples.a_directory;
     shutil_copy2 := Examples.copy_file;
     timestamp := "20240101_120000" |}.

(** Libraries in which OCRmyPDF returns without having written anything. *)
Definition silent_backend : Backend :=
  {| os_makedirs := fun d => Examples.write_file d Examples.a_directory;
     os_unlink := Examples.remove_file;
     save_decrypted := Examples.copy_file;
     ocrmypdf_ocr := fun _ _ _ files => (Ok tt, files);
     fallback_imports := Ok tt;
     mkdtemp := Examples.make_temp_dir;
     get_pixmap := fun _ _ _ _ img_path =>
       Examples.write_file img_path Examples.png_file;
     run_tesseract := fun _ out_base _ =>
       Examples.tesseract_writes out_base;
     write_combined := fun _ output =>
       Examples.write_file output Examples.ocr_output;
     shutil_rmtree := Examples.remove_tree;
     path_mkdir := fun d => Examples.write_file d Examples.a_directory;
     shutil_copy2 := Examples.copy_file;
     timestamp := "20240101_120000" |}.

Definition three_page_scan : Doc :=
  Examples.plain_doc
    [Examples.scanned_page; Examples.scanned_page; Examples.scanned_page].

Definition three_page_fs : FS :=
  {[ "/in/three.pdf" := Examples.pdf_file three_page_scan ]}.

(** A string as the list of its code points (ASCII). *)
Definition codepoints (s : string) : pystr :=
  map (fun c => N.of_nat (nat_of_ascii c)) (list_ascii_of_string s).

(** Everything is a readable regular file. *)
Definition open_access : UtilsText.Access :=
  {| UtilsText.is_file := fun _ => true;
     UtilsText.readable := fun _ => true |}.

(** A file of a given size that is no document. *)
Definition sized_file (size : Z) : File :=
  {| st_size := size; fitz_open := Raise "cannot open broken document" |}.

(** A file of three million bytes and one of thirty million. *)
Definition sized_fs : FS :=
  {[ "/in/small.pdf" := sized_file 3000000;
     "/in/large.pdf" := sized_file 30000000 ]}.

(** A name with a character that is not allowed, a double space and a space
    at its end. *)
Definition untidy_name : pystr := codepoints "a<b  c ".

End FurtherExamples.

(** ** Vocabulary of the properties *)

(** A page that PyMuPDF can read, with the text it yields. *)
Definition reads (page : Page) (text : pystr) : Prop := get_text page = Ok text.

(** A path whose document cannot be opened, or one of whose first five pages
    cannot be read. *)
Definition unreadable (files : FS) (pdf_path : string) : Prop :=
  match open_doc files pdf_path with
  | Raise _ => True
  | Ok doc =>
      exists i page e,
        (i < 5)%nat /\ doc_pages doc !! i = Some page
        /\ get_text page = Raise e
  end.

(** The percentage of the sampled pages whose stripped text is longer than
    twenty characters. *)
Definition sampled_coverage (U : Unicode) (texts : list pystr) : Q :=
  match texts with
  | [] => 0
  | _ =>
      (inject_Z (Z.of_nat (length
         (List.filter (fun t => (20 <? length (strip U t))%nat) texts)))
       / inject_Z (Z.of_nat (length texts))) * 100
  end%Q.

(** The texts of pages that can all be read. *)
Fixpoint page_texts (pages : list Page) : option (list pystr) :=
  match pages with
  | [] => Some []
  | page :: rest =>
      match get_text page, page_texts rest with
      | Ok text, Some texts => Some (text :: texts)
      | _, _ => None
      end
  end.

(** The texts of the first [min(10, n)] pages of the document at a path,
    when the document opens and every one of these pages can be read. *)
Definition sampled_texts (files : FS) (pdf_path : string)
  : option (list pystr) :=
  match open_doc files pdf_path with
  | Ok doc =>
      page_texts (take (Nat.min 10 (length (doc_pages doc))) (doc_pages doc))
  | Raise _ => None
  end.

(** The coverage of the amended claim: the percentage over the sampled
    pages when they can all be read, and 0 when the document cannot be
    opened or one of them cannot be read. *)
Definition expected_coverage (U : Unicode) (files : FS)
  (pdf_path : string) : Q :=
  match sampled_texts files pdf_path with
  | Some texts => sampled_coverage U texts
  | None => 0
  end.

(** The decision table as the specification prints it: above 80, from 50 to
    80, below 50. *)
Definition table_of_the_specification (has_text : bool) (coverage : Q)
  : PDFAnalyzer.Recommendation :=
  if has_text then
    if PDFAnalyzer.Qgtb coverage 80 then PDFAnalyzer.NoOcrNeeded
    else if Qle_bool 50 coverage then PDFAnalyzer.PartialOcr
    else PDFAnalyzer.OcrRecommended
  else PDFAnalyzer.OcrRequired.

(** The entry of a page agrees with the page's text on the meaningful-text
    test. *)
Definition describes (U : Unicode) (info : PDFAnalyzer.PageInfo)
  (text : pystr) : Prop :=
  PDFAnalyzer.has_meaningful_text info = (20 <? length (strip U text))%nat.

(** The counters of the statistics do not decrease. *)
Definition stats_le (s s' : Stats) : Prop :=
  files_processed s <= files_processed s'
  /\ files_with_ocr s <= files_with_ocr s'
  /\ files_copied s <= files_copied s'
  /\ errors s <= errors s'.

(** A computation that leaves no counter lower than it found it. *)
Definition monotone {A} (m : M A) : Prop :=
  forall w, stats_le (stats w) (stats (snd (m w))).

(** A computation that returns whatever the world: no exception leaves
    it. *)
Definition returns {A} (m : M A) : Prop :=
  forall w, exists a w', m w = (Ok a, w').

(** Whenever the computation returns a value, the value satisfies [Q]. *)
Definition yields {A} (m : M A) (Q : A -> Prop) : Prop :=
  forall w a w', m w = (Ok a, w') -> Q a.

(** What [process_file] records about its decision: the analysis kept in
    the result has [processing_needed = not has_embedded_text], and the
    strategy is [ocr_applied] exactly when [not has_embedded_text or
    force_ocr]; otherwise it is [copy_only], unless the copy failed and no
    strategy was recorded. *)
Definition decision_recorded (force_ocr : bool)
  (r : PDFProcessor.ProcessingResult) : Prop :=
  forall a, PDFProcessor.analysis r = Some a ->
    exists has,
      PDFAnalyzer.success a = true
      /\ PDFAnalyzer.has_text a = Some has
      /\ PDFAnalyzer.processing_needed a = Some (negb has)
      /\ PDFProcessor.processing_type r
         = if negb has || force_ocr then Some PDFProcessor.ocr_applied
           else if PDFProcessor.success r then Some PDFProcessor.copy_only
           else None.

(** A strategy of the chain answers [None] when it succeeds and the error
    when it fails. *)
Definition Strategy := M (option string).

Inductive ChainOutcome :=
| Succeeded
| Exhausted (errors : list string).

(** The chain as the specification words it: the strategies are attempted
    in the order of the list, each one only after the one before it failed;
    the first success ends the chain, and the chain fails only when the list
    is exhausted. *)
Fixpoint in_order (strategies : list Strategy) (errors : list string)
  : M ChainOutcome :=
  match strategies with
  | [] => ret (Exhausted errors)
  | strategy :: rest =>
      bind strategy (fun answer =>
        match answer with
        | None => ret Succeeded
        | Some e => in_order rest (errors ++ [e])
        end)
  end.

(** One run of a library call as a strategy. *)
Definition attempt (m : M unit) : Strategy :=
  try_except (bind m (fun _ => ret None)) (fun e => ret (Some e)).

Section Strategies.

Context (P : PathLib) (B : Backend) (language : string).
Context (input_path output_path : string) (cb : option Callback).

(** What [process_pdf] does before the strategies when the input exists:
    the output directory, the decryption step and the first progress
    reports. It returns the file that the strategies are given. *)
Definition before_strategies : M string :=
  bind get_fs (fun files =>
  let output_dir := dirname P output_path in
  bind (if negb (String.eqb output_dir "")
           && negb (path_exists files output_dir)
        then lift_fs (os_makedirs B output_dir) else ret tt) (fun _ =>
  bind (progress cb 0) (fun _ =>
  bind (try_except (OCRProcessor._handle_encrypted_pdf P B input_path cb)
          (fun _ => ret input_path)) (fun temp_input =>
  bind (progress cb 10) (fun _ =>
  bind (progress cb 20) (fun _ =>
  ret temp_input)))))).

(** What [process_pdf] does after a strategy has succeeded: the temporary
    copy is removed and the output is looked for. *)
Definition after_strategies (temp_input : string)
  : M OCRProcessor.PdfResult :=
  bind get_fs (fun files =>
  bind (if negb (String.eqb temp_input input_path)
           && path_exists files temp_input
        then try_except
               (bind (emit (Unlink temp_input)) (fun _ =>
                lift_fs (os_unlink B temp_input)))
               (fun _ => ret tt)
        else ret tt) (fun _ =>
  bind (progress cb 90) (fun _ =>
  bind get_fs (fun files =>
  if path_exists files output_path then
    let output_size := getsize files output_path in
    let input_size := getsize files input_path in
    bind (progress cb 100) (fun _ =>
    ret {| OCRProcessor.success := true;
           OCRProcessor.error := None;
           OCRProcessor.input_path := input_path;
           OCRProcessor.output_path := Some output_path;
           OCRProcessor.input_size := Some input_size;
           OCRProcessor.output_size := Some output_size;
           OCRProcessor.size_change := Some (output_size - input_size) |})
  else
    ret (OCRProcessor.failure "El archivo de salida no se generó"
           input_path (Some output_path)))))).

(** What [process_pdf] answers to an exception. *)
Definition failed (e : string) : M OCRProcessor.PdfResult :=
  bind (progress cb (-1)) (fun _ =>
  ret (OCRProcessor.failure ("Error durante procesamiento: " +:+ e)
         input_path (Some output_path))).

Context (temp_input : string) (config : OCRProcessor.Config).

(** The full-featured OCRmyPDF pass. *)
Definition primary_strategy : Strategy :=
  attempt (OCRProcessor.ocrmypdf B temp_input output_path
             (OCRProcessor.ocr_options language config)).

(** The page-by-page pass with Tesseract. *)
Definition secondary_strategy : Strategy :=
  bind (progress cb 40) (fun _ =>
  bind (OCRProcessor._tesseract_fallback_ocr P B language temp_input
          output_path cb) (fun ok =>
  ret (if ok then None else Some "Método alternativo también falló"))).

(** OCRmyPDF once more, with the minimal configuration. *)
Definition tertiary_strategy : Strategy :=
  bind (progress cb 50) (fun _ =>
  attempt (OCRProcessor.ocrmypdf B temp_input output_path
             (OCRProcessor.minimal_options language))).

(** The three strategies in the order of the specification. *)
Definition strategies : list Strategy :=
  [primary_strategy; secondary_strategy; tertiary_strategy].

(** What the chain of [process_pdf] makes of the outcome. *)
Definition chain_result (o : result ChainOutcome * World)
  : result unit * World :=
  match o with
  | (Ok Succeeded, w) => (Ok tt, w)
  | (Ok (Exhausted errors), w) =>
      (Raise ("Todos los métodos de OCR fallaron: "
              +:+ default "" (last errors)), w)
  | (Raise e, w) => (Raise e, w)
  end.

(** The page-by-page pass as the specification words it: in page order,
    each page is rasterized at twice the resolution and given to Tesseract;
    the page's PDF is collected when Tesseract exits with code 0 and has
    left it, and the page is dropped otherwise. A page that cannot be
    rasterized ends the pass. *)
Fixpoint recognise_pages (temp_dir : string) (page_nums : list nat)
  (files : FS) : result (list string) * FS :=
  match page_nums with
  | [] => (Ok [], files)
  | page_num :: rest =>
      match get_pixmap B temp_input page_num 2 2
              (OCRProcessor.page_png P temp_dir page_num) files with
      | (Raise e, files1) => (Raise e, files1)
      | (Ok _, files1) =>
          let '(answer, files2) :=
            run_tesseract B (OCRProcessor.page_png P temp_dir page_num)
              (OCRProcessor.page_base P temp_dir page_num) language files1 in
          let page_pdf := OCRProcessor.page_pdf P temp_dir page_num in
          let collected :=
            match answer with
            | Ok returncode =>
                if Z.eqb returncode 0 && path_exists files2 page_pdf
                then [page_pdf] else []
            | Raise _ => []
            end in
          match recognise_pages temp_dir rest files2 with
          | (Ok more, files3) => (Ok (collected ++ more), files3)
          | (Raise e, files3) => (Raise e, files3)
          end
      end
  end.

End Strategies.

Definition is_progress (e : event) : bool :=
  match e with Progress _ => true | _ => false end.

(** The library calls among the events of a log. *)
Definition library_calls (events : list event) : list event :=
  List.filter (fun e => negb (is_progress e)) events.

(** The result says which file it is about: under ['input_path'], as given
    or as [pathlib] writes it, or, when the analysis failed, under
    ['file_path']. *)
Definition names_path (P : PathLib) (path : string)
  (r : PDFProcessor.ProcessingResult) : Prop :=
  PDFProcessor.input_path r = Some path
  \/ PDFProcessor.input_path r = Some (path_str P path)
  \/ PDFProcessor.file_path r = Some path.

Section BatchRun.

Context (U : Unicode) (P : PathLib) (B : Backend).
Context (language : string) (output_dir : option string)
        (create_backups : bool).
Context (cb : option Callback) (total_files : nat).

(** The run of a batch from [w] to [w'], file by file: for each path in
    turn the overall progress is reported and [process_file] is called on
    that path, in the world that the file before it has left, and what it
    returns is the result in the same position. *)
Fixpoint attempts_each (i : nat) (file_paths : list string)
  (results : list PDFProcessor.ProcessingResult) (w w' : World) : Prop :=
  match file_paths, results with
  | [], [] => w' = w
  | file_path :: paths, result :: rest =>
      exists w0 w1,
        progress cb (PDFProcessor.overall_progress i total_files) w
        = (Ok tt, w0)
        /\ PDFProcessor.process_file U P B language output_dir
             create_backups file_path None false
             (Some (PDFProcessor.file_progress cb i total_files)) w0
           = (Ok result, w1)
        /\ names_path P file_path result
        /\ attempts_each (S i) paths rest w1 w'
  | _, _ => False
  end.

End BatchRun.

(** A computation that leaves the statistics as it found them. *)
Definition keeps_stats {A} (m : M A) : Prop :=
  forall w, stats (snd (m w)) = stats w.

(** A percentage that a progress callback may be shown: between 0 and 100,
    or the failure sentinel. *)
Definition percent_ok (e : event) : Prop :=
  match e with
  | Progress q => ((0 <= q)%Q /\ (q <= 100)%Q) \/ (q == -1)%Q
  | _ => True
  end.

(** A computation that only appends to the log, and only events that
    satisfy [I]. *)
Definition log_adds {A} (I : event -> Prop) (m : M A) : Prop :=
  forall w, exists new, log (snd (m w)) = log w ++ new /\ Forall I new.

(** The size that [process_file] adds to [total_size_processed] for a
    result: the ['file_size'] of the analysis it carries. *)
Definition counted_size (r : PDFProcessor.ProcessingResult) : Z :=
  match PDFProcessor.analysis r with
  | Some a => OCRProcessor.get (PDFAnalyzer.file_size a) 0
  | None => 0
  end.

Definition is_type (t : PDFProcessor.ProcessingType)
  (r : PDFProcessor.ProcessingResult) : bool :=
  match PDFProcessor.processing_type r, t with
  | Some PDFProcessor.ocr_applied, PDFProcessor.ocr_applied => true
  | Some PDFProcessor.copy_only, PDFProcessor.copy_only => true
  | _, _ => false
  end.

(** How one [process_file] call that returned [r] moves the statistics
    from [s] to [s']. *)
Definition accounted (r : PDFProcessor.ProcessingResult) (s s' : Stats)
  : Prop :=
  files_processed s'
  = files_processed s + (if PDFProcessor.success r then 1 else 0)
  /\ files_with_ocr s'
     = files_with_ocr s
       + (if PDFProcessor.success r && is_type PDFProcessor.ocr_applied r
          then 1 else 0)
  /\ files_copied s'
     = files_copied s
       + (if PDFProcessor.success r && is_type PDFProcessor.copy_only r
          then 1 else 0)
  /\ total_size_processed s'
     = total_size_processed s
       + (if PDFProcessor.success r then counted_size r else 0)
  /\ (errors s' = errors s \/ errors s' = errors s + 1)
  /\ (PDFProcessor.success r = true -> errors s' = errors s)
  /\ (PDFProcessor.success r = false ->
      PDFProcessor.analysis r <> None -> errors s' = errors s + 1)
  /\ (PDFProcessor.file_path r <> None -> errors s' = errors s).

(** The shape of a result of [process_file]: a success names its output and
    its strategy and has no error; a failure has an error. *)
Definition well_formed_result (r : PDFProcessor.ProcessingResult) : Prop :=
  (PDFProcessor.success r = true ->
   PDFProcessor.error r = None
   /\ (exists out, PDFProcessor.output_path r = Some out)
   /\ (exists t, PDFProcessor.processing_type r = Some t)
   /\ (exists a, PDFProcessor.analysis r = Some a))
  /\ (PDFProcessor.success r = false ->
      exists e, PDFProcessor.error r = Some e).

(** The number of results with [success = True]. *)
Definition successes (results : list PDFProcessor.ProcessingResult) : Z :=
  Z.of_nat (length (List.filter PDFProcessor.success results)).

(** The number of results that satisfy [p]. *)
Definition tally (p : PDFProcessor.ProcessingResult -> bool)
  (results : list PDFProcessor.ProcessingResult) : Z :=
  Z.of_nat (length (List.filter p results)).

(** The bytes of the successful results: the sum of their analyses'
    ['file_size']. *)
Definition bytes_of (results : list PDFProcessor.ProcessingResult) : Z :=
  fold_right Z.add 0
    (List.map counted_size (List.filter PDFProcessor.success results)).

Definition analysed (r : PDFProcessor.ProcessingResult) : bool :=
  match PDFProcessor.analysis r with Some _ => true | None => false end.

(** How a batch that returned [results] moves the statistics from [s] to
    [s']. *)
Definition batch_accounted (results : list PDFProcessor.ProcessingResult)
  (s s' : Stats) : Prop :=
  files_processed s' = files_processed s + successes results
  /\ files_with_ocr s'
     = files_with_ocr s
       + tally (fun r => PDFProcessor.success r
                         && is_type PDFProcessor.ocr_applied r) results
  /\ files_copied s'
     = files_copied s
       + tally (fun r => PDFProcessor.success r
                         && is_type PDFProcessor.copy_only r) results
  /\ total_size_processed s' = total_size_processed s + bytes_of results
  /\ errors s
     + tally (fun r => negb (PDFProcessor.success r) && analysed r) results
     <= errors s'
  /\ errors s'
     <= errors s + (Z.of_nat (length results) - successes results).

(** [size_bytes] after [k] divisions by 1024. *)
Definition divided (size_bytes : Z) (k : nat) : Q :=
  Nat.iter k (fun q => (q / 1024)%Q) (inject_Z size_bytes).

(** A path that [validate_paths] has nothing to say against. *)
Definition acceptable (P : PathLib) (A : UtilsText.Access) (files : FS)
  (path : string) : Prop :=
  path <> ""
  /\ path_exists files (path_str P path) = true
  /\ (UtilsText.is_file A (path_str P path) = true ->
      PDFAnalyzer.endswith (PDFAnalyzer.lower path) ".pdf" = true)
  /\ UtilsText.readable A path = true.

(** A string without whitespace. *)
Definition spaceless (U : Unicode) (s : pystr) : Prop :=
  Forall (fun c => isspace U c = false) s.

(** Words as [str.split] leaves them: not empty and without whitespace. *)
Definition words_ok (U : Unicode) (words : list pystr) : Prop :=
  Forall (fun w => w <> [] /\ spaceless U w) words.

(** A string in which none of [chars] occurs. *)
Definition free_of (chars s : pystr) : Prop :=
  Forall (fun c => c ∉ chars) s.

(** Where [create_backup] puts the copy of [file_path]. *)
Definition backup_file (P : PathLib) (B : Backend) (file_path : string)
  : string :=
  join P (join P (path_parent P file_path) "backups")
    (path_stem P file_path +:+ "_backup_" +:+ timestamp B
     +:+ path_suffix P file_path).

(** What a result of [process_file] may say about a backup: nothing, unless
    backups are enabled and OCR is not forced, and then only the path that
    [create_backup] makes for the input. *)
Definition backup_recorded (P : PathLib) (B : Backend)
  (create_backups force_ocr : bool) (input_path : string)
  (r : PDFProcessor.ProcessingResult) : Prop :=
  match PDFProcessor.backup_path r with
  | None => True
  | Some b =>
      create_backups = true /\ force_ocr = false
      /\ b = backup_file P B input_path
      /\ PDFProcessor.analysis r <> None
  end.

(** A percentage that [process_batch] may show: between 0 and 100, or the
    failure sentinel when the batch is a single file. *)
Definition batch_percent_ok (total_files : nat) (e : event) : Prop :=
  match e with
  | Progress q =>
      ((0 <= q)%Q /\ (q <= 100)%Q) \/ ((q == -1)%Q /\ total_files = 1%nat)
  | _ => True
  end.

(** What the completion callback of a batch lets the outside see. *)
Definition completion_events (cc : option PDFProcessor.Completion)
  (run : result (list PDFProcessor.ProcessingResult) * World) : list event :=
  match cc, fst run with
  | Some f, Ok results => f results (PDFProcessor.get_stats (stats (snd run)))
  | _, _ => []
  end.

(** What PyMuPDF reports of a document: [fitz.open] tries the empty
    password itself, so a document is reported as encrypted only while the
    empty password does not open it. *)
Definition as_pymupdf_reports (doc : Doc) : Prop :=
  is_encrypted doc = true -> authenticate_empty doc = false.

(** The filesystem that the decryption step of [process_pdf] finds: the
    one of the call, after the output directory has been made when it was
    missing. *)
Definition found_by_decryption (P : PathLib) (B : Backend)
  (output_path : string) (files : FS) : FS :=
  let output_dir := dirname P output_path in
  if negb (String.eqb output_dir "") && negb (path_exists files output_dir)
  then snd (os_makedirs B output_dir files)
  else files.

(** An event of a call that works on the input itself: no decrypted copy
    is written, none is to be removed, and OCRmyPDF is given the input. *)
Definition works_on_input (input_path : string) (e : event) : Prop :=
  match e with
  | SaveDecrypted _ _ => False
  | Unlink _ => False
  | OcrMyPdf input_file _ _ => input_file = input_path
  | _ => True
  end.

(** * Properties *)

(** ** Text detection ([PDFAnalyzer.has_embedded_text]) *)

Section TextDetection.

Context (U : Unicode).

Lemma take_drop_lookup {A} (l : list A) (a k : nat) (x : A) :
  l !! a = Some x -> take (S k) (drop a l) = x :: take k (drop (S a) l).
Proof.
  intros Hx. rewrite (drop_S l x a Hx). reflexivity.
Qed.

Lemma collect_text_readable (pages : list Page) :
  forall k a acc texts,
    (a + k <= length pages)%nat ->
    Forall2 reads (take k (drop a pages)) texts ->
    PDFAnalyzer.collect_text pages (seq a k) acc = Ok (acc ++ concat texts).
Proof.
  induction k as [|k IH]; intros a acc texts Hlen Hall.
  - rewrite take_0 in Hall. apply Forall2_nil_inv_l in Hall. subst texts.
    simpl. by rewrite app_nil_r.
  - destruct (lookup_lt_is_Some_2 pages a ltac:(lia)) as [page Hpage].
    rewrite (take_drop_lookup _ _ _ _ Hpage) in Hall.
    apply Forall2_cons_inv_l in Hall as (text & texts' & Hread & Hrest & ->).
    cbn [seq PDFAnalyzer.collect_text]. rewrite Hpage, Hread.
    rewrite (IH (S a) (acc ++ text) texts') by (lia || done).
    by rewrite concat_cons, app_assoc.
Qed.

Lemma collect_text_unreadable (pages : list Page) (i : nat) (page : Page)
  (e : string) :
  pages !! i = Some page -> get_text page = Raise e ->
  forall k a acc, (a <= i < a + k)%nat ->
    exists e', PDFAnalyzer.collect_text pages (seq a k) acc = Raise e'.
Proof.
  intros Hpage Hraise.
  induction k as [|k IH]; intros a acc Hi; [lia|].
  cbn [seq PDFAnalyzer.collect_text].
  destruct (pages !! a) as [p|] eqn:Hp; [|eauto].
  destruct (get_text p) as [text|e'] eqn:Ht; [|eauto].
  destruct (decide (a = i)) as [->|Hne]; [congruence|].
  apply IH. lia.
Qed.

(** C3. For a document that opens and whose first [min(5, page_count)] pages
    can be read, [has_embedded_text] looks at the text of exactly those
    pages, keeps the characters that are alphanumeric or whitespace, strips
    the result and answers [True] exactly when what remains is strictly
    longer than [min_text_length]; the second component is the total page
    count. The default threshold is 50. *)
Theorem has_embedded_text_sampling (min_text_length : Z) (files : FS)
  (pdf_path : string) (doc : Doc) (texts : list pystr) :
  open_doc files pdf_path = Ok doc ->
  Forall2 reads
    (take (Nat.min 5 (length (doc_pages doc))) (doc_pages doc)) texts ->
  let remaining :=
    strip U (List.filter (fun c => isalnum U c || isspace U c)
               (concat texts)) in
  PDFAnalyzer.has_embedded_text U min_text_length files pdf_path
  = (bool_decide (min_text_length < Z.of_nat (length remaining)),
     length (doc_pages doc))
  /\ PDFAnalyzer.default_min_text_length = 50.
Proof.
  intros Hopen Hread remaining. split; [|reflexivity].
  unfold PDFAnalyzer.has_embedded_text, PDFAnalyzer.has_embedded_text_body.
  rewrite Hopen.
  rewrite (collect_text_readable _ _ 0%nat [] texts);
    [|lia|by rewrite drop_0].
  rewrite app_nil_l. f_equal.
  subst remaining. unfold PDFAnalyzer.meaningful.
  destruct (Z.gtb_spec
    (Z.of_nat (length (strip U (List.filter
       (fun c => isalnum U c || isspace U c) (concat texts)))))
    min_text_length) as [Hgt|Hle].
  - symmetry. apply bool_decide_eq_true. lia.
  - symmetry. apply bool_decide_eq_false. lia.
Qed.

End TextDetection.

Lemma has_embedded_text_sampling_witness :
  PDFAnalyzer.has_embedded_text Examples.ascii_unicode 50 Examples.text_fs
    "/in/text.pdf" = (true, 1%nat).
Proof.
  pose proof (has_embedded_text_sampling Examples.ascii_unicode 50
    Examples.text_fs "/in/text.pdf"
    (Examples.plain_doc [Examples.text_page 300])
    [repeat 97%N 300]) as H.
  destruct H as [H _].
  - reflexivity.
  - repeat constructor.
  - rewrite H. vm_compute. reflexivity.
Defined.

(** ** Page analysis, coverage and the recommendation *)

Section Coverage.

Context (U : Unicode).

Lemma analyze_pages_loop_readable (pages : list Page) :
  forall k a acc texts,
    (a + k <= length pages)%nat ->
    Forall2 reads (take k (drop a pages)) texts ->
    exists infos,
      PDFAnalyzer.analyze_pages_loop U pages (seq a k) acc = Ok (acc ++ infos)
      /\ Forall2 (describes U) infos texts.
Proof.
  induction k as [|k IH]; intros a acc texts Hlen Hall.
  - rewrite take_0 in Hall. apply Forall2_nil_inv_l in Hall. subst texts.
    exists []. simpl. rewrite app_nil_r. split; [done|constructor].
  - destruct (lookup_lt_is_Some_2 pages a ltac:(lia)) as [page Hpage].
    rewrite (take_drop_lookup _ _ _ _ Hpage) in Hall.
    apply Forall2_cons_inv_l in Hall as (text & texts' & Hread & Hrest & ->).
    cbn [seq PDFAnalyzer.analyze_pages_loop]. rewrite Hpage, Hread.
    edestruct (IH (S a)) as (infos & Heq & Hdesc); [|exact Hrest|]; [lia|].
    rewrite Heq. eexists (_ :: infos). rewrite <- app_assoc. split; [done|].
    constructor; [reflexivity|done].
Qed.

Lemma analyze_pages_loop_unreadable (pages : list Page) (i : nat)
  (page : Page) (e : string) :
  pages !! i = Some page -> get_text page = Raise e ->
  forall k a acc, (a <= i < a + k)%nat ->
    exists e',
      PDFAnalyzer.analyze_pages_loop U pages (seq a k) acc = Raise e'.
Proof.
  intros Hpage Hraise.
  induction k as [|k IH]; intros a acc Hi; [lia|].
  cbn [seq PDFAnalyzer.analyze_pages_loop].
  destruct (pages !! a) as [p|] eqn:Hp; [|eauto].
  destruct (get_text p) as [text|e'] eqn:Ht; [|eauto].
  destruct (decide (a = i)) as [->|Hne]; [congruence|].
  apply IH. lia.
Qed.

Lemma describes_count (infos : list PDFAnalyzer.PageInfo)
  (texts : list pystr) :
  Forall2 (describes U) infos texts ->
  PDFAnalyzer.pages_with_text infos
  = length (List.filter (fun t => (20 <? length (strip U t))%nat) texts)
  /\ length infos = length texts.
Proof.
  unfold PDFAnalyzer.pages_with_text.
  induction 1 as [|info text infos texts Hd _ [IH1 IH2]]; [done|].
  cbn [List.filter]. rewrite <- Hd.
  destruct (PDFAnalyzer.has_meaningful_text info); cbn [length]; lia.
Qed.

Lemma coverage_of_readable_sample (files : FS) (pdf_path : string)
  (doc : Doc) (texts : list pystr) :
  open_doc files pdf_path = Ok doc ->
  Forall2 reads
    (take (Nat.min 10 (length (doc_pages doc))) (doc_pages doc)) texts ->
  PDFAnalyzer._calculate_text_coverage
    (PDFAnalyzer.analyze_pages U files pdf_path PDFAnalyzer.default_max_pages)
  = sampled_coverage U texts.
Proof.
  intros Hopen Hread. unfold PDFAnalyzer.analyze_pages. rewrite Hopen.
  destruct (analyze_pages_loop_readable (doc_pages doc)
    (Nat.min 10 (length (doc_pages doc))) 0%nat [] texts)
    as (infos & Heq & Hdesc); [lia|by rewrite drop_0|].
  unfold PDFAnalyzer.default_max_pages. rewrite Heq, app_nil_l.
  destruct (describes_count _ _ Hdesc) as [Hcount Hlen].
  unfold PDFAnalyzer._calculate_text_coverage, sampled_coverage.
  rewrite Hcount, Hlen.
  destruct Hdesc; reflexivity.
Qed.

Lemma Qgtb_true (a b : Q) : PDFAnalyzer.Qgtb a b = true <-> (b < a)%Q.
Proof.
  unfold PDFAnalyzer.Qgtb. rewrite negb_true_iff.
  split.
  - intros H. apply Qnot_le_lt. intros Hle.
    apply Qle_bool_iff in Hle. congruence.
  - intros H. destruct (Qle_bool a b) eqn:E; [|done].
    apply Qle_bool_iff in E. exfalso. eapply Qlt_not_le; eauto.
Qed.

Lemma Qgtb_false (a b : Q) : PDFAnalyzer.Qgtb a b = false <-> (a <= b)%Q.
Proof.
  unfold PDFAnalyzer.Qgtb. rewrite negb_false_iff. apply Qle_bool_iff.
Qed.

Lemma page_texts_reads (pages : list Page) (texts : list pystr) :
  page_texts pages = Some texts -> Forall2 reads pages texts.
Proof.
  revert texts. induction pages as [|page rest IH]; intros texts.
  - intros [= <-]. constructor.
  - cbn [page_texts]. destruct (get_text page) as [text|e] eqn:Hpage; [|done].
    destruct (page_texts rest) as [texts'|]; [|done].
    intros [= <-]. constructor; [exact Hpage|by apply IH].
Qed.

Lemma page_texts_unreadable (pages : list Page) :
  page_texts pages = None ->
  exists i page e, pages !! i = Some page /\ get_text page = Raise e.
Proof.
  induction pages as [|page rest IH]; [done|]. cbn [page_texts].
  destruct (get_text page) as [text|e] eqn:Hpage.
  - destruct (page_texts rest) as [texts'|]; [done|]. intros _.
    destruct (IH eq_refl) as (i & p & e & Hi & He).
    by exists (S i), p, e.
  - intros _. by exists 0%nat, page, e.
Qed.

Lemma coverage_as_expected (files : FS) (pdf_path : string) :
  PDFAnalyzer._calculate_text_coverage
    (PDFAnalyzer.analyze_pages U files pdf_path PDFAnalyzer.default_max_pages)
  = expected_coverage U files pdf_path.
Proof.
  unfold expected_coverage, sampled_texts.
  destruct (open_doc files pdf_path) as [doc|e] eqn:Hopen.
  2:{ unfold PDFAnalyzer.analyze_pages. by rewrite Hopen. }
  destruct (page_texts _) as [texts|] eqn:Htexts.
  - apply coverage_of_readable_sample with doc; [done|].
    by apply page_texts_reads.
  - apply page_texts_unreadable in Htexts as (i & page & e & Hi & He).
    pose proof (lookup_lt_Some _ _ _ Hi) as Hlt.
    rewrite length_take in Hlt.
    rewrite lookup_take_lt in Hi by lia.
    unfold PDFAnalyzer.analyze_pages, PDFAnalyzer.default_max_pages.
    rewrite Hopen.
    destruct (analyze_pages_loop_unreadable (doc_pages doc) i page e Hi He
      (Nat.min 10 (length (doc_pages doc))) 0%nat [])
      as [e' ->]; [lia|done].
Qed.

(** C7, amended. For a successful analysis the recommendation follows from
    [has_embedded_text] and the coverage: with text, above 80 no OCR is
    needed, above 50 and up to 80 partial OCR is suggested, and at 50 or
    below OCR is recommended; without text OCR is required. The coverage
    is the percentage of the first [min(10, n)] pages of the document whose
    stripped text is longer than twenty characters when these pages can
    all be read, and 0 when the document cannot be opened or one of them
    cannot be read. *)
Theorem recommendation_table (min_text_length : Z) (files : FS)
  (pdf_path : string) :
  let a := PDFAnalyzer.analyze_pdf U min_text_length files pdf_path in
  PDFAnalyzer.success a = true ->
  exists has coverage,
    PDFAnalyzer.has_text a = Some has
    /\ PDFAnalyzer.text_coverage a = Some coverage
    /\ (has = true -> (80 < coverage)%Q ->
        PDFAnalyzer.recommendation a = Some PDFAnalyzer.NoOcrNeeded)
    /\ (has = true -> (50 < coverage)%Q -> (coverage <= 80)%Q ->
        PDFAnalyzer.recommendation a = Some PDFAnalyzer.PartialOcr)
    /\ (has = true -> (coverage <= 50)%Q ->
        PDFAnalyzer.recommendation a = Some PDFAnalyzer.OcrRecommended)
    /\ (has = false ->
        PDFAnalyzer.recommendation a = Some PDFAnalyzer.OcrRequired)
    /\ coverage = expected_coverage U files pdf_path
    /\ (forall doc texts,
          open_doc files pdf_path = Ok doc ->
          Forall2 reads
            (take (Nat.min 10 (length (doc_pages doc))) (doc_pages doc))
            texts ->
          coverage = sampled_coverage U texts).
Proof.
  intros a. subst a. unfold PDFAnalyzer.analyze_pdf.
  destruct (negb (path_exists files pdf_path)); [discriminate|].
  destruct (PDFAnalyzer.has_embedded_text U min_text_length files pdf_path)
    as [has n].
  intros _. exists has. eexists. cbn.
  split; [reflexivity|]. split; [reflexivity|].
  unfold PDFAnalyzer._get_recommendation.
  repeat split; [| | | |apply coverage_as_expected|].
  - intros -> H. apply Qgtb_true in H. by rewrite H.
  - intros -> H1 H2. apply Qgtb_true in H1. apply Qgtb_false in H2.
    by rewrite H2, H1.
  - intros -> H.
    assert (H80 : (PDFAnalyzer._calculate_text_coverage
      (PDFAnalyzer.analyze_pages U files pdf_path
         PDFAnalyzer.default_max_pages) <= 80)%Q).
    { eapply Qle_trans; [exact H|]. discriminate. }
    apply Qgtb_false in H, H80. by rewrite H80, H.
  - by intros ->.
  - intros doc texts Hopen Hread.
    by apply coverage_of_readable_sample with doc.
Qed.

(** C10. A path that exists and whose document cannot be opened or read is
    still analysed with [success = True]: [has_embedded_text] answers
    [(False, 0)], [analyze_pages] answers the empty list, so the result has
    no text, zero pages, coverage 0 and [processing_needed = True]. *)
Theorem unreadable_document_analysis_succeeds (min_text_length : Z)
  (files : FS) (pdf_path : string) :
  path_exists files pdf_path = true ->
  unreadable files pdf_path ->
  let a := PDFAnalyzer.analyze_pdf U min_text_length files pdf_path in
  PDFAnalyzer.has_embedded_text U min_text_length files pdf_path
    = (false, 0%nat)
  /\ PDFAnalyzer.analyze_pages U files pdf_path PDFAnalyzer.default_max_pages
     = []
  /\ PDFAnalyzer.success a = true
  /\ PDFAnalyzer.error a = None
  /\ PDFAnalyzer.has_text a = Some false
  /\ PDFAnalyzer.page_count a = Some 0%nat
  /\ PDFAnalyzer.text_coverage a = Some 0%Q
  /\ PDFAnalyzer.processing_needed a = Some true.
Proof.
  intros Hex Hun a.
  assert (Htext : PDFAnalyzer.has_embedded_text U min_text_length files
                    pdf_path = (false, 0%nat)).
  { unfold PDFAnalyzer.has_embedded_text,
      PDFAnalyzer.has_embedded_text_body.
    unfold unreadable in Hun.
    destruct (open_doc files pdf_path) as [doc|e]; [|done].
    destruct Hun as (i & page & e & Hi & Hpage & Hraise).
    pose proof (lookup_lt_Some _ _ _ Hpage) as Hlt.
    destruct (collect_text_unreadable (doc_pages doc) i page e Hpage Hraise
      (Nat.min 5 (length (doc_pages doc))) 0%nat []) as [e' ->]; [lia|done]. }
  assert (Hpages : PDFAnalyzer.analyze_pages U files pdf_path
                     PDFAnalyzer.default_max_pages = []).
  { unfold PDFAnalyzer.analyze_pages, PDFAnalyzer.default_max_pages.
    unfold unreadable in Hun.
    destruct (open_doc files pdf_path) as [doc|e]; [|done].
    destruct Hun as (i & page & e & Hi & Hpage & Hraise).
    pose proof (lookup_lt_Some _ _ _ Hpage) as Hlt.
    destruct (analyze_pages_loop_unreadable (doc_pages doc) i page e Hpage
      Hraise (Nat.min 10 (length (doc_pages doc))) 0%nat [])
      as [e' ->]; [lia|done]. }
  split; [exact Htext|]. split; [exact Hpages|].
  subst a. unfold PDFAnalyzer.analyze_pdf.
  rewrite Hex, Htext, Hpages. cbn. repeat split.
Qed.

End Coverage.

Lemma recommendation_table_witness :
  PDFAnalyzer.recommendation
    (PDFAnalyzer.analyze_pdf Examples.ascii_unicode 50 Examples.text_fs
       "/in/text.pdf")
  = Some PDFAnalyzer.NoOcrNeeded.
Proof.
  destruct (recommendation_table Examples.ascii_unicode 50 Examples.text_fs
    "/in/text.pdf") as (has & coverage & Hhas & Hcov & Hno & _).
  - reflexivity.
  - vm_compute in Hhas, Hcov.
    injection Hhas as <-. injection Hcov as <-.
    apply Hno; reflexivity.
Defined.

(** C7, as the specification states it, fails at a coverage of exactly 50:
    the program recommends OCR where the table suggests partial OCR. *)
Lemma recommendation_table_counterexample :
  let a := PDFAnalyzer.analyze_pdf Examples.ascii_unicode 50
             Examples.half_text_fs "/in/half.pdf" in
  PDFAnalyzer.success a = true
  /\ PDFAnalyzer.has_text a = Some true
  /\ PDFAnalyzer.text_coverage a = Some (100 # 2)
  /\ ((100 # 2) == 50)%Q
  /\ PDFAnalyzer.recommendation a = Some PDFAnalyzer.OcrRecommended
  /\ table_of_the_specification true (100 # 2) = PDFAnalyzer.PartialOcr
  /\ PDFAnalyzer.recommendation a
     <> Some (table_of_the_specification true (100 # 2)).
Proof.
  vm_compute. repeat split. discriminate.
Qed.

Lemma unreadable_document_analysis_succeeds_witness :
  PDFAnalyzer.success
    (PDFAnalyzer.analyze_pdf Examples.ascii_unicode 50 Examples.corrupt_fs
       "/in/broken.pdf") = true.
Proof.
  apply (unreadable_document_analysis_succeeds Examples.ascii_unicode 50
           Examples.corrupt_fs "/in/broken.pdf").
  - reflexivity.
  - exact I.
Defined.

(** ** Statistics *)

Section Statistics.

Lemma stats_le_refl (s : Stats) : stats_le s s.
Proof. unfold stats_le. lia. Qed.

Lemma stats_le_trans (s1 s2 s3 : Stats) :
  stats_le s1 s2 -> stats_le s2 s3 -> stats_le s1 s3.
Proof. unfold stats_le. lia. Qed.

Lemma monotone_ret {A} (a : A) : monotone (ret a).
Proof. intros w. apply stats_le_refl. Qed.

Lemma monotone_raise {A} (e : string) : monotone (@raise A e).
Proof. intros w. apply stats_le_refl. Qed.

Lemma monotone_emit (e : event) : monotone (emit e).
Proof. intros w. apply stats_le_refl. Qed.

Lemma monotone_emits (es : list event) : monotone (emits es).
Proof. intros w. apply stats_le_refl. Qed.

Lemma monotone_get_fs : monotone get_fs.
Proof. intros w. apply stats_le_refl. Qed.

Lemma monotone_lift_fs {A} (f : Effect A) : monotone (lift_fs f).
Proof.
  intros w. unfold lift_fs. destruct (f (fs w)). apply stats_le_refl.
Qed.

Lemma monotone_lift_result {A} (r : result A) : monotone (lift_result r).
Proof. intros w. apply stats_le_refl. Qed.

Lemma monotone_progress (cb : option Callback) (q : Q) :
  monotone (progress cb q).
Proof. destruct cb; [apply monotone_emits|apply monotone_ret]. Qed.

Lemma monotone_modify (f : Stats -> Stats) :
  (forall s, stats_le s (f s)) -> monotone (modify_stats f).
Proof. intros Hf w. apply Hf. Qed.

Lemma monotone_bind {A B} (m : M A) (k : A -> M B) :
  monotone m -> (forall a, monotone (k a)) -> monotone (bind m k).
Proof.
  intros Hm Hk w. unfold bind. specialize (Hm w).
  destruct (m w) as [[a|e] w1]; [|exact Hm].
  eapply stats_le_trans; [exact Hm|apply Hk].
Qed.

Lemma monotone_try_except {A} (m : M A) (h : string -> M A) :
  monotone m -> (forall e, monotone (h e)) -> monotone (try_except m h).
Proof.
  intros Hm Hh w. unfold try_except. specialize (Hm w).
  destruct (m w) as [[a|e] w1]; [exact Hm|].
  eapply stats_le_trans; [exact Hm|apply Hh].
Qed.

Lemma monotone_lookup_key {A} (key : string) (v : option A) :
  monotone (PDFProcessor.lookup_key key v).
Proof. destruct v; [apply monotone_ret|apply monotone_raise]. Qed.

Lemma stats_le_incr_files_with_ocr (s : Stats) :
  stats_le s (PDFProcessor.incr_files_with_ocr s).
Proof. unfold stats_le. cbn. lia. Qed.

Lemma stats_le_incr_files_copied (s : Stats) :
  stats_le s (PDFProcessor.incr_files_copied s).
Proof. unfold stats_le. cbn. lia. Qed.

Lemma stats_le_record_success (size : Z) (s : Stats) :
  stats_le s (PDFProcessor.record_success size s).
Proof. unfold stats_le. cbn. lia. Qed.

Lemma stats_le_incr_errors (s : Stats) :
  stats_le s (PDFProcessor.incr_errors s).
Proof. unfold stats_le. cbn. lia. Qed.

End Statistics.

Create HintDb mono.

#[local] Hint Resolve monotone_ret monotone_raise monotone_emit
  monotone_emits monotone_get_fs monotone_lift_fs monotone_lift_result
  monotone_progress monotone_lookup_key stats_le_incr_files_with_ocr
  stats_le_incr_files_copied stats_le_record_success stats_le_incr_errors
  : mono.

(** One step of a proof that a computation is [monotone]: the shape of the
    program decides the rule. *)
Ltac mono_step :=
  first
    [ solve [auto with mono]
    | apply monotone_modify; solve [auto with mono]
    | apply monotone_bind; [|intros ?]
    | apply monotone_try_except; [|intros ?]
    | match goal with
      | |- monotone (if ?b then _ else _) => destruct b
      | |- monotone (match ?x with _ => _ end) => destruct x
      end ].

Ltac mono := repeat mono_step.

Section StatisticsOfThePrograms.

Context (U : Unicode) (P : PathLib) (B : Backend) (language : string).

Lemma monotone_fallback_pages (input_path : string)
  (cb : option Callback) (temp_dir : string) (total : nat)
  (page_nums : list nat) :
  forall ocr_results,
    monotone (OCRProcessor.fallback_pages P B language input_path cb
                temp_dir total page_nums ocr_results).
Proof.
  induction page_nums as [|page_num rest IH]; intros ocr_results;
    cbn [OCRProcessor.fallback_pages]; mono.
Qed.

Lemma monotone_process_pdf (input_path output_path : string)
  (cb : option Callback) (config : option OCRProcessor.Config) :
  monotone (OCRProcessor.process_pdf P B language input_path output_path cb
              config).
Proof.
  unfold OCRProcessor.process_pdf, OCRProcessor.run_strategies,
    OCRProcessor._tesseract_fallback_ocr, OCRProcessor._handle_encrypted_pdf,
    OCRProcessor._combine_pdfs, OCRProcessor.ocrmypdf.
  mono; apply monotone_fallback_pages.
Qed.

End StatisticsOfThePrograms.

#[local] Hint Resolve monotone_fallback_pages monotone_process_pdf : mono.

Ltac mono_zeta := repeat (first [mono_step | progress lazy zeta]).

Section Returning.

Lemma returns_ret {A} (a : A) : returns (ret a).
Proof. intros w. by eexists _, _. Qed.

Lemma returns_bind {A B} (m : M A) (k : A -> M B) :
  returns m -> (forall a, returns (k a)) -> returns (bind m k).
Proof.
  intros Hm Hk w. unfold bind. destruct (Hm w) as (a & w1 & ->). apply Hk.
Qed.

Lemma returns_progress (cb : option Callback) (q : Q) :
  returns (progress cb q).
Proof. intros w. destruct cb; by eexists _, _. Qed.

Lemma returns_modify (f : Stats -> Stats) : returns (modify_stats f).
Proof. intros w. by eexists _, _. Qed.

Lemma returns_emits (es : list event) : returns (emits es).
Proof. intros w. by eexists _, _. Qed.

Lemma returns_try_except {A} (m : M A) (h : string -> M A) :
  (forall e, returns (h e)) -> returns (try_except m h).
Proof.
  intros Hh w. unfold try_except.
  destruct (m w) as [[a|e] w1]; [by eexists _, _|apply Hh].
Qed.

Lemma yields_ret {A} (a : A) (Q : A -> Prop) : Q a -> yields (ret a) Q.
Proof. intros HQ w a' w' [= <- _]. exact HQ. Qed.

Lemma yields_raise {A} (e : string) (Q : A -> Prop) : yields (raise e) Q.
Proof. intros w a' w' [=]. Qed.

Lemma yields_any {A} (m : M A) : yields m (fun _ => True).
Proof. by intros w a w' _. Qed.

Lemma yields_bind {A B} (m : M A) (k : A -> M B) (R : A -> Prop)
  (Q : B -> Prop) :
  yields m R -> (forall a, R a -> yields (k a) Q) -> yields (bind m k) Q.
Proof.
  intros Hm Hk w b w'. unfold bind.
  destruct (m w) as [[a|e] w1] eqn:E; [|discriminate].
  intros H. eapply Hk; [eapply Hm|]; eauto.
Qed.

Lemma yields_try_except {A} (m : M A) (h : string -> M A) (Q : A -> Prop) :
  yields m Q -> (forall e, yields (h e) Q) -> yields (try_except m h) Q.
Proof.
  intros Hm Hh w a w'. unfold try_except.
  destruct (m w) as [[a'|e] w1] eqn:E.
  - intros [= <- <-]. eapply Hm; eauto.
  - intros H. eapply Hh; eauto.
Qed.

Lemma yields_lookup_key {A} (key : string) (v : option A) :
  yields (PDFProcessor.lookup_key key v) (fun a => v = Some a).
Proof.
  destruct v as [a|]; cbn.
  - by intros w a' w' [= <- _].
  - intros w a' w' [=].
Qed.

End Returning.

Section Orchestration.

Context (U : Unicode) (P : PathLib) (B : Backend).
Context (language : string) (output_dir : option string)
        (create_backups : bool).

Lemma monotone_process_file (input_path : string)
  (output_path : option string) (force_ocr : bool) (cb : option Callback) :
  monotone (PDFProcessor.process_file U P B language output_dir
              create_backups input_path output_path force_ocr cb).
Proof.
  unfold PDFProcessor.process_file, PDFProcessor.create_backup.
  mono_zeta.
Qed.

Lemma returns_process_file (input_path : string)
  (output_path : option string) (force_ocr : bool) (cb : option Callback) :
  returns (PDFProcessor.process_file U P B language output_dir
             create_backups input_path output_path force_ocr cb).
Proof.
  unfold PDFProcessor.process_file. apply returns_try_except. intros e.
  apply returns_bind; [apply returns_modify|intros _].
  apply returns_bind; [apply returns_progress|intros _].
  apply returns_ret.
Qed.

Lemma process_pdf_names_input (input_path output_path : string)
  (cb : option Callback) (config : option OCRProcessor.Config) :
  yields
    (OCRProcessor.process_pdf P B language input_path output_path cb config)
    (fun r => OCRProcessor.input_path r = input_path).
Proof.
  unfold OCRProcessor.process_pdf. apply yields_try_except.
  2:{ intros e. eapply yields_bind; [apply yields_any|intros ? _].
      by apply yields_ret. }
  eapply yields_bind; [apply yields_any|intros files _].
  destruct (negb (path_exists files input_path)); [by apply yields_ret|].
  lazy zeta.
  do 9 (eapply yields_bind; [apply yields_any|intros ? _]).
  eapply yields_bind; [apply yields_any|intros files' _].
  destruct (path_exists files' output_path); [|by apply yields_ret].
  eapply yields_bind; [apply yields_any|intros ? _].
  by apply yields_ret.
Qed.

Lemma analyze_file_failure_names_path (files : FS) (file_path : string) :
  PDFAnalyzer.success (PDFProcessor.analyze_file U files file_path) = false ->
  PDFAnalyzer.file_path (PDFProcessor.analyze_file U files file_path)
  = Some file_path.
Proof.
  unfold PDFProcessor.analyze_file, PDFAnalyzer.validate_pdf.
  destruct (path_exists files file_path) eqn:Hex; cbn [negb]; [|done].
  destruct (negb (PDFAnalyzer.endswith (PDFAnalyzer.lower file_path) ".pdf"));
    [done|].
  destruct (open_doc files file_path) as [doc|e]; [|done].
  destruct (length (doc_pages doc) =? 0)%nat; [done|]. cbn [negb].
  unfold PDFAnalyzer.analyze_pdf. rewrite Hex. cbn [negb].
  by destruct (PDFAnalyzer.has_embedded_text U PDFProcessor.min_text_length
                 files file_path).
Qed.

Lemma process_file_names_path (input_path : string)
  (output_path : option string) (force_ocr : bool) (cb : option Callback) :
  yields
    (PDFProcessor.process_file U P B language output_dir create_backups
       input_path output_path force_ocr cb)
    (names_path P input_path).
Proof.
  unfold PDFProcessor.process_file. apply yields_try_except.
  2:{ intros e. do 2 (eapply yields_bind; [apply yields_any|intros ? _]).
      apply yields_ret. by left. }
  eapply yields_bind; [apply yields_any|intros ? _].
  eapply yields_bind; [apply yields_any|intros files _].
  destruct (negb (path_exists files (path_str P input_path))).
  { apply yields_ret. by left. }
  eapply yields_bind; [apply yields_any|intros out _].
  eapply yields_bind; [apply yields_any|intros ? _]. lazy zeta.
  destruct (negb (PDFAnalyzer.success
    (PDFProcessor.analyze_file U files input_path))) eqn:Hs.
  { apply yields_ret. right. right. cbn.
    apply analyze_file_failure_names_path. by apply negb_true_iff. }
  eapply yields_bind; [apply yields_any|intros backup _].
  eapply yields_bind; [apply yields_any|intros ? _].
  eapply yields_bind; [apply yields_any|intros has _].
  eapply yields_bind with (R := fun r =>
    PDFProcessor.input_path r = Some (path_str P input_path)).
  - destruct (PDFProcessor.needs_ocr has force_ocr).
    + eapply yields_bind; [apply yields_any|intros ? _].
      eapply yields_bind; [apply process_pdf_names_input|intros ocr Hocr].
      eapply yields_bind; [apply yields_any|intros ? _].
      apply yields_ret. cbn. by rewrite Hocr.
    + eapply yields_bind; [apply yields_any|intros ? _].
      apply yields_try_except.
      * do 5 (eapply yields_bind; [apply yields_any|intros ? _]).
        by apply yields_ret.
      * intros e. by apply yields_ret.
  - intros r Hr. eapply yields_bind; [apply yields_any|intros ? _].
    apply yields_ret. right. by left.
Qed.

(** The loop of [process_batch] fills one slot for each path, in order,
    with what [process_file] returned for that path. *)
Lemma batch_loop_slots (cb : option Callback) (total_files : nat)
  (file_paths : list string) :
  forall i results w,
    exists slots w',
      PDFProcessor.batch_loop U P B language output_dir create_backups cb
        total_files i file_paths results w = (Ok (results ++ slots), w')
      /\ stats_le (stats w) (stats w')
      /\ length slots = length file_paths
      /\ forall j file_path,
           file_paths !! j = Some file_path ->
           exists result w1 w2,
             slots !! j = Some result
             /\ names_path P file_path result
             /\ PDFProcessor.process_file U P B language output_dir
                  create_backups file_path None false
                  (Some (PDFProcessor.file_progress cb (i + j) total_files))
                  w1 = (Ok result, w2).
Proof.
  induction file_paths as [|file_path rest IH]; intros i results w.
  - exists [], w. cbn. rewrite app_nil_r.
    split; [done|]. split; [apply stats_le_refl|]. split; [done|].
    intros j p Hj. done.
  - cbn [PDFProcessor.batch_loop]. unfold bind at 1, try_except.
    unfold bind at 1.
    destruct (returns_progress cb
      (PDFProcessor.overall_progress i total_files) w) as ([] & w0 & Hp).
    pose proof (monotone_progress cb
      (PDFProcessor.overall_progress i total_files) w) as Hm0.
    rewrite Hp in Hm0 |- *. cbn [snd] in Hm0.
    unfold bind at 1.
    destruct (returns_process_file file_path None false
      (Some (PDFProcessor.file_progress cb i total_files)) w0)
      as (result & w1 & Hrun).
    pose proof (monotone_process_file file_path None false
      (Some (PDFProcessor.file_progress cb i total_files)) w0) as Hm1.
    rewrite Hrun in Hm1 |- *. cbn [snd] in Hm1. cbn [ret].
    destruct (IH (S i) (results ++ [result]) w1)
      as (slots & w' & Hloop & Hm2 & Hlen & Hslots).
    exists (result :: slots), w'. rewrite Hloop, <- app_assoc.
    split; [done|]. split.
    { eapply stats_le_trans; [exact Hm0|].
      eapply stats_le_trans; [exact Hm1|exact Hm2]. }
    split; [cbn; lia|].
    intros [|j] p Hj.
    + injection Hj as <-. exists result, w0, w1.
      rewrite Nat.add_0_r. split; [done|]. split; [|done].
      by eapply process_file_names_path.
    + destruct (Hslots j p Hj) as (r & wa & wb & Hr & Hnames & Hpf).
      exists r, wa, wb. split; [done|]. split; [done|].
      by replace (i + S j)%nat with (S i + j)%nat by lia.
Qed.

(** The loop of [process_batch] attempts every path, in order, whatever
    the files before it came to. *)
Lemma batch_loop_attempts (cb : option Callback) (total_files : nat)
  (file_paths : list string) :
  forall i results w,
    exists slots w',
      PDFProcessor.batch_loop U P B language output_dir create_backups cb
        total_files i file_paths results w = (Ok (results ++ slots), w')
      /\ length slots = length file_paths
      /\ attempts_each U P B language output_dir create_backups cb
           total_files i file_paths slots w w'.
Proof.
  induction file_paths as [|file_path rest IH]; intros i results w.
  - exists [], w. cbn. by rewrite app_nil_r.
  - cbn [PDFProcessor.batch_loop]. unfold bind at 1, try_except.
    unfold bind at 1.
    destruct (returns_progress cb
      (PDFProcessor.overall_progress i total_files) w) as ([] & w0 & Hp).
    rewrite Hp. unfold bind at 1.
    destruct (returns_process_file file_path None false
      (Some (PDFProcessor.file_progress cb i total_files)) w0)
      as (result & w1 & Hrun).
    rewrite Hrun. cbn [ret].
    destruct (IH (S i) (results ++ [result]) w1)
      as (slots & w' & Hloop & Hlen & Hslots).
    exists (result :: slots), w'. rewrite Hloop, <- app_assoc.
    split; [done|]. split; [cbn; lia|].
    cbn [attempts_each]. exists w0, w1.
    split; [exact Hp|]. split; [exact Hrun|]. split; [|exact Hslots].
    by eapply process_file_names_path.
Qed.

(** C4. Whatever happens to the individual files, [process_batch] returns,
    and it returns one result for each input path, in input order. Its run
    attempts every file: for path [i] the overall progress is reported and
    [process_file] is called, in the world that file [i - 1] has left, and
    what that call returns is result [i], which names path [i]. A failure
    in one slot (a result with [success = False]) neither ends the run nor
    leaves a later slot out. After the last file only the final progress
    report and the completion callback follow, which touch neither the
    files nor the statistics. *)
Theorem process_batch_mirrors_input (file_paths : list string)
  (cb : option Callback) (cc : option PDFProcessor.Completion) (w : World) :
  exists results w1 w',
    PDFProcessor.process_batch U P B language output_dir create_backups
      file_paths cb cc w = (Ok results, w')
    /\ length results = length file_paths
    /\ attempts_each U P B language output_dir create_backups cb
         (length file_paths) 0 file_paths results w w1
    /\ fs w' = fs w1
    /\ stats w' = stats w1
    /\ forall i file_path,
         file_paths !! i = Some file_path ->
         exists result,
           results !! i = Some result /\ names_path P file_path result.
Proof.
  unfold PDFProcessor.process_batch.
  destruct (batch_loop_attempts cb (length file_paths) file_paths 0%nat [] w)
    as (slots & w1 & Hloop & Hlen & Hrun).
  destruct (batch_loop_slots cb (length file_paths) file_paths 0%nat [] w)
    as (slots' & w1' & Hloop' & _ & _ & Hslots).
  rewrite Hloop in Hloop'. injection Hloop' as <- <-.
  rewrite app_nil_l in Hloop.
  unfold bind at 1. rewrite Hloop. unfold bind at 1.
  destruct (progress cb 100 w1) as [rp w2] eqn:Hp.
  assert (rp = Ok tt /\ fs w2 = fs w1 /\ stats w2 = stats w1)
    as (-> & Hfs2 & Hst2).
  { destruct cb as [f|]; cbn in Hp; by injection Hp as <- <-. }
  unfold bind at 1.
  assert (forall i file_path,
            file_paths !! i = Some file_path ->
            exists result,
              slots !! i = Some result /\ names_path P file_path result)
    as Hnames.
  { intros i file_path Hi.
    destruct (Hslots i file_path Hi) as (r & _ & _ & Hr & Hn & _).
    by exists r. }
  destruct cc as [f|].
  - unfold emits. eexists slots, w1, _. split; [reflexivity|].
    cbn [fs stats]. done.
  - exists slots, w1, w2. done.
Qed.

Lemma monotone_process_batch (file_paths : list string)
  (cb : option Callback) (cc : option PDFProcessor.Completion) :
  monotone (PDFProcessor.process_batch U P B language output_dir
              create_backups file_paths cb cc).
Proof.
  unfold PDFProcessor.process_batch.
  apply monotone_bind.
  - intros w.
    destruct (batch_loop_slots cb (length file_paths) file_paths 0%nat [] w)
      as (slots & w1 & Hloop & Hle & _).
    by rewrite Hloop.
  - intros results. mono.
Qed.

End Orchestration.

(** ** The success rate of a statistics snapshot *)

Section SuccessRate.

Lemma success_rate_of_counters (s : Stats) :
  0 <= files_processed s -> 0 <= errors s ->
  let p := files_processed s in
  let e := errors s in
  let rate := PDFProcessor.success_rate (PDFProcessor.get_stats s) in
  0 < Z.max (p + e) 1
  /\ (p + e = 0 -> (rate == 0)%Q)
  /\ (0 < p + e -> (rate == inject_Z p / inject_Z (p + e) * 100)%Q)
  /\ (0 <= rate)%Q /\ (rate <= 100)%Q.
Proof.
  intros Hp He p e rate. subst p e rate. cbn [PDFProcessor.get_stats
    PDFProcessor.success_rate].
  set (p := files_processed s) in *. set (e := errors s) in *.
  assert (Hd : 0 < Z.max (p + e) 1) by lia.
  assert (HdQ : (0 < inject_Z (Z.max (p + e) 1))%Q).
  { change 0%Q with (inject_Z 0). by rewrite <- Zlt_Qlt. }
  assert (Hlow : (0 <= inject_Z p / inject_Z (Z.max (p + e) 1))%Q).
  { apply Qle_shift_div_l; [exact HdQ|]. rewrite Qmult_0_l.
    change 0%Q with (inject_Z 0). by rewrite <- Zle_Qle. }
  assert (Hhigh : (inject_Z p / inject_Z (Z.max (p + e) 1) <= 1)%Q).
  { apply Qle_shift_div_r; [exact HdQ|]. rewrite Qmult_1_l.
    rewrite <- Zle_Qle. lia. }
  split; [exact Hd|]. split; [|split; [|split]].
  - intros H0. assert (p = 0) as -> by lia.
    unfold Qdiv. by rewrite !Qmult_0_l.
  - intros Hpos. by rewrite Z.max_l by lia.
  - apply Qmult_le_0_compat; [exact Hlow|discriminate].
  - eapply Qle_trans;
      [apply Qmult_le_compat_r; [exact Hhigh|discriminate]|].
    discriminate.
Qed.

Context (U : Unicode) (P : PathLib) (B : Backend).
Context (language : string) (output_dir : option string)
        (create_backups : bool).


End SuccessRate.


(** ** The processing decision *)

Section Decision.

Context (U : Unicode) (P : PathLib) (B : Backend).
Context (language : string) (output_dir : option string)
        (create_backups : bool).

Lemma analyze_pdf_processing_needed (min_text_length : Z) (files : FS)
  (pdf_path : string) :
  let a := PDFAnalyzer.analyze_pdf U min_text_length files pdf_path in
  PDFAnalyzer.success a = true ->
  exists has,
    PDFAnalyzer.has_text a = Some has
    /\ PDFAnalyzer.processing_needed a = Some (negb has).
Proof.
  intros a. subst a. unfold PDFAnalyzer.analyze_pdf.
  destruct (negb (path_exists files pdf_path)); [discriminate|].
  destruct (PDFAnalyzer.has_embedded_text U min_text_length files pdf_path)
    as [has n].
  intros _. by exists has.
Qed.

Lemma analyze_file_processing_needed (files : FS) (file_path : string) :
  let a := PDFProcessor.analyze_file U files file_path in
  PDFAnalyzer.success a = true ->
  exists has,
    PDFAnalyzer.has_text a = Some has
    /\ PDFAnalyzer.processing_needed a = Some (negb has).
Proof.
  intros a. subst a. unfold PDFProcessor.analyze_file.
  destruct (PDFAnalyzer.validate_pdf files file_path) as [[] message];
    cbn [negb]; [|discriminate].
  apply analyze_pdf_processing_needed.
Qed.

Ltac skip_bind := eapply yields_bind; [apply yields_any|intros ? _].

Lemma process_file_decision (input_path : string)
  (output_path : option string) (force_ocr : bool) (cb : option Callback) :
  yields
    (PDFProcessor.process_file U P B language output_dir create_backups
       input_path output_path force_ocr cb)
    (decision_recorded force_ocr).
Proof.
  unfold PDFProcessor.process_file.
  apply yields_try_except.
  2:{ intros e. do 2 skip_bind. apply yields_ret. intros ? [=]. }
  skip_bind. eapply yields_bind; [apply yields_any|intros files _].
  destruct (negb (path_exists files (path_str P input_path))).
  { apply yields_ret. intros ? [=]. }
  eapply yields_bind; [apply yields_any|intros out _].
  skip_bind. lazy zeta.
  destruct (negb (PDFAnalyzer.success
    (PDFProcessor.analyze_file U files input_path))) eqn:Hs.
  { apply yields_ret. intros ? [=]. }
  apply negb_false_iff in Hs.
  eapply yields_bind; [apply yields_any|intros backup _].
  skip_bind.
  eapply yields_bind; [apply yields_lookup_key|intros has Hhas].
  eapply yields_bind with (R := fun r =>
    PDFProcessor.analysis r
      = Some (PDFProcessor.analyze_file U files input_path)
    /\ PDFProcessor.processing_type r
       = if negb has || force_ocr then Some PDFProcessor.ocr_applied
         else if PDFProcessor.success r then Some PDFProcessor.copy_only
         else None).
  - unfold PDFProcessor.needs_ocr. destruct (negb has || force_ocr).
    + skip_bind. eapply yields_bind; [apply yields_any|intros ocr _].
      skip_bind. apply yields_ret. by split.
    + skip_bind. apply yields_try_except.
      * do 2 skip_bind. eapply yields_bind; [apply yields_any|intros fs' _].
        do 2 skip_bind. apply yields_ret. by split.
      * intros e. apply yields_ret. by split.
  - intros r [Ha Ht]. skip_bind. apply yields_ret.
    intros an Heq. rewrite Ha in Heq. injection Heq as <-.
    destruct (analyze_file_processing_needed files input_path Hs)
      as (has' & Hhas' & Hneeded).
    exists has. rewrite Hhas in Hhas'. injection Hhas' as <-.
    by rewrite Hhas.
Qed.


Lemma process_file_needs_ocr (input_path : string)
  (output_path : option string) (force_ocr : bool) (cb : option Callback)
  (w w' : World) (r : PDFProcessor.ProcessingResult)
  (a : PDFAnalyzer.Analysis) :
  PDFProcessor.process_file U P B language output_dir create_backups
    input_path output_path force_ocr cb w = (Ok r, w') ->
  PDFProcessor.analysis r = Some a ->
  exists has,
    PDFAnalyzer.success a = true
    /\ PDFAnalyzer.has_text a = Some has
    /\ PDFAnalyzer.processing_needed a = Some (negb has)
    /\ (PDFProcessor.processing_type r = Some PDFProcessor.ocr_applied
        <-> negb has || force_ocr = true)
    /\ (PDFProcessor.processing_type r = Some PDFProcessor.copy_only
        -> negb has || force_ocr = false)
    /\ (force_ocr = false ->
        PDFAnalyzer.processing_needed a = Some (negb has || force_ocr)).
Proof.
  intros Hrun Ha.
  destruct (process_file_decision input_path output_path force_ocr cb
    w r w' Hrun a Ha) as (has & Hok & Hhas & Hneeded & Htype).
  exists has.
  split; [exact Hok|]. split; [exact Hhas|]. split; [exact Hneeded|].
  rewrite Htype. repeat split.
  - destruct (negb has || force_ocr); [done|].
    destruct (PDFProcessor.success r); discriminate.
  - by intros ->.
  - destruct (negb has || force_ocr); [discriminate|done].
  - intros ->. by rewrite orb_false_r.
Qed.

(** C2, amended. The field [processing_needed] of a successful analysis is
    [not has_embedded_text]: [analyze_pdf] has no [force_ocr] to look at.
    The decision [needs_ocr] of [process_file] is [not has_embedded_text or
    force_ocr]: whenever [process_file] got as far as the decision (its
    result carries the analysis), the strategy is [ocr_applied] exactly when
    that predicate holds and [copy_only] only when it does not. The field
    and the decision agree when [force_ocr] is false. *)
Theorem processing_decision :
  (forall has force_ocr,
     PDFProcessor.needs_ocr has force_ocr = negb has || force_ocr)
  /\ (forall min_text_length files pdf_path,
        let a := PDFAnalyzer.analyze_pdf U min_text_length files pdf_path in
        PDFAnalyzer.success a = true ->
        exists has,
          PDFAnalyzer.has_text a = Some has
          /\ PDFAnalyzer.processing_needed a = Some (negb has))
  /\ (forall input_path output_path force_ocr cb w w' r a,
        PDFProcessor.process_file U P B language output_dir create_backups
          input_path output_path force_ocr cb w = (Ok r, w') ->
        PDFProcessor.analysis r = Some a ->
        exists has,
          PDFAnalyzer.success a = true
          /\ PDFAnalyzer.has_text a = Some has
          /\ PDFAnalyzer.processing_needed a = Some (negb has)
          /\ (PDFProcessor.processing_type r = Some PDFProcessor.ocr_applied
              <-> negb has || force_ocr = true)
          /\ (PDFProcessor.processing_type r = Some PDFProcessor.copy_only
              -> negb has || force_ocr = false)
          /\ (force_ocr = false ->
              PDFAnalyzer.processing_needed a
              = Some (negb has || force_ocr))).
Proof.
  split; [reflexivity|]. split.
  - apply analyze_pdf_processing_needed.
  - apply process_file_needs_ocr.
Qed.

End Decision.

(** ** Output names ([generate_output_filename]) *)

Section OutputNames.

Lemma string_length_app (s t : string) :
  String.length (s +:+ t) = (String.length s + String.length t)%nat.
Proof. induction s as [|c s IH]; simpl; [done|by f_equal]. Qed.

Lemma string_app_inv_tail (s1 s2 t : string) :
  s1 +:+ t = s2 +:+ t -> s1 = s2.
Proof.
  revert s2. induction s1 as [|c s1 IH]; intros [|c' s2] H.
  - done.
  - apply (f_equal String.length) in H.
    rewrite !string_length_app in H. simpl in H. lia.
  - apply (f_equal String.length) in H.
    rewrite !string_length_app in H. simpl in H. lia.
  - simpl in H. injection H as -> H. f_equal. by apply IH.
Qed.

Context (P : PathLib).
Hypothesis join_inj : forall d n1 n2, join P d n1 = join P d n2 -> n1 = n2.

Context (input_path : string) (output_dir : option string)
        (suffix : string).

Abbreviation candidate := (Utils.nth_candidate P input_path output_dir suffix).

Lemma candidate_inj (j k : nat) :
  candidate (S j) = candidate (S k) -> j = k.
Proof.
  unfold Utils.nth_candidate, Utils.unique_path. intros H.
  apply join_inj in H.
  apply (inj (String.append _)) in H.
  apply (inj (String.append _)) in H.
  apply string_app_inv_tail in H.
  apply (inj pretty) in H. by injection H.
Qed.

(** Among the first [size files + 1] numbered names one is free. *)
Lemma numbered_candidate_free (files : FS) :
  exists k, (k <= S (size files))%nat
            /\ path_exists files (candidate k) = false.
Proof.
  destruct (decide (Forall (fun k => path_exists files (candidate k) = true)
                      (seq 1 (S (size files))))) as [Hall|Hex].
  - exfalso.
    set (names := candidate <$> seq 1 (S (size files))).
    assert (Hnodup : NoDup names).
    { apply NoDup_fmap_2_strong; [|apply NoDup_seq].
      intros j k Hj Hk Heq. apply elem_of_seq in Hj, Hk.
      destruct j as [|j]; [lia|]. destruct k as [|k]; [lia|].
      f_equal. by apply candidate_inj. }
    assert (Hsub : (list_to_set names : gset string) ⊆ dom files).
    { intros x Hx. apply elem_of_list_to_set in Hx.
      apply list_elem_of_fmap in Hx as (k & -> & Hk).
      rewrite Forall_forall in Hall. specialize (Hall k Hk).
      unfold path_exists in Hall. apply elem_of_dom.
      destruct (files !! candidate k); [by eexists|discriminate]. }
    apply subseteq_size in Hsub.
    rewrite size_list_to_set, size_dom in Hsub by done.
    unfold names in Hsub. rewrite length_fmap, length_seq in Hsub. lia.
  - apply (not_Forall_Exists _), Exists_exists in Hex.
    destruct Hex as (k & Hk & Hfree). cbn in Hfree.
    apply elem_of_seq in Hk. exists k. split; [lia|].
    by destruct (path_exists files (candidate k)).
Qed.

(** The first free name, counting from the name without a number. *)
Lemma first_free_candidate (files : FS) :
  exists k, (k <= S (size files))%nat
            /\ path_exists files (candidate k) = false
            /\ forall j, (j < k)%nat -> path_exists files (candidate j) = true.
Proof.
  destruct (numbered_candidate_free files) as (k0 & Hk0 & Hfree0).
  revert Hk0 Hfree0. induction k0 as [k0 IH] using lt_wf_ind.
  intros Hk0 Hfree0.
  destruct (decide (Forall (fun j => path_exists files (candidate j) = true)
                      (seq 0 k0))) as [Hall|Hex].
  - exists k0. split; [done|]. split; [done|].
    intros j Hj. rewrite Forall_forall in Hall. apply Hall.
    apply elem_of_seq. lia.
  - apply (not_Forall_Exists _), Exists_exists in Hex.
    destruct Hex as (j & Hj & Hfree). cbn in Hfree.
    apply elem_of_seq in Hj.
    apply (IH j); [lia|lia|].
    by destruct (path_exists files (candidate j)).
Qed.

Lemma unique_loop_finds (files : FS) :
  forall d c fuel,
    (forall j, (c <= j < c + d)%nat ->
               path_exists files (candidate j) = true) ->
    path_exists files (candidate (c + d)) = false ->
    (d < fuel)%nat ->
    Utils.unique_loop P files
      (match output_dir with
       | Some dir => dir
       | None => path_parent P input_path
       end)
      (path_stem P input_path +:+ suffix) (path_suffix P input_path)
      fuel (candidate c) (c + 1)
    = Some (candidate (c + d)).
Proof.
  induction d as [|d IH]; intros c fuel Hbusy Hfree Hfuel.
  - destruct fuel as [|fuel]; [lia|]. cbn [Utils.unique_loop].
    rewrite Nat.add_0_r in Hfree |- *. by rewrite Hfree.
  - destruct fuel as [|fuel]; [lia|]. cbn [Utils.unique_loop].
    rewrite (Hbusy c) by lia.
    replace (c + S d)%nat with (S c + d)%nat in * by lia.
    replace (c + 1)%nat with (S c) by lia.
    rewrite <- (IH (S c) fuel); [|intros j Hj; apply Hbusy; lia|done|lia].
    by replace (S c + 1)%nat with (S c + 1)%nat by lia.
Qed.

Lemma generate_output_filename_first_free (files : FS) :
  exists k,
    Utils.generate_output_filename P files input_path output_dir suffix
    = Some (candidate k)
    /\ path_exists files (candidate k) = false
    /\ forall j, (j < k)%nat -> path_exists files (candidate j) = true.
Proof.
  destruct (first_free_candidate files) as (k & Hk & Hfree & Hbusy).
  exists k. split; [|done].
  unfold Utils.generate_output_filename.
  pose proof (unique_loop_finds files k 0%nat (S (S (size files)))) as H.
  cbn [Nat.add] in H. apply H; [|done|lia].
  intros j Hj. apply Hbusy. lia.
Qed.

(** C9. With joins that keep different names apart,
    [generate_output_filename] returns a path that does not exist; a second
    call on the unchanged filesystem returns the same path; and once a file
    exists at the returned path, the next call returns the name with a
    numeric suffix that is larger than the one returned before, does not
    exist, and is the first such. *)
Theorem generate_output_filename_increments (files : FS) :
  exists k,
    Utils.generate_output_filename P files input_path output_dir suffix
    = Some (candidate k)
    /\ path_exists files (candidate k) = false
    /\ (forall p1 p2,
          Utils.generate_output_filename P files input_path output_dir
            suffix = Some p1 ->
          Utils.generate_output_filename P files input_path output_dir
            suffix = Some p2 ->
          p1 = p2)
    /\ forall written : File,
         let files' := <[candidate k := written]> files in
         exists k',
           (k < k')%nat
           /\ Utils.generate_output_filename P files' input_path output_dir
                suffix
              = Some (Utils.unique_path P
                        (match output_dir with
                         | Some dir => dir
                         | None => path_parent P input_path
                         end)
                        (path_stem P input_path +:+ suffix)
                        (path_suffix P input_path) k')
           /\ path_exists files' (candidate k') = false
           /\ forall j, (j < k')%nat ->
                        path_exists files' (candidate j) = true.
Proof.
  destruct (generate_output_filename_first_free files)
    as (k & Hgen & Hfree & Hbusy).
  exists k. split; [done|]. split; [done|]. split; [congruence|].
  intros written files'.
  destruct (generate_output_filename_first_free files')
    as (k' & Hgen' & Hfree' & Hbusy').
  assert (Hlt : (k < k')%nat).
  { destruct (decide (k < k')%nat) as [|Hge]; [done|]. exfalso.
    unfold path_exists, files' in Hfree'.
    destruct (decide (k' = k)) as [->|Hne].
    - by rewrite lookup_insert_eq in Hfree'.
    - specialize (Hbusy k' ltac:(lia)). unfold path_exists in Hbusy.
      rewrite lookup_insert in Hfree'.
      destruct (decide (candidate k = candidate k')); [done|].
      destruct (files !! candidate k'); discriminate. }
  exists k'. split; [done|]. split; [|done].
  rewrite Hgen'. destruct k' as [|k']; [lia|]. reflexivity.
Qed.

End OutputNames.

(** ** The fallback chain of [process_pdf] *)

Section FallbackChain.

Context (P : PathLib) (B : Backend) (language : string).

Lemma returns_tesseract_fallback (input_path output_path : string)
  (cb : option Callback) :
  returns (OCRProcessor._tesseract_fallback_ocr P B language input_path
             output_path cb).
Proof.
  unfold OCRProcessor._tesseract_fallback_ocr. apply returns_try_except.
  intros e. apply returns_ret.
Qed.

(** The nested handlers of [process_pdf] run the three strategies in
    order. *)
Lemma run_strategies_in_order (temp_input output_path : string)
  (cb : option Callback) (config : OCRProcessor.Config) (w : World) :
  OCRProcessor.run_strategies P B language temp_input output_path cb config w
  = chain_result
      (in_order (strategies P B language output_path cb temp_input config)
         [] w).
Proof.
  unfold OCRProcessor.run_strategies, strategies, primary_strategy,
    secondary_strategy, tertiary_strategy, attempt.
  cbn [in_order]. unfold try_except, bind, ret, raise, chain_result.
  destruct (OCRProcessor.ocrmypdf B temp_input output_path
              (OCRProcessor.ocr_options language config) w)
    as [[[]|e1] w1]; [reflexivity|].
  destruct (returns_progress cb 40 w1) as ([] & w2 & ->).
  destruct (returns_tesseract_fallback temp_input output_path cb w2)
    as (ok & w3 & ->).
  destruct ok; [reflexivity|]. cbn [negb].
  destruct (returns_progress cb 50 w3) as ([] & w4 & ->).
  destruct (OCRProcessor.ocrmypdf B temp_input output_path
              (OCRProcessor.minimal_options language) w4)
    as [[[]|e3] w5]; reflexivity.
Qed.

Lemma library_calls_app (a b : list event) :
  library_calls (a ++ b) = library_calls a ++ library_calls b.
Proof. apply List.filter_app. Qed.

Lemma progress_shows_percentages (cb : option Callback) (q : Q) (w : World) :
  exists w',
    progress cb q w = (Ok tt, w')
    /\ fs w' = fs w
    /\ library_calls (log w') = library_calls (log w).
Proof.
  destruct cb as [f|]; cbn.
  - eexists. split; [reflexivity|]. split; [reflexivity|]. cbn.
    rewrite library_calls_app.
    assert (H : library_calls (Progress <$> f q) = []).
    { induction (f q) as [|x l IH]; [done|exact IH]. }
    by rewrite H, app_nil_r.
  - by exists w.
Qed.

Lemma progress_stats (cb : option Callback) (q : Q) (w w' : World)
  (r : result unit) :
  progress cb q w = (r, w') -> stats w' = stats w.
Proof. destruct cb as [f|]; cbn; by intros [= _ <-]. Qed.

(** One call of OCRmyPDF as a strategy: the call is made with the given
    options, and the strategy fails exactly when the call raises. *)
Lemma attempt_ocrmypdf (temp_input output_path : string)
  (options : OcrOptions) (w : World) :
  exists w',
    attempt (OCRProcessor.ocrmypdf B temp_input output_path options) w
    = (Ok match fst (ocrmypdf_ocr B temp_input output_path options (fs w))
          with
          | Ok _ => None
          | Raise e => Some e
          end, w')
    /\ fs w' = snd (ocrmypdf_ocr B temp_input output_path options (fs w))
    /\ library_calls (log w')
       = library_calls (log w) ++ [OcrMyPdf temp_input output_path options].
Proof.
  unfold attempt, OCRProcessor.ocrmypdf, try_except, bind, emit, lift_fs, ret.
  cbn [fs stats log].
  destruct (ocrmypdf_ocr B temp_input output_path options (fs w))
    as [[[]|e] files]; eexists; (split; [reflexivity|]);
    (split; [reflexivity|]); cbn [log fst snd];
    by rewrite library_calls_app.
Qed.

Lemma bind_run {A B'} (m : M A) (k : A -> M B') (w w1 : World) (a : A) :
  m w = (Ok a, w1) -> bind m k w = k a w1.
Proof. intros H. unfold bind. by rewrite H. Qed.

Lemma bind_run_raise {A B'} (m : M A) (k : A -> M B') (w w1 : World)
  (e : string) :
  m w = (Raise e, w1) -> bind m k w = (Raise e, w1).
Proof. intros H. unfold bind. by rewrite H. Qed.

Lemma lift_fs_run {A} (f : Effect A) (w : World) (r : result A)
  (files : FS) :
  f (fs w) = (r, files) ->
  lift_fs f w = (r, {| fs := files; stats := stats w; log := log w |}).
Proof. intros H. unfold lift_fs. by rewrite H. Qed.

(** What the loop does with one rasterized page: Tesseract is run, and the
    page's PDF is collected when Tesseract exits with code 0 and has left
    it; the loop goes on whatever Tesseract did. *)
Lemma tesseract_step (temp_dir : string) (page_num : nat)
  (ocr_results : list string) (w : World) (answer : result Z)
  (files2 : FS) :
  run_tesseract B (OCRProcessor.page_png P temp_dir page_num)
    (OCRProcessor.page_base P temp_dir page_num) language (fs w)
  = (answer, files2) ->
  try_except
    (bind (emit (Tesseract page_num language)) (fun _ =>
     bind (lift_fs (run_tesseract B
                      (OCRProcessor.page_png P temp_dir page_num)
                      (OCRProcessor.page_base P temp_dir page_num)
                      language)) (fun returncode =>
     if Z.eqb returncode 0 then
       bind get_fs (fun files =>
       if path_exists files (OCRProcessor.page_pdf P temp_dir page_num)
       then ret (ocr_results
                 ++ [OCRProcessor.page_pdf P temp_dir page_num])
       else ret ocr_results)
     else ret ocr_results)))
    (fun _ => ret ocr_results) w
  = (Ok (ocr_results
         ++ match answer with
            | Ok returncode =>
                if Z.eqb returncode 0
                   && path_exists files2
                        (OCRProcessor.page_pdf P temp_dir page_num)
                then [OCRProcessor.page_pdf P temp_dir page_num] else []
            | Raise _ => []
            end),
     {| fs := files2; stats := stats w;
        log := log w ++ [Tesseract page_num language] |}).
Proof.
  intros Hrun. unfold try_except, bind, emit, lift_fs, get_fs, ret.
  cbn [fs stats log]. rewrite Hrun.
  destruct answer as [rc|e]; [|by rewrite app_nil_r].
  destruct (Z.eqb rc 0); cbn [andb fs]; [|by rewrite app_nil_r].
  destruct (path_exists files2 _); [done|by rewrite app_nil_r].
Qed.

(** The page loop of the second strategy does what the specification
    says of the page-by-page pass, and calls the libraries page by page. *)
Lemma fallback_pages_recognises (input_path : string) (cb : option Callback)
  (temp_dir : string) (total : nat) :
  forall page_nums ocr_results w,
    exists w',
      OCRProcessor.fallback_pages P B language input_path cb temp_dir total
        page_nums ocr_results w
      = (match fst (recognise_pages P B language input_path temp_dir
                      page_nums (fs w)) with
         | Ok more => Ok (ocr_results ++ more)
         | Raise e => Raise e
         end, w')
      /\ fs w'
         = snd (recognise_pages P B language input_path temp_dir page_nums
                  (fs w))
      /\ stats w' = stats w
      /\ (forall more,
            fst (recognise_pages P B language input_path temp_dir page_nums
                   (fs w)) = Ok more ->
            library_calls (log w')
            = library_calls (log w)
              ++ flat_map (fun i => [GetPixmap i 2 2; Tesseract i language])
                   page_nums).
Proof.
  induction page_nums as [|page_num rest IH]; intros ocr_results w.
  - exists w. cbn. by rewrite !app_nil_r.
  - cbn [OCRProcessor.fallback_pages recognise_pages].
    destruct (progress_shows_percentages cb
      (OCRProcessor.page_progress page_num total) w)
      as (w0 & Hp & Hfs0 & Hlog0).
    pose proof (progress_stats _ _ _ _ _ Hp) as Hst0.
    rewrite (bind_run _ _ _ _ _ Hp).
    erewrite bind_run; [|reflexivity].
    destruct (get_pixmap B input_path page_num 2 2
                (OCRProcessor.page_png P temp_dir page_num) (fs w))
      as [[[]|e] files1] eqn:Hpix.
    2:{ erewrite bind_run_raise;
          [|apply lift_fs_run; cbn [fs]; rewrite Hfs0; exact Hpix].
        eexists. split; [reflexivity|]. split; [reflexivity|].
        split; [exact Hst0|]. done. }
    erewrite bind_run;
      [|apply lift_fs_run; cbn [fs]; rewrite Hfs0; exact Hpix].
    destruct (run_tesseract B (OCRProcessor.page_png P temp_dir page_num)
                (OCRProcessor.page_base P temp_dir page_num) language files1)
      as [answer files2] eqn:Htess.
    erewrite bind_run; [|apply tesseract_step; cbn [fs]; exact Htess].
    cbn [fs stats log].
    match goal with
    | |- context [OCRProcessor.fallback_pages _ _ _ _ _ _ _ rest ?acc ?w2] =>
        destruct (IH acc w2) as (w' & Hrun & Hfs & Hst & Hlog)
    end.
    cbn [fs stats log] in Hrun, Hfs, Hst, Hlog.
    exists w'. rewrite Hrun.
    destruct (recognise_pages P B language input_path temp_dir rest files2)
      as [[more|e] files3]; cbn [fst snd] in *.
    + split; [by rewrite <- app_assoc|]. split; [exact Hfs|].
      split; [by rewrite Hst|].
      intros more' _. rewrite (Hlog more eq_refl).
      rewrite !library_calls_app, Hlog0. cbn. by rewrite <- !app_assoc.
    + split; [done|]. split; [exact Hfs|]. split; [by rewrite Hst|].
      intros more' [=].
Qed.

(** The pages that the page-by-page pass collects are PDFs of pages of
    the document, in page order. *)
Lemma recognise_pages_in_order (input_path temp_dir : string) :
  forall page_nums files recognised files',
    recognise_pages P B language input_path temp_dir page_nums files
    = (Ok recognised, files') ->
    recognised `sublist_of` (OCRProcessor.page_pdf P temp_dir <$> page_nums).
Proof.
  induction page_nums as [|page_num rest IH];
    intros files recognised files'; cbn [recognise_pages].
  - intros [= <- _]. constructor.
  - destruct (get_pixmap B input_path page_num 2 2 _ files)
      as [[[]|e] files1]; [|done].
    destruct (run_tesseract B _ _ language files1) as [answer files2].
    destruct (recognise_pages P B language input_path temp_dir rest files2)
      as [[more|e] files3] eqn:Hrest; [|done].
    intros [= <- _]. specialize (IH _ _ _ Hrest). cbn [fmap list_fmap].
    destruct answer as [rc|e]; [|by apply sublist_cons].
    destruct (Z.eqb rc 0 && path_exists files2 _); cbn [app].
    + by apply sublist_skip.
    + by apply sublist_cons.
Qed.

(** The second strategy on a document whose pages all rasterize: the
    temporary directory is made, every page is rasterized at twice the
    resolution and given to Tesseract, in page order, the recognised pages
    are combined in that order, and the directory is removed after that.
    It succeeds exactly when a page was recognised and combining them did
    not raise. *)
Lemma tesseract_fallback_recognises (input_path output_path : string)
  (cb : option Callback) (w : World) (doc : Doc) (temp_dir : string)
  (files1 files2 : FS) (recognised : list string) :
  fallback_imports B = Ok tt ->
  open_doc (fs w) input_path = Ok doc ->
  mkdtemp B (fs w) = (Ok temp_dir, files1) ->
  recognise_pages P B language input_path temp_dir
    (seq 0 (length (doc_pages doc))) files1 = (Ok recognised, files2) ->
  let combined :=
    fst (write_combined B (List.filter (path_exists files2) recognised)
           output_path files2) in
  exists ok w',
    OCRProcessor._tesseract_fallback_ocr P B language input_path output_path
      cb w = (Ok ok, w')
    /\ library_calls (log w')
       = library_calls (log w)
         ++ [Mkdtemp]
         ++ flat_map (fun i => [GetPixmap i 2 2; Tesseract i language])
              (seq 0 (length (doc_pages doc)))
         ++ match recognised with
            | [] => []
            | _ =>
                CombinePdfs recognised output_path
                :: match combined with
                   | Ok _ => [Rmtree temp_dir]
                   | Raise _ => []
                   end
            end
    /\ (ok = true <-> recognised <> [] /\ combined = Ok tt).
Proof.
  intros Himports Hopen Htemp Hpages combined. subst combined.
  unfold OCRProcessor._tesseract_fallback_ocr, try_except.
  destruct (progress_shows_percentages cb 45 w) as (w0 & Hp & Hfs0 & Hlog0).
  set (w1 := {| fs := files1; stats := stats w0;
                log := log w0 ++ [Mkdtemp] |}).
  destruct (fallback_pages_recognises input_path cb temp_dir
    (length (doc_pages doc)) (seq 0 (length (doc_pages doc))) [] w1)
    as (w2 & Hrun & Hfs2 & _ & Hlog2).
  change (fs w1) with files1 in Hrun, Hfs2, Hlog2.
  rewrite Hpages in Hrun, Hfs2, Hlog2.
  cbn [fst snd] in Hrun, Hfs2, Hlog2. rewrite app_nil_l in Hrun.
  specialize (Hlog2 recognised eq_refl).
  destruct (progress_shows_percentages cb 85 w2) as (w3 & Hp3 & Hfs3 & Hlog3).
  assert (Hlog : library_calls (log w3)
                 = library_calls (log w) ++ [Mkdtemp]
                   ++ flat_map
                        (fun i => [GetPixmap i 2 2; Tesseract i language])
                        (seq 0 (length (doc_pages doc)))).
  { rewrite Hlog3, Hlog2. unfold w1. cbn [log].
    rewrite library_calls_app, Hlog0. by rewrite <- app_assoc. }
  unfold lift_result at 1. rewrite Himports.
  erewrite bind_run; [|reflexivity].
  rewrite (bind_run _ _ _ _ _ Hp).
  erewrite bind_run; [|reflexivity].
  unfold lift_result. rewrite Hfs0, Hopen.
  erewrite bind_run; [|reflexivity].
  erewrite bind_run; [|reflexivity].
  erewrite bind_run;
    [|apply lift_fs_run; cbn [fs]; rewrite Hfs0; exact Htemp].
  cbn [fs stats log]. fold w1. lazy zeta.
  rewrite (bind_run _ _ _ _ _ Hrun).
  rewrite (bind_run _ _ _ _ _ Hp3).
  destruct recognised as [|page rest].
  - eexists false, w3. split; [reflexivity|]. rewrite app_nil_r.
    split; [exact Hlog|]. split; [done|]. by intros [? _].
  - unfold OCRProcessor._combine_pdfs.
    unfold bind, emit, get_fs, lift_fs, ret. cbn [fs stats log].
    rewrite Hfs3, Hfs2.
    destruct (write_combined B
                (List.filter (path_exists files2) (page :: rest))
                output_path files2) as [[[]|e] files'].
    + eexists true, _. split; [reflexivity|]. cbn [log fst].
      split.
      * rewrite !library_calls_app, Hlog. cbn. by rewrite <- !app_assoc.
      * done.
    + eexists false, _. split; [reflexivity|]. cbn [log fst].
      split.
      * rewrite !library_calls_app, Hlog. cbn. by rewrite <- !app_assoc.
      * split; [done|]. by intros [_ ?].
Qed.

Lemma returns_attempt (m : M unit) : returns (attempt m).
Proof.
  unfold attempt. apply returns_try_except. intros e. apply returns_ret.
Qed.

(** The chain always ends, and it is exhausted only with the errors of the
    three strategies. *)
Lemma in_order_strategies (temp_input output_path : string)
  (cb : option Callback) (config : OCRProcessor.Config) (w : World) :
  exists outcome w',
    in_order (strategies P B language output_path cb temp_input config) [] w
    = (Ok outcome, w')
    /\ (outcome = Succeeded
        \/ exists e1 e2 e3, outcome = Exhausted [e1; e2; e3]).
Proof.
  unfold strategies. cbn [in_order]. unfold bind at 1.
  destruct (returns_attempt
    (OCRProcessor.ocrmypdf B temp_input output_path
       (OCRProcessor.ocr_options language config)) w) as (a1 & w1 & H1).
  unfold primary_strategy. rewrite H1.
  destruct a1 as [e1|]; [|eexists _, _; split; [reflexivity|by left]].
  unfold bind at 1. unfold secondary_strategy at 1. unfold bind at 1.
  destruct (returns_progress cb 40 w1) as ([] & wa & ->).
  unfold bind at 1.
  destruct (returns_tesseract_fallback temp_input output_path cb wa)
    as (ok & w2 & ->).
  unfold ret at 1.
  destruct ok; [eexists _, _; split; [reflexivity|by left]|].
  unfold bind at 1. unfold tertiary_strategy at 1. unfold bind at 1.
  destruct (returns_progress cb 50 w2) as ([] & wb & ->).
  destruct (returns_attempt
    (OCRProcessor.ocrmypdf B temp_input output_path
       (OCRProcessor.minimal_options language)) wb) as (a3 & w3 & ->).
  destruct a3 as [e3|]; eexists _, _; (split; [reflexivity|]);
    [right; by eexists _, _, _|by left].
Qed.

Lemma bind_assoc_at {A B' C} (m : M A) (f : A -> M B') (g : B' -> M C)
  (w : World) :
  bind (bind m f) g w = bind m (fun a => bind (f a) g) w.
Proof. unfold bind. by destruct (m w) as [[a|e] w']. Qed.

Lemma bind_congr {A B'} (m : M A) (f g : A -> M B') (w : World) :
  (forall a w', f a w' = g a w') -> bind m f w = bind m g w.
Proof. intros H. unfold bind. destruct (m w) as [[a|e] w']; [apply H|done]. Qed.

Lemma try_except_congr {A} (m m' : M A) (h h' : string -> M A)
  (w : World) :
  m w = m' w -> (forall e w', h e w' = h' e w') ->
  try_except m h w = try_except m' h' w.
Proof.
  intros Hm Hh. unfold try_except. rewrite Hm.
  destruct (m' w) as [[a|e] w']; [done|apply Hh].
Qed.

(** [process_pdf] on an input that exists: what comes before the
    strategies, the strategies, what comes after them, and the handler of
    the exceptions of all that. *)
Lemma process_pdf_steps (input_path output_path : string)
  (cb : option Callback) (config : option OCRProcessor.Config) (w : World) :
  path_exists (fs w) input_path = true ->
  OCRProcessor.process_pdf P B language input_path output_path cb config w
  = try_except
      (bind (before_strategies P B input_path output_path cb)
         (fun temp_input =>
            bind (OCRProcessor.run_strategies P B language temp_input
                    output_path cb
                    (OCRProcessor.get config OCRProcessor.default_config))
              (fun _ => after_strategies B input_path output_path cb
                          temp_input)))
      (failed input_path output_path cb) w.
Proof.
  intros Hex. unfold OCRProcessor.process_pdf.
  apply try_except_congr; [|reflexivity].
  erewrite bind_run; [|reflexivity]. rewrite Hex. cbn [negb]. lazy zeta.
  symmetry. unfold before_strategies.
  rewrite bind_assoc_at. erewrite bind_run; [|reflexivity]. lazy zeta.
  rewrite bind_assoc_at. apply bind_congr. intros _ w1.
  rewrite bind_assoc_at. apply bind_congr. intros _ w2.
  rewrite bind_assoc_at. apply bind_congr. intros temp_input w3.
  rewrite bind_assoc_at. apply bind_congr. intros _ w4.
  rewrite bind_assoc_at. apply bind_congr. intros _ w5.
  reflexivity.
Qed.

Lemma after_strategies_result (input_path output_path : string)
  (cb : option Callback) (temp_input : string) (w : World) :
  exists r w',
    after_strategies B input_path output_path cb temp_input w = (Ok r, w')
    /\ OCRProcessor.success r = path_exists (fs w') output_path.
Proof.
  unfold after_strategies. unfold bind at 1, get_fs. unfold bind at 1.
  assert (exists w1,
            (if negb (String.eqb temp_input input_path)
                && path_exists (fs w) temp_input
             then try_except
                    (bind (emit (Unlink temp_input)) (fun _ =>
                     lift_fs (os_unlink B temp_input)))
                    (fun _ => ret tt)
             else ret tt) w = (Ok tt, w1)) as [w1 ->].
  { destruct (negb (String.eqb temp_input input_path)
              && path_exists (fs w) temp_input); [|by eexists].
    unfold try_except, bind, emit, lift_fs, ret. cbn [fs stats log].
    destruct (os_unlink B temp_input (fs w)) as [[[]|e] files];
      by eexists. }
  unfold bind at 1.
  destruct (progress_shows_percentages cb 90 w1) as (w2 & -> & Hfs2 & _).
  unfold bind at 1.
  destruct (path_exists (fs w2) output_path) eqn:Hout.
  - unfold bind at 1.
    destruct (progress_shows_percentages cb 100 w2) as (w3 & -> & Hfs3 & _).
    eexists _, w3. split; [reflexivity|]. cbn. by rewrite Hfs3, Hout.
  - eexists _, w2. split; [reflexivity|]. cbn. by rewrite Hout.
Qed.


End FallbackChain.

(** ** Concrete runs *)

Lemma processing_decision_witness :
  exists r w',
    PDFProcessor.process_file Examples.ascii_unicode Examples.posix
      Examples.working_backend "spa" None true "/in/text.pdf" None true None
      (Examples.start Examples.text_fs) = (Ok r, w')
    /\ PDFProcessor.processing_type r = Some PDFProcessor.ocr_applied.
Proof.
  eexists _, _. split; [vm_compute; reflexivity|].
  destruct (processing_decision Examples.ascii_unicode Examples.posix
    Examples.working_backend "spa" None true) as (_ & _ & Hfile).
  edestruct (Hfile "/in/text.pdf" None true None
    (Examples.start Examples.text_fs))
    as (has & _ & _ & _ & Htype & _).
  - vm_compute. reflexivity.
  - reflexivity.
  - apply Htype. apply orb_true_r.
Defined.

(** C2, as the specification states it, fails for the analysis field: with
    [force_ocr] on a document that has text, [process_file] applies OCR
    while the analysis it carries says [processing_needed = False]. *)
Lemma processing_needed_counterexample :
  exists r w' a,
    PDFProcessor.process_file Examples.ascii_unicode Examples.posix
      Examples.working_backend "spa" None true "/in/text.pdf" None true None
      (Examples.start Examples.text_fs) = (Ok r, w')
    /\ PDFProcessor.analysis r = Some a
    /\ PDFAnalyzer.success a = true
    /\ PDFAnalyzer.has_text a = Some true
    /\ PDFProcessor.processing_type r = Some PDFProcessor.ocr_applied
    /\ PDFAnalyzer.processing_needed a = Some false
    /\ PDFAnalyzer.processing_needed a <> Some (negb true || true).
Proof.
  eexists _, _, _. split; [vm_compute; reflexivity|].
  split; [reflexivity|]. vm_compute. repeat split. discriminate.
Qed.

Lemma posix_join_inj (d n1 n2 : string) :
  join Examples.posix d n1 = join Examples.posix d n2 -> n1 = n2.
Proof.
  cbn. intros H. apply (inj (String.append _)) in H.
  by apply (inj (String.append _)) in H.
Qed.

Lemma generate_output_filename_increments_witness :
  exists k,
    Utils.generate_output_filename Examples.posix Examples.taken_fs
      "/in/report.pdf" None "_processed"
    = Some (Utils.nth_candidate Examples.posix "/in/report.pdf" None
              "_processed" k)
    /\ path_exists Examples.taken_fs
         (Utils.nth_candidate Examples.posix "/in/report.pdf" None
            "_processed" k) = false.
Proof.
  destruct (generate_output_filename_increments Examples.posix
    posix_join_inj "/in/report.pdf" None "_processed" Examples.taken_fs)
    as (k & Hgen & Hfree & _).
  exists k. split; [exact Hgen|exact Hfree].
Defined.

Example generate_output_filename_taken :
  Utils.generate_output_filename Examples.posix Examples.taken_fs
    "/in/report.pdf" None "_processed"
  = Some "/in/report_processed_1.pdf".
Proof. vm_compute. reflexivity. Qed.



(** C6 at an input on which the program misses it: a one-page scan on which
    the three strategies fail. The callback is shown 85 by the second
    strategy and then 50 by the third. Every percentage other than the
    sentinel lies between 0 and 100. *)
Theorem progress_falls_from_85_to_50 :
  let run :=
    OCRProcessor.process_pdf Examples.posix Examples.failing_ocr_backend
      "spa" "/in/scan.pdf" "/out/scan_processed.pdf"
      (Some record_progress) None (Examples.start Examples.scan_fs) in
  let shown := Examples.percentages (log (snd run)) in
  shown = [0; 5; 10; 20; 40; 45; 45; 85; 50; -1]%Q
  /\ Examples.non_decreasing (Examples.without_sentinel shown) = false
  /\ forallb Examples.in_range (Examples.without_sentinel shown) = true.
Proof.
  vm_compute. repeat split.
Qed.

(** * Further properties of the analyzer *)

Section AnalyzerFurther.

Context (U : Unicode).

Lemma lower_app (a b : string) :
  PDFAnalyzer.lower (a +:+ b) = PDFAnalyzer.lower a +:+ PDFAnalyzer.lower b.
Proof. induction a as [|c a IH]; simpl; [done|by rewrite IH]. Qed.

Lemma endswith_suffix (s suffix : string) :
  PDFAnalyzer.endswith s suffix = true <-> exists a, s = a +:+ suffix.
Proof.
  split.
  - induction s as [|c s IH]; cbn [PDFAnalyzer.endswith].
    + destruct (String.eqb_spec "" suffix) as [<-|]; [|done].
      intros _. by exists "".
    + destruct (String.eqb_spec (String c s) suffix) as [<-|].
      * intros _. by exists "".
      * intros H. destruct (IH H) as [a ->]. by exists (String c a).
  - intros [a ->]. induction a as [|c a IH].
    + change (PDFAnalyzer.endswith suffix suffix = true).
      destruct suffix; cbn [PDFAnalyzer.endswith];
        by rewrite ?String.eqb_refl.
    + change (String c a +:+ suffix) with (String c (a +:+ suffix)).
      cbn [PDFAnalyzer.endswith]. rewrite IH.
      by destruct (String.eqb _ _).
Qed.

Lemma endswith_lower (p suffix : string) :
  PDFAnalyzer.endswith (PDFAnalyzer.lower p) suffix = true
  <-> exists a b, p = a +:+ b /\ PDFAnalyzer.lower b = suffix.
Proof.
  split.
  - induction p as [|c p IH]; cbn [PDFAnalyzer.endswith PDFAnalyzer.lower].
    + destruct (String.eqb_spec "" suffix) as [<-|]; [|done].
      intros _. by exists "", "".
    + destruct (String.eqb_spec
        (String (PDFAnalyzer.lower_ascii c) (PDFAnalyzer.lower p)) suffix)
        as [<-|].
      * intros _. by exists "", (String c p).
      * intros H. destruct (IH H) as (a & b & -> & Hb).
        by exists (String c a), b.
  - intros (a & b & -> & <-). rewrite lower_app.
    apply endswith_suffix. by eexists.
Qed.

(** X1. [validate_pdf] accepts a path exactly when it exists, its name ends
    in [.pdf] in any mix of upper and lower case, PyMuPDF opens it, and the
    document has at least one page. *)
Theorem validate_pdf_accepts (files : FS) (pdf_path : string) :
  fst (PDFAnalyzer.validate_pdf files pdf_path) = true
  <-> path_exists files pdf_path = true
      /\ (exists stem ext,
            pdf_path = stem +:+ ext /\ PDFAnalyzer.lower ext = ".pdf")
      /\ exists doc, open_doc files pdf_path = Ok doc /\ doc_pages doc <> [].
Proof.
  unfold PDFAnalyzer.validate_pdf. rewrite <- endswith_lower.
  destruct (path_exists files pdf_path); cbn [negb fst];
    [|split; [done|by intros [? _]]].
  destruct (PDFAnalyzer.endswith (PDFAnalyzer.lower pdf_path) ".pdf");
    cbn [negb fst]; [|split; [done|by intros (_ & ? & _)]].
  destruct (open_doc files pdf_path) as [doc|e];
    [|split; [done|by intros (_ & _ & ? & ? & _)]].
  destruct (doc_pages doc) as [|page pages] eqn:Hpages; cbn.
  - split; [done|]. intros (_ & _ & doc' & [= <-] & Hne). congruence.
  - split; [|done]. intros _. repeat split. exists doc.
    split; [done|]. by rewrite Hpages.
Qed.

Lemma validate_pdf_exists (files : FS) (pdf_path : string) :
  fst (PDFAnalyzer.validate_pdf files pdf_path) = true ->
  path_exists files pdf_path = true.
Proof.
  unfold PDFAnalyzer.validate_pdf.
  by destruct (path_exists files pdf_path).
Qed.

(** X2. [analyze_file] succeeds exactly on the paths that [validate_pdf]
    accepts: once a path is validated the analysis never fails, whatever
    the pages contain. *)
Theorem analyze_file_succeeds_iff_valid (files : FS) (file_path : string) :
  PDFAnalyzer.success (PDFProcessor.analyze_file U files file_path) = true
  <-> fst (PDFAnalyzer.validate_pdf files file_path) = true.
Proof.
  unfold PDFProcessor.analyze_file.
  destruct (PDFAnalyzer.validate_pdf files file_path) as [valid message]
    eqn:Hv.
  destruct valid; cbn [negb fst]; [|done].
  split; [done|]. intros _.
  assert (Hex : path_exists files file_path = true).
  { apply validate_pdf_exists. by rewrite Hv. }
  unfold PDFAnalyzer.analyze_pdf. rewrite Hex. cbn [negb].
  by destruct (PDFAnalyzer.has_embedded_text U PDFProcessor.min_text_length
                 files file_path).
Qed.

Lemma pages_with_text_le (page_analysis : list PDFAnalyzer.PageInfo) :
  (PDFAnalyzer.pages_with_text page_analysis <= length page_analysis)%nat.
Proof.
  unfold PDFAnalyzer.pages_with_text.
  induction page_analysis as [|info rest IH]; [done|]. cbn.
  destruct (PDFAnalyzer.has_meaningful_text info); cbn; lia.
Qed.

(** X3. The text coverage computed from any page analysis is a percentage:
    it lies between 0 and 100, and it is 0 for the empty analysis. *)
Theorem text_coverage_is_percentage
  (page_analysis : list PDFAnalyzer.PageInfo) :
  (0 <= PDFAnalyzer._calculate_text_coverage page_analysis)%Q
  /\ (PDFAnalyzer._calculate_text_coverage page_analysis <= 100)%Q
  /\ PDFAnalyzer._calculate_text_coverage [] = 0%Q.
Proof.
  split; [|split; [|reflexivity]].
  - destruct page_analysis as [|info rest]; [discriminate|].
    unfold PDFAnalyzer._calculate_text_coverage.
    apply Qmult_le_0_compat; [|discriminate].
    apply Qle_shift_div_l.
    + change 0%Q with (inject_Z 0). rewrite <- Zlt_Qlt. cbn. lia.
    + rewrite Qmult_0_l. change 0%Q with (inject_Z 0).
      rewrite <- Zle_Qle. lia.
  - destruct page_analysis as [|info rest]; [discriminate|].
    unfold PDFAnalyzer._calculate_text_coverage.
    pose proof (pages_with_text_le (info :: rest)) as Hle.
    eapply Qle_trans; [apply Qmult_le_compat_r; [|discriminate]|].
    + apply Qle_shift_div_r.
      * change 0%Q with (inject_Z 0). rewrite <- Zlt_Qlt. cbn. lia.
      * rewrite Qmult_1_l. rewrite <- Zle_Qle. lia.
    + discriminate.
Qed.

Lemma analyze_pages_loop_numbers (pages : list Page) :
  forall k a acc r,
    PDFAnalyzer.analyze_pages_loop U pages (seq a k) acc = Ok r ->
    exists infos,
      r = acc ++ infos /\ length infos = k
      /\ forall j info, infos !! j = Some info ->
           PDFAnalyzer.page_number info = (a + j + 1)%nat
           /\ PDFAnalyzer.has_meaningful_text info
              = (20 <? PDFAnalyzer.text_length info)%nat.
Proof.
  induction k as [|k IH]; intros a acc r.
  - cbn. intros [= <-]. exists []. rewrite app_nil_r.
    split; [done|]. split; [done|]. intros j info Hj. done.
  - cbn [seq PDFAnalyzer.analyze_pages_loop].
    destruct (pages !! a) as [page|]; [|done].
    destruct (get_text page) as [text|e]; [|done].
    intros H. destruct (IH _ _ _ H) as (infos & -> & Hlen & Hnum).
    eexists (_ :: infos). rewrite <- app_assoc. split; [done|].
    split; [cbn; lia|].
    intros [|j] info Hj.
    + injection Hj as <-. cbn. split; [lia|done].
    + destruct (Hnum j info Hj) as [Hn Hm]. split; [lia|done].
Qed.

(** X4. [analyze_pages] answers all or nothing: either the empty list, or
    one entry for each of the first [min(max_pages, page_count)] pages. The
    entries are numbered from 1 in page order, and an entry has meaningful
    text exactly when its text length exceeds 20. *)
Theorem analyze_pages_all_or_nothing (files : FS) (pdf_path : string)
  (max_pages : nat) :
  let page_analysis := PDFAnalyzer.analyze_pages U files pdf_path max_pages in
  (page_analysis = []
   \/ exists doc,
        open_doc files pdf_path = Ok doc
        /\ length page_analysis
           = Nat.min max_pages (length (doc_pages doc)))
  /\ (length page_analysis <= max_pages)%nat
  /\ forall i info, page_analysis !! i = Some info ->
       PDFAnalyzer.page_number info = (i + 1)%nat
       /\ PDFAnalyzer.has_meaningful_text info
          = (20 <? PDFAnalyzer.text_length info)%nat.
Proof.
  intros page_analysis. subst page_analysis.
  unfold PDFAnalyzer.analyze_pages.
  destruct (open_doc files pdf_path) as [doc|e];
    [|split; [by left|split; [cbn; lia|done]]].
  destruct (PDFAnalyzer.analyze_pages_loop U (doc_pages doc)
    (seq 0 (Nat.min max_pages (length (doc_pages doc)))) []) as [r|e] eqn:E;
    [|split; [by left|split; [cbn; lia|done]]].
  destruct (analyze_pages_loop_numbers _ _ _ _ _ E)
    as (infos & -> & Hlen & Hnum).
  rewrite app_nil_l. split; [right; by exists doc|]. split; [lia|].
  intros i info Hi. destruct (Hnum i info Hi) as [Hn Hm]. split; [lia|done].
Qed.

End AnalyzerFurther.

(** * Further properties of the OCR engine *)

Section Inversion.

Lemma bind_Ok_inv {A B} (m : M A) (k : A -> M B) (w w' : World) (b : B) :
  bind m k w = (Ok b, w') ->
  exists a w1, m w = (Ok a, w1) /\ k a w1 = (Ok b, w').
Proof.
  unfold bind. destruct (m w) as [[a|e] w1]; [|discriminate].
  intros H. by exists a, w1.
Qed.

Lemma bind_inv {A B} (m : M A) (k : A -> M B) (w w' : World)
  (r : result B) :
  bind m k w = (r, w') ->
  (exists a w1, m w = (Ok a, w1) /\ k a w1 = (r, w'))
  \/ (exists e, m w = (Raise e, w') /\ r = Raise e).
Proof.
  unfold bind. destruct (m w) as [[a|e] w1].
  - intros H. left. by exists a, w1.
  - intros [= <- <-]. right. by exists e.
Qed.

Lemma try_except_inv {A} (m : M A) (h : string -> M A) (w w' : World)
  (r : result A) :
  try_except m h w = (r, w') ->
  (exists a, m w = (Ok a, w') /\ r = Ok a)
  \/ (exists e w1, m w = (Raise e, w1) /\ h e w1 = (r, w')).
Proof.
  unfold try_except. destruct (m w) as [[a|e] w1].
  - intros [= <- <-]. left. by exists a.
  - intros H. right. by exists e, w1.
Qed.

Lemma progress_run (cb : option Callback) (q : Q) (w w' : World)
  (r : result unit) :
  progress cb q w = (r, w') ->
  r = Ok tt /\ fs w' = fs w /\ stats w' = stats w.
Proof.
  destruct cb as [f|]; cbn; intros [= <- <-]; done.
Qed.

Lemma keeps_ret {A} (a : A) : keeps_stats (ret a).
Proof. by intros w. Qed.

Lemma keeps_raise {A} (e : string) : keeps_stats (@raise A e).
Proof. by intros w. Qed.

Lemma keeps_emit (e : event) : keeps_stats (emit e).
Proof. by intros w. Qed.

Lemma keeps_get_fs : keeps_stats get_fs.
Proof. by intros w. Qed.

Lemma keeps_lift_fs {A} (f : Effect A) : keeps_stats (lift_fs f).
Proof. intros w. unfold lift_fs. by destruct (f (fs w)). Qed.

Lemma keeps_lift_result {A} (r : result A) : keeps_stats (lift_result r).
Proof. by intros w. Qed.

Lemma keeps_progress (cb : option Callback) (q : Q) :
  keeps_stats (progress cb q).
Proof. intros w. by destruct cb. Qed.

Lemma keeps_bind {A B} (m : M A) (k : A -> M B) :
  keeps_stats m -> (forall a, keeps_stats (k a)) -> keeps_stats (bind m k).
Proof.
  intros Hm Hk w. unfold bind. specialize (Hm w).
  destruct (m w) as [[a|e] w1]; [|exact Hm].
  by rewrite Hk.
Qed.

Lemma keeps_try_except {A} (m : M A) (h : string -> M A) :
  keeps_stats m -> (forall e, keeps_stats (h e)) ->
  keeps_stats (try_except m h).
Proof.
  intros Hm Hh w. unfold try_except. specialize (Hm w).
  destruct (m w) as [[a|e] w1]; [exact Hm|].
  by rewrite Hh.
Qed.

End Inversion.

Create HintDb keeps.

#[local] Hint Resolve keeps_ret keeps_raise keeps_emit keeps_get_fs
  keeps_lift_fs keeps_lift_result keeps_progress : keeps.

Ltac keeps_step :=
  first
    [ solve [auto with keeps]
    | apply keeps_bind; [|intros ?]
    | apply keeps_try_except; [|intros ?]
    | progress lazy zeta
    | match goal with
      | |- keeps_stats (if ?b then _ else _) => destruct b
      | |- keeps_stats (match ?x with _ => _ end) => destruct x
      end ].

Ltac keeps := repeat keeps_step.

Section EngineFurther.

Context (P : PathLib) (B : Backend) (language : string).

Lemma keeps_fallback_pages (input_path : string) (cb : option Callback)
  (temp_dir : string) (total : nat) (page_nums : list nat) :
  forall ocr_results,
    keeps_stats (OCRProcessor.fallback_pages P B language input_path cb
                   temp_dir total page_nums ocr_results).
Proof.
  induction page_nums as [|page_num rest IH]; intros ocr_results;
    cbn [OCRProcessor.fallback_pages]; keeps.
Qed.

Lemma keeps_process_pdf (input_path output_path : string)
  (cb : option Callback) (config : option OCRProcessor.Config) :
  keeps_stats (OCRProcessor.process_pdf P B language input_path output_path
                 cb config).
Proof.
  unfold OCRProcessor.process_pdf, OCRProcessor.run_strategies,
    OCRProcessor._tesseract_fallback_ocr, OCRProcessor._handle_encrypted_pdf,
    OCRProcessor._combine_pdfs, OCRProcessor.ocrmypdf.
  keeps; apply keeps_fallback_pages.
Qed.

Lemma returns_process_pdf (input_path output_path : string)
  (cb : option Callback) (config : option OCRProcessor.Config) :
  returns (OCRProcessor.process_pdf P B language input_path output_path cb
             config).
Proof.
  unfold OCRProcessor.process_pdf. apply returns_try_except. intros e.
  apply returns_bind; [apply returns_progress|intros _]. apply returns_ret.
Qed.

(** X5. [_handle_encrypted_pdf] never raises. It answers the input path
    itself, or the path [temp_decrypted_<basename>] in the temporary
    directory; the latter only when the document opened, is encrypted,
    accepted the empty password and was saved decrypted. In every other
    case the filesystem is left as it was. *)
Theorem handle_encrypted_pdf_answer (input_path : string)
  (cb : option Callback) (w : World) :
  let temp_path :=
    join P (gettempdir P) ("temp_decrypted_" +:+ basename P input_path) in
  exists path w',
    OCRProcessor._handle_encrypted_pdf P B input_path cb w = (Ok path, w')
    /\ stats w' = stats w
    /\ (path = input_path
        /\ (fs w' = fs w
            \/ exists doc e,
                 open_doc (fs w) input_path = Ok doc
                 /\ fst (save_decrypted B input_path temp_path (fs w))
                    = Raise e)
        \/ path = temp_path
           /\ exists doc,
                open_doc (fs w) input_path = Ok doc
                /\ is_encrypted doc = true
                /\ authenticate_empty doc = true
                /\ save_decrypted B input_path temp_path (fs w)
                   = (Ok tt, fs w')).
Proof.
  intros temp_path. unfold OCRProcessor._handle_encrypted_pdf.
  unfold try_except, bind, get_fs, lift_result, lift_fs, ret, raise, emit.
  cbn [fs stats log].
  destruct (progress cb 5 w) as [r5 w5] eqn:H5.
  apply progress_run in H5 as (-> & Hfs5 & Hst5). rewrite Hfs5.
  destruct (open_doc (fs w) input_path) as [doc|e] eqn:Hopen.
  2:{ exists input_path, w5. split; [done|]. split; [done|]. left. auto. }
  destruct (is_encrypted doc) eqn:Henc; cbn [negb].
  2:{ exists input_path, w5. split; [done|]. split; [done|]. left. auto. }
  destruct (progress cb 7 w5) as [r7 w7] eqn:H7.
  apply progress_run in H7 as (-> & Hfs7 & Hst7).
  destruct (authenticate_empty doc) eqn:Hauth.
  2:{ exists input_path, w7. split; [done|]. split; [congruence|].
      left. split; [done|]. left. congruence. }
  rewrite Hfs7, Hfs5. fold temp_path.
  destruct (save_decrypted B input_path temp_path (fs w))
    as [[[]|e] files'] eqn:Hsave.
  - eexists temp_path, _. split; [reflexivity|]. cbn [stats fs].
    split; [congruence|]. right. split; [done|]. by exists doc.
  - eexists input_path, _. split; [reflexivity|]. cbn [stats fs].
    split; [congruence|]. left. split; [done|]. right. by exists doc, e.
Qed.

(** X6. [process_pdf] never raises and never touches the statistics. Its
    result is about the input path it was given. A result with
    [success = True] carries the output path, the output exists when the
    call returns, and [size_change] is the output size minus the input
    size; a result with [success = False] carries an error. *)
Theorem process_pdf_result (input_path output_path : string)
  (cb : option Callback) (config : option OCRProcessor.Config) (w : World) :
  exists r w',
    OCRProcessor.process_pdf P B language input_path output_path cb config w
    = (Ok r, w')
    /\ stats w' = stats w
    /\ OCRProcessor.input_path r = input_path
    /\ (OCRProcessor.success r = true ->
        OCRProcessor.error r = None
        /\ OCRProcessor.output_path r = Some output_path
        /\ path_exists (fs w') output_path = true
        /\ OCRProcessor.input_size r = Some (getsize (fs w') input_path)
        /\ OCRProcessor.output_size r = Some (getsize (fs w') output_path)
        /\ OCRProcessor.size_change r
           = Some (getsize (fs w') output_path
                   - getsize (fs w') input_path))
    /\ (OCRProcessor.success r = false ->
        exists e, OCRProcessor.error r = Some e).
Proof.
  destruct (returns_process_pdf input_path output_path cb config w)
    as (r & w' & Hrun).
  exists r, w'. split; [exact Hrun|].
  split.
  { pose proof (keeps_process_pdf input_path output_path cb config w) as H.
    by rewrite Hrun in H. }
  split; [by eapply process_pdf_names_input|].
  unfold OCRProcessor.process_pdf in Hrun.
  apply try_except_inv in Hrun as [(r' & Hbody & [= <-])|(e & w1 & _ & Hh)].
  2:{ apply bind_Ok_inv in Hh as ([] & w2 & _ & [= <- _]).
      split; [done|]. intros _. by eexists. }
  apply bind_Ok_inv in Hbody as (files & w1 & _ & Hbody).
  destruct (negb (path_exists files input_path)).
  { injection Hbody as <- _. split; [done|]. intros _. by eexists. }
  lazy zeta in Hbody.
  do 8 (apply bind_Ok_inv in Hbody as (? & ? & _ & Hbody)).
  apply bind_Ok_inv in Hbody as ([] & w90 & _ & Hbody).
  apply bind_Ok_inv in Hbody as (files' & w2 & [= <- <-] & Hbody).
  destruct (path_exists (fs w90) output_path) eqn:Hout.
  - apply bind_Ok_inv in Hbody as ([] & w3 & Hp & [= <- <-]).
    apply progress_run in Hp as (_ & Hfs & _).
    split; [|done]. intros _. cbn. rewrite Hfs. done.
  - injection Hbody as <- _. split; [done|]. intros _. by eexists.
Qed.

End EngineFurther.

Section LogAdds.

Context (I : event -> Prop).

Lemma adds_nothing {A} (m : M A) :
  (forall w, log (snd (m w)) = log w) -> log_adds I m.
Proof. intros H w. exists []. by rewrite H, app_nil_r. Qed.

Lemma adds_ret {A} (a : A) : log_adds I (ret a).
Proof. by apply adds_nothing. Qed.

Lemma adds_raise {A} (e : string) : log_adds I (@raise A e).
Proof. by apply adds_nothing. Qed.

Lemma adds_get_fs : log_adds I get_fs.
Proof. by apply adds_nothing. Qed.

Lemma adds_lift_fs {A} (f : Effect A) : log_adds I (lift_fs f).
Proof.
  apply adds_nothing. intros w. unfold lift_fs. by destruct (f (fs w)).
Qed.

Lemma adds_lift_result {A} (r : result A) : log_adds I (lift_result r).
Proof. by apply adds_nothing. Qed.

Lemma adds_emit (e : event) : I e -> log_adds I (emit e).
Proof. intros He w. exists [e]. split; [done|]. by constructor. Qed.

Lemma adds_progress (q : Q) :
  I (Progress q) -> log_adds I (progress (Some record_progress) q).
Proof. intros He w. exists [Progress q]. split; [done|]. by constructor. Qed.

Lemma adds_bind {A B} (m : M A) (k : A -> M B) :
  log_adds I m -> (forall a, log_adds I (k a)) -> log_adds I (bind m k).
Proof.
  intros Hm Hk w. unfold bind. destruct (Hm w) as (new1 & Hl1 & Hn1).
  destruct (m w) as [[a|e] w1]; cbn [snd] in *; [|by exists new1].
  destruct (Hk a w1) as (new2 & Hl2 & Hn2).
  exists (new1 ++ new2). rewrite Hl2, Hl1, app_assoc.
  split; [done|]. by apply Forall_app.
Qed.

Lemma adds_try_except {A} (m : M A) (h : string -> M A) :
  log_adds I m -> (forall e, log_adds I (h e)) ->
  log_adds I (try_except m h).
Proof.
  intros Hm Hh w. unfold try_except. destruct (Hm w) as (new1 & Hl1 & Hn1).
  destruct (m w) as [[a|e] w1]; cbn [snd] in *; [by exists new1|].
  destruct (Hh e w1) as (new2 & Hl2 & Hn2).
  exists (new1 ++ new2). rewrite Hl2, Hl1, app_assoc.
  split; [done|]. by apply Forall_app.
Qed.

End LogAdds.

Lemma percent_ok_constant (q : Q) :
  (0 <= q)%Q -> (q <= 100)%Q -> percent_ok (Progress q).
Proof. intros H0 H1. left. by split. Qed.

Lemma page_progress_range (page_num total : nat) :
  (page_num < total)%nat ->
  (45 <= OCRProcessor.page_progress page_num total)%Q
  /\ (OCRProcessor.page_progress page_num total <= 85)%Q.
Proof.
  intros Hlt. unfold OCRProcessor.page_progress.
  assert (Hn : (0 < inject_Z (Z.of_nat total))%Q).
  { change 0%Q with (inject_Z 0). rewrite <- Zlt_Qlt. lia. }
  assert (Hlow : (0 <= inject_Z (Z.of_nat page_num)
                       / inject_Z (Z.of_nat total))%Q).
  { apply Qle_shift_div_l; [exact Hn|]. rewrite Qmult_0_l.
    change 0%Q with (inject_Z 0). rewrite <- Zle_Qle. lia. }
  assert (Hhigh : (inject_Z (Z.of_nat page_num)
                   / inject_Z (Z.of_nat total) <= 1)%Q).
  { apply Qle_shift_div_r; [exact Hn|]. rewrite Qmult_1_l.
    rewrite <- Zle_Qle. lia. }
  split.
  - apply Qle_trans with (45 + 0 * 40)%Q; [discriminate|].
    apply Qplus_le_compat; [apply Qle_refl|].
    apply Qmult_le_compat_r; [exact Hlow|discriminate].
  - apply Qle_trans with (45 + 1 * 40)%Q; [|discriminate].
    apply Qplus_le_compat; [apply Qle_refl|].
    apply Qmult_le_compat_r; [exact Hhigh|discriminate].
Qed.

Create HintDb adds.

#[local] Hint Resolve adds_ret adds_raise adds_get_fs adds_lift_fs
  adds_lift_result : adds.

Ltac adds_step :=
  first
    [ solve [auto with adds]
    | apply adds_emit; exact Logic.I
    | apply adds_progress;
      first [ apply percent_ok_constant; discriminate
            | right; reflexivity ]
    | apply adds_bind; [|intros ?]
    | apply adds_try_except; [|intros ?]
    | progress lazy zeta
    | match goal with
      | |- log_adds _ (if ?b then _ else _) => destruct b
      | |- log_adds _ (match ?x with _ => _ end) => destruct x
      end ].

Ltac adds := repeat adds_step.

Section ProgressRange.

Context (P : PathLib) (B : Backend) (language : string).

Lemma adds_fallback_pages (input_path temp_dir : string) (total : nat)
  (page_nums : list nat) :
  Forall (fun i => (i < total)%nat) page_nums ->
  forall ocr_results,
    log_adds percent_ok
      (OCRProcessor.fallback_pages P B language input_path
         (Some record_progress) temp_dir total page_nums ocr_results).
Proof.
  induction 1 as [|page_num rest Hlt _ IH]; intros ocr_results;
    cbn [OCRProcessor.fallback_pages]; [apply adds_ret|].
  apply adds_bind.
  { apply adds_progress. apply percent_ok_constant.
    - eapply Qle_trans; [|apply page_progress_range; exact Hlt]. discriminate.
    - eapply Qle_trans; [apply page_progress_range; exact Hlt|]. discriminate. }
  intros _. adds.
Qed.

(** X7. Whatever the libraries do, every percentage that [process_pdf]
    shows to its progress callback lies between 0 and 100 or is the failure
    sentinel -1, and the call only adds to what the outside has seen. *)
Theorem process_pdf_percentages (input_path output_path : string)
  (config : option OCRProcessor.Config) (w : World) :
  exists new,
    log (snd (OCRProcessor.process_pdf P B language input_path output_path
                (Some record_progress) config w))
    = log w ++ new
    /\ Forall percent_ok new.
Proof.
  revert w. change (log_adds percent_ok
    (OCRProcessor.process_pdf P B language input_path output_path
       (Some record_progress) config)).
  unfold OCRProcessor.process_pdf, OCRProcessor.run_strategies,
    OCRProcessor._tesseract_fallback_ocr, OCRProcessor._handle_encrypted_pdf,
    OCRProcessor._combine_pdfs, OCRProcessor.ocrmypdf.
  adds.
  all: apply adds_fallback_pages, Forall_forall; intros i Hi;
    apply elem_of_seq in Hi; lia.
Qed.

End ProgressRange.

Section RasterizationFailure.

Context (P : PathLib) (B : Backend) (language : string).

Lemma fallback_pages_aborts (input_path : string) (cb : option Callback)
  (temp_dir : string) (total k : nat) (e : string) (rest : list nat) :
  (forall files,
     fst (get_pixmap B input_path k 2 2
            (OCRProcessor.page_png P temp_dir k) files) = Raise e) ->
  forall before ocr_results w,
    (forall i files, i ∈ before ->
       fst (get_pixmap B input_path i 2 2
              (OCRProcessor.page_png P temp_dir i) files) = Ok tt) ->
    exists w',
      OCRProcessor.fallback_pages P B language input_path cb temp_dir total
        (before ++ k :: rest) ocr_results w = (Raise e, w')
      /\ stats w' = stats w
      /\ library_calls (log w')
         = library_calls (log w)
           ++ flat_map (fun i => [GetPixmap i 2 2; Tesseract i language])
                before
           ++ [GetPixmap k 2 2].
Proof.
  intros Hfail.
  induction before as [|page_num before IH]; intros ocr_results w Hpix.
  - cbn [app OCRProcessor.fallback_pages flat_map].
    destruct (progress_shows_percentages cb
      (OCRProcessor.page_progress k total) w) as (w0 & Hp & Hfs0 & Hlog0).
    pose proof (progress_stats _ _ _ _ _ Hp) as Hst0.
    rewrite (bind_run _ _ _ _ _ Hp).
    erewrite bind_run; [|reflexivity].
    destruct (get_pixmap B input_path k 2 2
                (OCRProcessor.page_png P temp_dir k) (fs w0))
      as [r files1] eqn:Hk.
    pose proof (Hfail (fs w0)) as Hr. rewrite Hk in Hr. cbn [fst] in Hr.
    subst r.
    erewrite bind_run_raise; [|apply lift_fs_run; cbn [fs]; exact Hk].
    eexists. split; [reflexivity|]. cbn [stats log].
    split; [exact Hst0|]. by rewrite library_calls_app, Hlog0.
  - cbn [app OCRProcessor.fallback_pages flat_map].
    destruct (progress_shows_percentages cb
      (OCRProcessor.page_progress page_num total) w)
      as (w0 & Hp & Hfs0 & Hlog0).
    pose proof (progress_stats _ _ _ _ _ Hp) as Hst0.
    rewrite (bind_run _ _ _ _ _ Hp).
    erewrite bind_run; [|reflexivity].
    destruct (get_pixmap B input_path page_num 2 2
                (OCRProcessor.page_png P temp_dir page_num) (fs w0))
      as [r files1] eqn:Hpixmap.
    pose proof (Hpix page_num (fs w0) ltac:(left)) as Hr.
    rewrite Hpixmap in Hr. cbn [fst] in Hr. subst r.
    erewrite bind_run; [|apply lift_fs_run; cbn [fs]; exact Hpixmap].
    destruct (run_tesseract B (OCRProcessor.page_png P temp_dir page_num)
                (OCRProcessor.page_base P temp_dir page_num) language files1)
      as [answer files2] eqn:Htess.
    erewrite bind_run; [|apply tesseract_step; cbn [fs]; exact Htess].
    cbn [fs stats log].
    match goal with
    | |- context [OCRProcessor.fallback_pages _ _ _ _ _ _ _ _ ?acc ?w2] =>
        destruct (IH acc w2) as (w' & Hrun & Hst & Hlog)
    end.
    { intros i files Hi. apply Hpix. by right. }
    cbn [fs stats log] in Hrun, Hst, Hlog.
    exists w'. split; [exact Hrun|]. split; [by rewrite Hst|].
    rewrite Hlog, !library_calls_app, Hlog0. cbn.
    by rewrite <- !app_assoc.
Qed.

(** X8. A page that cannot be rasterized ends the page-by-page fallback on
    the spot: the pages after it are neither rasterized nor given to
    Tesseract, the pages recognised before it are discarded (nothing is
    combined), the temporary directory that was made is not removed, and
    the fallback answers [False]. A page on which only Tesseract fails is
    merely left out. *)
Theorem rasterization_failure_aborts_fallback (input_path output_path : string)
  (cb : option Callback) (w : World) (doc : Doc) (temp_dir : string)
  (files1 : FS) (k : nat) (e : string) :
  fallback_imports B = Ok tt ->
  open_doc (fs w) input_path = Ok doc ->
  mkdtemp B (fs w) = (Ok temp_dir, files1) ->
  (k < length (doc_pages doc))%nat ->
  (forall i files, (i < k)%nat ->
     fst (get_pixmap B input_path i 2 2
            (OCRProcessor.page_png P temp_dir i) files) = Ok tt) ->
  (forall files,
     fst (get_pixmap B input_path k 2 2
            (OCRProcessor.page_png P temp_dir k) files) = Raise e) ->
  exists w',
    OCRProcessor._tesseract_fallback_ocr P B language input_path output_path
      cb w = (Ok false, w')
    /\ stats w' = stats w
    /\ library_calls (log w')
       = library_calls (log w)
         ++ [Mkdtemp]
         ++ flat_map (fun i => [GetPixmap i 2 2; Tesseract i language])
              (seq 0 k)
         ++ [GetPixmap k 2 2].
Proof.
  intros Himports Hopen Htemp Hk Hbefore Hfail.
  unfold OCRProcessor._tesseract_fallback_ocr, try_except.
  destruct (progress_shows_percentages cb 45 w) as (w0 & Hp & Hfs0 & Hlog0).
  pose proof (progress_stats _ _ _ _ _ Hp) as Hst0.
  unfold lift_result at 1. rewrite Himports.
  erewrite bind_run; [|reflexivity].
  rewrite (bind_run _ _ _ _ _ Hp).
  erewrite bind_run; [|reflexivity].
  unfold lift_result. rewrite Hfs0, Hopen.
  erewrite bind_run; [|reflexivity].
  erewrite bind_run; [|reflexivity].
  erewrite bind_run;
    [|apply lift_fs_run; cbn [fs]; rewrite Hfs0; exact Htemp].
  cbn [fs stats log]. lazy zeta.
  replace (seq 0 (length (doc_pages doc)))
    with (seq 0 k ++ k :: seq (S k) (length (doc_pages doc) - S k)).
  2:{ replace (length (doc_pages doc))
        with (k + S (length (doc_pages doc) - S k))%nat at 2 by lia.
      by rewrite seq_app. }
  set (w1 := {| fs := files1; stats := stats w0;
                log := log w0 ++ [Mkdtemp] |}).
  destruct (fallback_pages_aborts input_path cb temp_dir
    (length (doc_pages doc)) k e
    (seq (S k) (length (doc_pages doc) - S k)) Hfail (seq 0 k) [] w1)
    as (w' & Hrun & Hst & Hlog).
  { intros i files Hi. apply Hbefore. apply elem_of_seq in Hi. lia. }
  unfold w1 in Hst, Hlog. cbn [fs stats log] in Hst, Hlog.
  rewrite (bind_run_raise _ _ _ _ _ Hrun).
  exists w'. split; [done|]. split; [by rewrite Hst|].
  rewrite Hlog, library_calls_app, Hlog0. cbn. by rewrite <- !app_assoc.
Qed.

End RasterizationFailure.

Lemma rasterization_failure_aborts_fallback_witness :
  exists w',
    OCRProcessor._tesseract_fallback_ocr Examples.posix
      FurtherExamples.second_page_unrenderable "spa" "/in/three.pdf"
      "/out/three.pdf" None (Examples.start FurtherExamples.three_page_fs)
    = (Ok false, w')
    /\ library_calls (log w')
       = [Mkdtemp; GetPixmap 0 2 2; Tesseract 0 "spa"; GetPixmap 1 2 2]
    /\ path_exists (fs w') "/tmp/tmpocr" = true.
Proof.
  destruct (rasterization_failure_aborts_fallback Examples.posix
    FurtherExamples.second_page_unrenderable "spa" "/in/three.pdf"
    "/out/three.pdf" None (Examples.start FurtherExamples.three_page_fs)
    FurtherExamples.three_page_scan "/tmp/tmpocr"
    (<[ "/tmp/tmpocr" := Examples.a_directory ]>
       FurtherExamples.three_page_fs) 1 "cannot render page")
    as (w' & Hrun & _ & Hlog).
  - reflexivity.
  - reflexivity.
  - reflexivity.
  - cbn. lia.
  - intros i files Hi. assert (i = 0%nat) as -> by lia. reflexivity.
  - intros files. reflexivity.
  - exists w'. split; [exact Hrun|]. split; [rewrite Hlog; reflexivity|].
    vm_compute in Hrun. injection Hrun as <-. reflexivity.
Defined.

(** * Further properties: languages, error codes and time estimates *)

Section Languages.

Lemma dict_in_supported (language : string) :
  OcrSupport.dict_in OcrSupport.supported_languages language = true
  <-> language ∈ ["spa"; "eng"; "fra"; "deu"; "ita"; "por"].
Proof.
  unfold OcrSupport.dict_in, OcrSupport.supported_languages.
  cbn [OcrSupport.dict_get].
  repeat match goal with
         | |- context [String.eqb language ?k] =>
             destruct (String.eqb_spec language k) as [->|?]
         end.
  all: try (split; [intros _; by repeat first [left; reflexivity | right]
                   |done]).
  split; [done|].
  intros Hin. repeat (apply elem_of_cons in Hin as [Hin|Hin]; [done|]).
  by apply elem_of_nil in Hin.
Qed.

Lemma set_languages_cons (current l : string) (calls : list string) :
  OcrSupport.set_languages current (l :: calls)
  = OcrSupport.set_languages
      (if OcrSupport.dict_in OcrSupport.supported_languages l
       then l else current) calls.
Proof.
  unfold OcrSupport.set_languages. cbn [fold_left].
  unfold OcrSupport.set_language at 2.
  by destruct (OcrSupport.dict_in OcrSupport.supported_languages l).
Qed.

(** X9. After any sequence of [set_language] calls the language is the last
    supported one that was asked for, or the one the processor had when
    none was supported: a call with an unsupported code answers [False]
    and changes nothing. A language that is supported therefore stays
    supported. *)
Theorem set_language_keeps_last_supported (current : string)
  (calls : list string) :
  OcrSupport.set_languages current calls
  = default current
      (last (List.filter
               (OcrSupport.dict_in OcrSupport.supported_languages) calls))
  /\ (forall l,
        OcrSupport.set_language current l
        = (OcrSupport.dict_in OcrSupport.supported_languages l,
           if OcrSupport.dict_in OcrSupport.supported_languages l
           then l else current))
  /\ (OcrSupport.dict_in OcrSupport.supported_languages current = true ->
      OcrSupport.dict_in OcrSupport.supported_languages
        (OcrSupport.set_languages current calls) = true).
Proof.
  assert (Hlast : forall calls current,
    OcrSupport.set_languages current calls
    = default current
        (last (List.filter
                 (OcrSupport.dict_in OcrSupport.supported_languages)
                 calls))).
  { clear. induction calls as [|l calls IH]; intros current; [done|].
    rewrite set_languages_cons, IH. cbn [List.filter].
    destruct (OcrSupport.dict_in OcrSupport.supported_languages l); [|done].
    destruct (List.filter _ calls) as [|x xs] eqn:E; [done|].
    rewrite last_cons_cons.
    destruct (last (x :: xs)) as [y|] eqn:El; [done|].
    by apply last_None in El. }
  split; [apply Hlast|]. split.
  - intros l. unfold OcrSupport.set_language.
    by destruct (OcrSupport.dict_in OcrSupport.supported_languages l).
  - intros Hcur. rewrite Hlast.
    destruct (last (List.filter _ calls)) as [l|] eqn:E; [|exact Hcur].
    cbn. apply last_Some_elem_of in E.
    apply list_elem_of_In, List.filter_In in E. apply E.
Qed.

Lemma interpret_unknown_inj (a b : Z) :
  "Error desconocido (código " +:+ pretty a +:+ ")"
  = "Error desconocido (código " +:+ pretty b +:+ ")" -> a = b.
Proof.
  intros H. apply (inj (String.append _)) in H.
  apply string_app_inv_tail in H. by apply (inj pretty) in H.
Qed.

(** X10. [_interpret_ocr_error] gives different descriptions to different
    exit codes, the unknown ones included: the exit code can be read back
    from the description. *)
Theorem interpret_ocr_error_injective (a b : Z) :
  OcrSupport._interpret_ocr_error a = OcrSupport._interpret_ocr_error b ->
  a = b.
Proof.
  unfold OcrSupport._interpret_ocr_error, OcrSupport.error_codes.
  cbn [OcrSupport.codes_get].
  repeat match goal with
         | |- context [Z.eqb a ?k] =>
             destruct (Z.eqb_spec a k) as [->|?]
         end;
  repeat match goal with
         | |- context [Z.eqb b ?k] =>
             destruct (Z.eqb_spec b k) as [->|?]
         end;
  first [ done
        | apply interpret_unknown_inj
        | intros H; simpl in H; discriminate H ].
Qed.

End Languages.

Lemma interpret_ocr_error_injective_witness :
  OcrSupport._interpret_ocr_error 15 = OcrSupport._interpret_ocr_error 15
  /\ 15 = 15.
Proof.
  split; [reflexivity|].
  apply (interpret_ocr_error_injective 15 15). reflexivity.
Defined.

Section TimeEstimates.

Lemma Qltb_true (a b : Q) : OcrSupport.Qltb a b = true <-> (a < b)%Q.
Proof.
  unfold OcrSupport.Qltb. rewrite negb_true_iff. split.
  - intros H. apply Qnot_le_lt. intros Hle.
    apply Qle_bool_iff in Hle. congruence.
  - intros H. destruct (Qle_bool b a) eqn:E; [|done].
    apply Qle_bool_iff in E. exfalso. eapply Qlt_not_le; eauto.
Qed.

Lemma Qltb_false (a b : Q) : OcrSupport.Qltb a b = false <-> (b <= a)%Q.
Proof.
  unfold OcrSupport.Qltb. rewrite negb_false_iff. apply Qle_bool_iff.
Qed.

(** The size in megabytes is below a whole number of megabytes exactly when
    the size in bytes is. *)
Lemma file_size_mb_below (size c : Z) :
  OcrSupport.Qltb (OcrSupport.file_size_mb size) (inject_Z c) = true
  <-> size < c * 1048576.
Proof.
  rewrite Qltb_true. unfold OcrSupport.file_size_mb, Qlt, Qdiv, Qmult, Qinv.
  change (1024 * 1024) with 1048576. cbn. lia.
Qed.

Lemma file_size_mb_not_below (size c : Z) :
  OcrSupport.Qltb (OcrSupport.file_size_mb size) (inject_Z c) = false
  <-> c * 1048576 <= size.
Proof.
  rewrite Qltb_false. unfold OcrSupport.file_size_mb, Qle, Qdiv, Qmult, Qinv.
  change (1024 * 1024) with 1048576. cbn. lia.
Qed.

(** The estimate in seconds as a function of the size in bytes. *)
Lemma estimate_of_size_cases (size : Z) :
  (size < 1048576
   /\ OcrSupport.estimate_of_size size = (15%Q, OcrSupport.Bajo))
  \/ (1048576 <= size < 5 * 1048576
      /\ OcrSupport.estimate_of_size size
         = ((OcrSupport.file_size_mb size * 30)%Q, OcrSupport.Medio))
  \/ (5 * 1048576 <= size < 20 * 1048576
      /\ OcrSupport.estimate_of_size size
         = ((OcrSupport.file_size_mb size * (30 * (3 # 2)))%Q,
            OcrSupport.Alto))
  \/ (20 * 1048576 <= size
      /\ OcrSupport.estimate_of_size size
         = ((OcrSupport.file_size_mb size * (30 * 2))%Q,
            OcrSupport.MuyAlto)).
Proof.
  unfold OcrSupport.estimate_of_size, OcrSupport.base_time_per_mb.
  destruct (OcrSupport.Qltb (OcrSupport.file_size_mb size) 1) eqn:H1.
  { apply (file_size_mb_below size 1) in H1. left. split; [lia|done]. }
  apply (file_size_mb_not_below size 1) in H1.
  destruct (OcrSupport.Qltb (OcrSupport.file_size_mb size) 5) eqn:H5.
  { apply (file_size_mb_below size 5) in H5. right. left.
    split; [lia|done]. }
  apply (file_size_mb_not_below size 5) in H5.
  destruct (OcrSupport.Qltb (OcrSupport.file_size_mb size) 20) eqn:H20.
  { apply (file_size_mb_below size 20) in H20. right. right. left.
    split; [lia|done]. }
  apply (file_size_mb_not_below size 20) in H20.
  right. right. right. split; [lia|done].
Qed.

Lemma scaled_size_le (s1 s2 : Z) (a b : Q) (n m : Z) :
  (a == inject_Z n)%Q -> (b == inject_Z m)%Q ->
  s1 * n <= s2 * m ->
  (OcrSupport.file_size_mb s1 * a <= OcrSupport.file_size_mb s2 * b)%Q.
Proof.
  intros -> -> H. unfold OcrSupport.file_size_mb, Qle, Qdiv, Qmult, Qinv.
  change (1024 * 1024) with 1048576. cbn. nia.
Qed.

Lemma constant_le_scaled (s : Z) (a : Q) (n c : Z) :
  (a == inject_Z n)%Q -> c * 1048576 <= s * n ->
  (inject_Z c <= OcrSupport.file_size_mb s * a)%Q.
Proof.
  intros -> H. unfold OcrSupport.file_size_mb, Qle, Qdiv, Qmult, Qinv.
  change (1024 * 1024) with 1048576. cbn. lia.
Qed.

Lemma estimate_seconds_monotone (s1 s2 : Z) :
  s1 <= s2 ->
  (fst (OcrSupport.estimate_of_size s1)
   <= fst (OcrSupport.estimate_of_size s2))%Q.
Proof.
  intros Hle.
  destruct (estimate_of_size_cases s1)
    as [[H1 ->]|[[H1 ->]|[[H1 ->]|[H1 ->]]]];
  destruct (estimate_of_size_cases s2)
    as [[H2 ->]|[[H2 ->]|[[H2 ->]|[H2 ->]]]];
  cbn [fst]; try lia; try apply Qle_refl.
  - apply (constant_le_scaled s2 30 30 15); [reflexivity|lia].
  - apply (constant_le_scaled s2 (30 * (3 # 2)) 45 15); [reflexivity|lia].
  - apply (constant_le_scaled s2 (30 * 2) 60 15); [reflexivity|lia].
  - apply (scaled_size_le s1 s2 30 30 30 30); [reflexivity..|lia].
  - apply (scaled_size_le s1 s2 30 (30 * (3 # 2)) 30 45);
      [reflexivity..|lia].
  - apply (scaled_size_le s1 s2 30 (30 * 2) 30 60); [reflexivity..|lia].
  - apply (scaled_size_le s1 s2 (30 * (3 # 2)) (30 * (3 # 2)) 45 45);
      [reflexivity..|lia].
  - apply (scaled_size_le s1 s2 (30 * (3 # 2)) (30 * 2) 45 60);
      [reflexivity..|lia].
  - apply (scaled_size_le s1 s2 (30 * 2) (30 * 2) 60 60);
      [reflexivity..|lia].
Qed.

Lemma estimate_seconds_positive (size : Z) :
  (15 <= fst (OcrSupport.estimate_of_size size))%Q.
Proof.
  destruct (estimate_of_size_cases size)
    as [[H ->]|[[H ->]|[[H ->]|[H ->]]]]; cbn [fst].
  - apply Qle_refl.
  - apply (constant_le_scaled size 30 30 15); [reflexivity|lia].
  - apply (constant_le_scaled size (30 * (3 # 2)) 45 15); [reflexivity|lia].
  - apply (constant_le_scaled size (30 * 2) 60 15); [reflexivity|lia].
Qed.

Lemma py_int_monotone (a b : Q) :
  (0 <= a)%Q -> (a <= b)%Q ->
  PDFProcessor.py_int a <= PDFProcessor.py_int b.
Proof.
  intros Ha Hab. unfold PDFProcessor.py_int.
  assert (Hb : (0 <= b)%Q) by (eapply Qle_trans; eauto).
  apply Qle_bool_iff in Ha, Hb. rewrite Ha, Hb.
  by apply Qfloor_resp_le.
Qed.

(** X11. The estimate never shrinks when the file grows: of two files that
    exist, the larger one gets at least as many estimated seconds, across
    the four size classes as well as inside each. *)
Theorem estimate_grows_with_size (files : FS) (p1 p2 : string)
  (t1 t2 : OcrSupport.TimeEstimate) :
  OcrSupport.estimate_processing_time files p1 = inr t1 ->
  OcrSupport.estimate_processing_time files p2 = inr t2 ->
  getsize files p1 <= getsize files p2 ->
  OcrSupport.estimated_seconds t1 <= OcrSupport.estimated_seconds t2.
Proof.
  unfold OcrSupport.estimate_processing_time.
  destruct (negb (path_exists files p1)); [discriminate|].
  destruct (negb (path_exists files p2)); [discriminate|].
  pose proof (estimate_seconds_positive (getsize files p1)) as Hpos.
  destruct (OcrSupport.estimate_of_size (getsize files p1))
    as [sec1 level1] eqn:E1.
  destruct (OcrSupport.estimate_of_size (getsize files p2))
    as [sec2 level2] eqn:E2.
  intros [= <-] [= <-] Hle. cbn.
  pose proof (estimate_seconds_monotone _ _ Hle) as Hmono.
  rewrite E1, E2 in Hmono. cbn [fst] in Hmono, Hpos.
  apply py_int_monotone; [|exact Hmono].
  eapply Qle_trans; [|exact Hpos]. discriminate.
Qed.

Lemma scaled_lt_constant (s : Z) (a : Q) (n c : Z) :
  (a == inject_Z n)%Q -> s * n < c * 1048576 ->
  (OcrSupport.file_size_mb s * a < inject_Z c)%Q.
Proof.
  intros -> H. unfold OcrSupport.file_size_mb, Qlt, Qdiv, Qmult, Qinv.
  change (1024 * 1024) with 1048576. cbn. lia.
Qed.

Lemma py_int_between (x : Q) (lo hi : Z) :
  0 <= lo -> (inject_Z lo <= x)%Q -> (x < inject_Z hi)%Q ->
  lo <= PDFProcessor.py_int x < hi.
Proof.
  intros Hlo Hle Hlt. unfold PDFProcessor.py_int.
  assert (H0 : (0 <= x)%Q).
  { eapply Qle_trans; [|exact Hle]. change 0%Q with (inject_Z 0).
    by rewrite <- Zle_Qle. }
  apply Qle_bool_iff in H0. rewrite H0. split.
  - rewrite <- (Qfloor_Z lo). by apply Qfloor_resp_le.
  - rewrite Zlt_Qlt. eapply Qle_lt_trans; [apply Qfloor_le|exact Hlt].
Qed.

Lemma py_int_at_least (x : Q) (lo : Z) :
  0 <= lo -> (inject_Z lo <= x)%Q -> lo <= PDFProcessor.py_int x.
Proof.
  intros Hlo Hle. unfold PDFProcessor.py_int.
  assert (H0 : (0 <= x)%Q).
  { eapply Qle_trans; [|exact Hle]. change 0%Q with (inject_Z 0).
    by rewrite <- Zle_Qle. }
  apply Qle_bool_iff in H0. rewrite H0.
  rewrite <- (Qfloor_Z lo). by apply Qfloor_resp_le.
Qed.

Lemma recommendation_cases (seconds : Q) :
  ((seconds < 60)%Q
   /\ OcrSupport._get_time_recommendation seconds = OcrSupport.Rapido)
  \/ ((60 <= seconds)%Q /\ (seconds < 300)%Q
      /\ OcrSupport._get_time_recommendation seconds = OcrSupport.Moderado)
  \/ ((300 <= seconds)%Q /\ (seconds < 900)%Q
      /\ OcrSupport._get_time_recommendation seconds = OcrSupport.Largo)
  \/ ((900 <= seconds)%Q
      /\ OcrSupport._get_time_recommendation seconds = OcrSupport.MuyLargo).
Proof.
  unfold OcrSupport._get_time_recommendation.
  destruct (OcrSupport.Qltb seconds 60) eqn:H1.
  { apply Qltb_true in H1. by left. }
  apply Qltb_false in H1.
  destruct (OcrSupport.Qltb seconds 300) eqn:H2.
  { apply Qltb_true in H2. right. by left. }
  apply Qltb_false in H2.
  destruct (OcrSupport.Qltb seconds 900) eqn:H3.
  { apply Qltb_true in H3. right. right. by left. }
  apply Qltb_false in H3. right. right. by right.
Qed.

Ltac clash :=
  exfalso;
  match goal with
  | Hlow : (?a <= ?x)%Q, Hhigh : (?x < ?b)%Q |- _ =>
      apply (Qlt_irrefl x);
      eapply Qlt_le_trans; [exact Hhigh|];
      eapply Qle_trans; [|exact Hlow]; discriminate
  end.

(** X12. The complexity class and the recommendation of an estimate agree:
    a file under 1 MB is "Bajo", gets 15 seconds and "rapido"; "Medio"
    (1 to 5 MB) is "rapido" or "moderado"; "Alto" (5 to 20 MB) is
    "moderado" or "largo", never "muy largo"; "Muy Alto" (20 MB and more)
    is always "muy largo". A path that does not exist gets the error
    instead. *)
Theorem estimate_classes_agree (files : FS) (pdf_path : string) :
  match OcrSupport.estimate_processing_time files pdf_path with
  | inl e => path_exists files pdf_path = false /\ e = "Archivo no encontrado"
  | inr t =>
      path_exists files pdf_path = true
      /\ match OcrSupport.complexity t with
         | OcrSupport.Bajo =>
             getsize files pdf_path < 1048576
             /\ OcrSupport.estimated_seconds t = 15
             /\ OcrSupport.recommendation t = OcrSupport.Rapido
         | OcrSupport.Medio =>
             1048576 <= getsize files pdf_path < 5 * 1048576
             /\ 30 <= OcrSupport.estimated_seconds t < 150
             /\ (OcrSupport.recommendation t = OcrSupport.Rapido
                 \/ OcrSupport.recommendation t = OcrSupport.Moderado)
         | OcrSupport.Alto =>
             5 * 1048576 <= getsize files pdf_path < 20 * 1048576
             /\ 225 <= OcrSupport.estimated_seconds t < 900
             /\ (OcrSupport.recommendation t = OcrSupport.Moderado
                 \/ OcrSupport.recommendation t = OcrSupport.Largo)
         | OcrSupport.MuyAlto =>
             20 * 1048576 <= getsize files pdf_path
             /\ 1200 <= OcrSupport.estimated_seconds t
             /\ OcrSupport.recommendation t = OcrSupport.MuyLargo
         end
  end.
Proof.
  unfold OcrSupport.estimate_processing_time.
  destruct (path_exists files pdf_path); cbn [negb]; [|done].
  destruct (estimate_of_size_cases (getsize files pdf_path))
    as [[H ->]|[[H ->]|[[H ->]|[H ->]]]];
    cbn [OcrSupport.complexity OcrSupport.estimated_seconds
         OcrSupport.recommendation]; (split; [done|]).
  - repeat split; done.
  - assert (Hlow : (inject_Z 30
                    <= OcrSupport.file_size_mb (getsize files pdf_path) * 30)%Q)
      by (apply (constant_le_scaled _ 30 30 30); [reflexivity|lia]).
    assert (Hhigh : (OcrSupport.file_size_mb (getsize files pdf_path) * 30
                     < inject_Z 150)%Q)
      by (apply (scaled_lt_constant _ 30 30 150); [reflexivity|lia]).
    split; [lia|]. split; [by apply py_int_between|].
    destruct (recommendation_cases
      (OcrSupport.file_size_mb (getsize files pdf_path) * 30))
      as [[? ->]|[(? & ? & ->)|[(Hl & ? & ->)|[Hl ->]]]]; auto; clash.
  - assert (Hlow : (inject_Z 225
                    <= OcrSupport.file_size_mb (getsize files pdf_path)
                       * (30 * (3 # 2)))%Q)
      by (apply (constant_le_scaled _ _ 45 225); [reflexivity|lia]).
    assert (Hhigh : (OcrSupport.file_size_mb (getsize files pdf_path)
                     * (30 * (3 # 2)) < inject_Z 900)%Q)
      by (apply (scaled_lt_constant _ _ 45 900); [reflexivity|lia]).
    split; [lia|]. split; [by apply py_int_between|].
    destruct (recommendation_cases
      (OcrSupport.file_size_mb (getsize files pdf_path) * (30 * (3 # 2))))
      as [[Hh ->]|[(? & ? & ->)|[(? & ? & ->)|[Hl ->]]]]; auto; clash.
  - assert (Hlow : (inject_Z 1200
                    <= OcrSupport.file_size_mb (getsize files pdf_path)
                       * (30 * 2))%Q)
      by (apply (constant_le_scaled _ _ 60 1200); [reflexivity|lia]).
    split; [lia|]. split; [by apply py_int_at_least|].
    destruct (recommendation_cases
      (OcrSupport.file_size_mb (getsize files pdf_path) * (30 * 2)))
      as [[Hh ->]|[(? & Hh & ->)|[(? & Hh & ->)|[? ->]]]]; auto; clash.
Qed.

End TimeEstimates.

Lemma estimate_grows_with_size_witness :
  OcrSupport.estimate_processing_time FurtherExamples.sized_fs "/in/small.pdf"
  = inr {| OcrSupport.estimated_seconds := 85;
           OcrSupport.complexity := OcrSupport.Medio;
           OcrSupport.recommendation := OcrSupport.Moderado |}
  /\ OcrSupport.estimate_processing_time FurtherExamples.sized_fs
       "/in/large.pdf"
     = inr {| OcrSupport.estimated_seconds := 1716;
              OcrSupport.complexity := OcrSupport.MuyAlto;
              OcrSupport.recommendation := OcrSupport.MuyLargo |}
  /\ 85 <= 1716.
Proof.
  split; [reflexivity|]. split; [reflexivity|].
  apply (estimate_grows_with_size FurtherExamples.sized_fs "/in/small.pdf"
           "/in/large.pdf"
           {| OcrSupport.estimated_seconds := 85;
              OcrSupport.complexity := OcrSupport.Medio;
              OcrSupport.recommendation := OcrSupport.Moderado |}
           {| OcrSupport.estimated_seconds := 1716;
              OcrSupport.complexity := OcrSupport.MuyAlto;
              OcrSupport.recommendation := OcrSupport.MuyLargo |}).
  - reflexivity.
  - reflexivity.
  - vm_compute. discriminate.
Defined.

(** * Further properties of the orchestrator *)

Section Accounting.

Context (U : Unicode) (P : PathLib) (B : Backend).
Context (language : string) (output_dir : option string)
        (create_backups : bool).

Lemma keeps_run {A} (m : M A) (w w' : World) (r : result A) :
  keeps_stats m -> m w = (r, w') -> stats w' = stats w.
Proof. intros Hk Hrun. specialize (Hk w). by rewrite Hrun in Hk. Qed.

Lemma keeps_create_backup (file_path : string) :
  keeps_stats (PDFProcessor.create_backup P B file_path).
Proof. unfold PDFProcessor.create_backup. keeps. Qed.

Lemma keeps_lookup_key {A} (key : string) (v : option A) :
  keeps_stats (PDFProcessor.lookup_key key v).
Proof. destruct v; [apply keeps_ret|apply keeps_raise]. Qed.

Lemma process_pdf_shape (input_path output_path : string)
  (cb : option Callback) (config : option OCRProcessor.Config) :
  yields
    (OCRProcessor.process_pdf P B language input_path output_path cb config)
    (fun r =>
       (OCRProcessor.success r = true ->
        OCRProcessor.error r = None
        /\ OCRProcessor.output_path r = Some output_path)
       /\ (OCRProcessor.success r = false ->
           exists e, OCRProcessor.error r = Some e)).
Proof.
  unfold OCRProcessor.process_pdf. apply yields_try_except.
  2:{ intros e. eapply yields_bind; [apply yields_any|intros ? _].
      apply yields_ret. split; [done|]. intros _. by eexists. }
  eapply yields_bind; [apply yields_any|intros files _].
  destruct (negb (path_exists files input_path)).
  { apply yields_ret. split; [done|]. intros _. by eexists. }
  lazy zeta.
  do 9 (eapply yields_bind; [apply yields_any|intros ? _]).
  eapply yields_bind; [apply yields_any|intros files' _].
  destruct (path_exists files' output_path).
  - eapply yields_bind; [apply yields_any|intros ? _].
    by apply yields_ret.
  - apply yields_ret. split; [done|]. intros _. by eexists.
Qed.

Lemma analyze_file_failure_error (files : FS) (file_path : string) :
  PDFAnalyzer.success (PDFProcessor.analyze_file U files file_path) = false ->
  exists e,
    PDFAnalyzer.error (PDFProcessor.analyze_file U files file_path) = Some e.
Proof.
  unfold PDFProcessor.analyze_file.
  destruct (PDFAnalyzer.validate_pdf files file_path) as [[] message];
    cbn [negb]; [|intros _; by eexists].
  unfold PDFAnalyzer.analyze_pdf.
  destruct (negb (path_exists files file_path)); [intros _; by eexists|].
  by destruct (PDFAnalyzer.has_embedded_text U PDFProcessor.min_text_length
                 files file_path).
Qed.

(** X13. Every result of [process_file] is well formed: a result with
    [success = True] has no error and carries its output path, its
    strategy and the analysis; a result with [success = False] carries an
    error. [process_file] itself never raises. *)
Theorem process_file_result_well_formed (input_path : string)
  (output_path : option string) (force_ocr : bool) (cb : option Callback)
  (w : World) :
  exists r w',
    PDFProcessor.process_file U P B language output_dir create_backups
      input_path output_path force_ocr cb w = (Ok r, w')
    /\ well_formed_result r.
Proof.
  destruct (returns_process_file U P B language output_dir create_backups
    input_path output_path force_ocr cb w) as (r & w' & Hrun).
  exists r, w'. split; [exact Hrun|].
  revert w r w' Hrun.
  change (yields
    (PDFProcessor.process_file U P B language output_dir create_backups
       input_path output_path force_ocr cb) well_formed_result).
  unfold PDFProcessor.process_file. apply yields_try_except.
  2:{ intros e. do 2 (eapply yields_bind; [apply yields_any|intros ? _]).
      apply yields_ret. split; [done|]. intros _. by eexists. }
  eapply yields_bind; [apply yields_any|intros ? _].
  eapply yields_bind; [apply yields_any|intros files _].
  destruct (negb (path_exists files (path_str P input_path))).
  { apply yields_ret. split; [done|]. intros _. by eexists. }
  eapply yields_bind; [apply yields_any|intros out _].
  eapply yields_bind; [apply yields_any|intros ? _]. lazy zeta.
  destruct (negb (PDFAnalyzer.success
    (PDFProcessor.analyze_file U files input_path))) eqn:Hs.
  { apply negb_true_iff in Hs. apply yields_ret. split; cbn.
    - intros Ht. congruence.
    - intros _. by apply analyze_file_failure_error. }
  eapply yields_bind; [apply yields_any|intros backup _].
  eapply yields_bind; [apply yields_any|intros ? _].
  eapply yields_bind; [apply yields_any|intros has _].
  eapply yields_bind with (R := well_formed_result).
  - destruct (PDFProcessor.needs_ocr has force_ocr).
    + eapply yields_bind; [apply yields_any|intros ? _].
      eapply yields_bind; [apply process_pdf_shape|intros ocr [Hok Hko]].
      eapply yields_bind; [apply yields_any|intros ? _].
      apply yields_ret. split; cbn.
      * intros Ht. destruct (Hok Ht) as [-> ->]. repeat split; by eexists.
      * exact Hko.
    + eapply yields_bind; [apply yields_any|intros ? _].
      apply yields_try_except.
      * do 5 (eapply yields_bind; [apply yields_any|intros ? _]).
        apply yields_ret. split; [|done]. intros _.
        repeat split; by eexists.
      * intros e. apply yields_ret. split; [done|]. intros _. by eexists.
  - intros r Hr. eapply yields_bind; [apply yields_any|intros ? _].
    by apply yields_ret.
Qed.

Lemma bind_keeps_cases {A C} (m : M A) (k : A -> M C) (w w' : World)
  (res : result C) :
  keeps_stats m -> bind m k w = (res, w') ->
  (exists a w1, stats w1 = stats w /\ k a w1 = (res, w'))
  \/ (exists e, res = Raise e /\ stats w' = stats w).
Proof.
  intros Hk H. apply bind_inv in H as [(a & w1 & Hm & H)|(e & Hm & ->)].
  - left. exists a, w1. split; [by eapply keeps_run|done].
  - right. exists e. split; [done|by eapply keeps_run].
Qed.

Ltac leaf :=
  unfold accounted, is_type, counted_size; cbn;
  repeat match goal with H : stats _ = _ |- _ => rewrite H; clear H end;
  cbn; repeat split; intros; try done; try lia; auto.

(** One step through a part of the program that keeps the statistics:
    either it returned and the program goes on, or it raised and the
    program stops with the statistics it had. *)
Ltac through H lemma :=
  apply bind_keeps_cases in H; [|solve [lemma]];
  destruct H as [(? & ? & ? & H)|(? & -> & ?)]; [|congruence].

(** The same step when the outcome is known to be a value, and when it is
    known to be an exception. *)
Ltac through_ok H lemma :=
  apply bind_keeps_cases in H; [|solve [lemma]];
  destruct H as [(? & ? & ? & H)|(? & ? & ?)]; [|discriminate].

Ltac through_raise H lemma :=
  apply bind_keeps_cases in H; [|solve [lemma]];
  destruct H as [(? & ? & ? & H)|(? & ? & ?)]; [|congruence].

(** What [process_file] without its outer handler does to the statistics:
    nothing when it raises, and the accounting of its result when it
    returns. *)
Lemma process_file_accounting_run (input_path : string)
  (output_path : option string) (force_ocr : bool) (cb : option Callback)
  (w w' : World) (r : PDFProcessor.ProcessingResult) :
  PDFProcessor.process_file U P B language output_dir create_backups
    input_path output_path force_ocr cb w = (Ok r, w') ->
  accounted r (stats w) (stats w').
Proof.
  unfold PDFProcessor.process_file. intros H.
  match type of H with
  | try_except ?b _ _ = _ => set (body := b) in H
  end.
  assert (HB : forall res w1, body w = (res, w1) ->
            match res with
            | Ok r' => accounted r' (stats w) (stats w1)
            | Raise _ => stats w1 = stats w
            end).
  { subst body. clear H. intros res w1 H.
    through H ltac:(apply keeps_progress).
    through H ltac:(apply keeps_get_fs).
    match type of H with
    | (if ?c then _ else _) _ = _ => destruct c
    end.
    { injection H as <- <-. leaf. }
    through H ltac:(keeps; apply keeps_lookup_key).
    through H ltac:(apply keeps_progress).
    lazy zeta in H.
    match type of H with
    | (if ?c then _ else _) _ = _ => destruct c eqn:Hs
    end.
    { injection H as <- <-. apply negb_true_iff in Hs.
      unfold accounted, is_type, counted_size. cbn. rewrite Hs. leaf. }
    apply negb_false_iff in Hs.
    through H ltac:(keeps; apply keeps_create_backup).
    through H ltac:(apply keeps_progress).
    through H ltac:(apply keeps_lookup_key).
    match type of H with
    | context [PDFProcessor.update_with_ocr ?b _] => set (base := b) in H
    end.
    apply bind_inv in H as [(result & wb & Hbranch & H)|(e & Hbranch & ->)].
    - (* the strategy returned [result] *)
      assert (Hresult :
        (exists ocr,
           result = PDFProcessor.update_with_ocr base ocr
           /\ stats wb
              = if OCRProcessor.success ocr
                then PDFProcessor.incr_files_with_ocr (stats w)
                else stats w)
        \/ (exists a b,
              result = PDFProcessor.update_copied base a b
              /\ stats wb = PDFProcessor.incr_files_copied (stats w))
        \/ (exists e,
              result = PDFProcessor.update_copy_failed base e
              /\ stats wb = stats w)).
      { clear H. destruct (PDFProcessor.needs_ocr _ force_ocr).
        - through_ok Hbranch ltac:(apply keeps_progress).
          through_ok Hbranch ltac:(apply keeps_process_pdf).
          left. eexists. unfold bind, modify_stats, ret in Hbranch.
          destruct (OCRProcessor.success _) eqn:Hocr;
            injection Hbranch as <- <-; cbn [stats];
            (split; [reflexivity|]); rewrite Hocr; congruence.
        - through_ok Hbranch ltac:(apply keeps_progress).
          apply try_except_inv in Hbranch
            as [(a & Hcopy & [= <-])|(e & w2 & Hcopy & [= <- <-])].
          + through_ok Hcopy ltac:(apply keeps_lift_fs).
            through_ok Hcopy ltac:(apply keeps_lift_fs).
            through_ok Hcopy ltac:(apply keeps_get_fs).
            unfold bind at 1 in Hcopy. unfold modify_stats at 1 in Hcopy.
            through_ok Hcopy ltac:(apply keeps_progress).
            injection Hcopy as <- <-. right. left. eexists _, _.
            split; [reflexivity|]. cbn [stats] in *. congruence.
          + right. right. exists e. split; [reflexivity|].
            through_raise Hcopy ltac:(apply keeps_lift_fs).
            through_raise Hcopy ltac:(apply keeps_lift_fs).
            through_raise Hcopy ltac:(apply keeps_get_fs).
            unfold bind at 1 in Hcopy. unfold modify_stats at 1 in Hcopy.
            apply bind_inv in Hcopy
              as [(? & ? & Hp & Hcopy)|(? & Hp & _)].
            * discriminate Hcopy.
            * apply progress_run in Hp as [? _]. discriminate. }
      unfold bind, modify_stats, ret in H.
      destruct Hresult
        as [(ocr & -> & Hst)|[(a & b & -> & Hst)|(e & -> & Hst)]].
      + cbn [PDFProcessor.success PDFProcessor.update_with_ocr] in H.
        destruct (OCRProcessor.success ocr) eqn:Hocr;
          injection H as <- <-; unfold accounted, is_type, counted_size;
          cbn; rewrite Hocr, Hst; cbn; repeat split; intros;
          try done; try lia; auto.
      + cbn [PDFProcessor.success PDFProcessor.update_copied] in H.
        injection H as <- <-. unfold accounted, is_type, counted_size.
        cbn. rewrite Hst. cbn. repeat split; intros; try done; try lia; auto.
      + cbn [PDFProcessor.success PDFProcessor.update_copy_failed] in H.
        injection H as <- <-. unfold accounted, is_type, counted_size.
        cbn. rewrite Hst. cbn. repeat split; intros; try done; try lia; auto.
    - (* the strategy raised *)
      destruct (PDFProcessor.needs_ocr _ force_ocr).
      + through_raise Hbranch ltac:(apply keeps_progress).
        through_raise Hbranch ltac:(apply keeps_process_pdf).
        unfold bind, modify_stats, ret in Hbranch.
        destruct (OCRProcessor.success _); discriminate.
      + through_raise Hbranch ltac:(apply keeps_progress).
        apply try_except_inv in Hbranch
          as [(a & _ & [=])|(e' & w2 & _ & [=])]. }
  apply try_except_inv in H as [(r0 & Hbody & [= <-])|(e & w1 & Hbody & Hh)].
  - exact (HB _ _ Hbody).
  - specialize (HB _ _ Hbody). cbn in HB.
    unfold bind, modify_stats in Hh.
    destruct (progress cb (-1) _) as [rp wp] eqn:Hp.
    apply progress_run in Hp as (-> & _ & Hst). cbn [stats] in Hst.
    injection Hh as <- <-. unfold accounted, is_type, counted_size. cbn.
    rewrite Hst, HB. cbn. repeat split; intros; try done; try lia; auto.
Qed.

Lemma process_file_missing_input (input_path : string)
  (output_path : option string) (force_ocr : bool) (cb : option Callback)
  (w : World) :
  path_exists (fs w) (path_str P input_path) = false ->
  exists w',
    PDFProcessor.process_file U P B language output_dir create_backups
      input_path output_path force_ocr cb w
    = (Ok (PDFProcessor.error_result "Archivo no encontrado" input_path), w')
    /\ fs w' = fs w
    /\ stats w' = stats w.
Proof.
  intros Hex. unfold PDFProcessor.process_file, try_except.
  destruct (progress cb 0 w) as [rp w0] eqn:Hp.
  apply progress_run in Hp as Hrun. destruct Hrun as (-> & Hfs0 & Hst0).
  rewrite (bind_run _ _ _ _ _ Hp).
  erewrite bind_run; [|reflexivity].
  rewrite Hfs0, Hex. cbn [negb]. by exists w0.
Qed.

Lemma process_file_failed_analysis (input_path : string)
  (output_path : option string) (force_ocr : bool) (cb : option Callback) :
  yields
    (PDFProcessor.process_file U P B language output_dir create_backups
       input_path output_path force_ocr cb)
    (fun r => PDFProcessor.file_path r <> None ->
              PDFProcessor.success r = false).
Proof.
  unfold PDFProcessor.process_file. apply yields_try_except.
  2:{ intros e. do 2 (eapply yields_bind; [apply yields_any|intros ? _]).
      by apply yields_ret. }
  eapply yields_bind; [apply yields_any|intros ? _].
  eapply yields_bind; [apply yields_any|intros files _].
  destruct (negb (path_exists files (path_str P input_path))).
  { by apply yields_ret. }
  eapply yields_bind; [apply yields_any|intros out _].
  eapply yields_bind; [apply yields_any|intros ? _]. lazy zeta.
  destruct (negb (PDFAnalyzer.success
    (PDFProcessor.analyze_file U files input_path))) eqn:Hs.
  { apply negb_true_iff in Hs. apply yields_ret. intros _. exact Hs. }
  eapply yields_bind; [apply yields_any|intros backup _].
  eapply yields_bind; [apply yields_any|intros ? _].
  eapply yields_bind; [apply yields_any|intros has _].
  eapply yields_bind with
    (R := fun r => PDFProcessor.file_path r = None).
  - destruct (PDFProcessor.needs_ocr has force_ocr).
    + do 3 (eapply yields_bind; [apply yields_any|intros ? _]).
      by apply yields_ret.
    + eapply yields_bind; [apply yields_any|intros ? _].
      apply yields_try_except.
      * do 5 (eapply yields_bind; [apply yields_any|intros ? _]).
        by apply yields_ret.
      * intros e. by apply yields_ret.
  - intros r Hr. eapply yields_bind; [apply yields_any|intros ? _].
    apply yields_ret. by intros ?.
Qed.

(** X14. Every [process_file] call returns a result, and that result tells
    how the statistics moved: [files_processed] grew by one and
    [total_size_processed] by the analysed file size exactly when the result
    is a success; [files_with_ocr] or [files_copied] grew by one according
    to the strategy of a success; [errors] grew by one for a failure that
    carries an analysis and by at most one in every case. A call on an
    input that does not exist answers "Archivo no encontrado" and leaves
    every counter as it was, and so does a call whose analysis failed (a
    result with ['file_path']): neither is counted as processed or as an
    error. *)
Theorem process_file_accounting (input_path : string)
  (output_path : option string) (force_ocr : bool) (cb : option Callback)
  (w : World) :
  exists r w',
    PDFProcessor.process_file U P B language output_dir create_backups
      input_path output_path force_ocr cb w = (Ok r, w')
    /\ accounted r (stats w) (stats w')
    /\ (path_exists (fs w) (path_str P input_path) = false ->
        r = PDFProcessor.error_result "Archivo no encontrado" input_path
        /\ stats w' = stats w)
    /\ (PDFProcessor.file_path r <> None ->
        PDFProcessor.success r = false /\ stats w' = stats w).
Proof.
  destruct (returns_process_file U P B language output_dir create_backups
              input_path output_path force_ocr cb w) as (r & w' & Hrun).
  exists r, w'. split; [exact Hrun|].
  pose proof (process_file_accounting_run _ _ _ _ _ _ _ Hrun) as Hacc.
  split; [exact Hacc|]. split.
  - intros Hex.
    destruct (process_file_missing_input input_path output_path force_ocr
                cb w Hex) as (w1 & Hmiss & _ & Hst).
    rewrite Hrun in Hmiss. by injection Hmiss as -> ->.
  - intros Hfile.
    pose proof (process_file_failed_analysis input_path output_path
                  force_ocr cb w r w' Hrun Hfile) as Hfail.
    split; [exact Hfail|].
    destruct Hacc as (Hp & Ho & Hc & Ht & _ & _ & _ & He).
    specialize (He Hfile). rewrite Hfail in Hp, Ho, Hc, Ht.
    cbn [andb] in Ho, Hc.
    destruct (stats w) as [p0 o0 c0 t0 e0], (stats w') as [p1 o1 c1 t1 e1].
    cbn in *. f_equal; lia.
Qed.

Lemma tally_cons (p : PDFProcessor.ProcessingResult -> bool)
  (r : PDFProcessor.ProcessingResult)
  (results : list PDFProcessor.ProcessingResult) :
  tally p (r :: results) = (if p r then 1 else 0) + tally p results.
Proof.
  unfold tally. cbn [List.filter]. destruct (p r); cbn [length]; lia.
Qed.

Lemma successes_tally (results : list PDFProcessor.ProcessingResult) :
  successes results = tally PDFProcessor.success results.
Proof. reflexivity. Qed.

Lemma bytes_of_cons (r : PDFProcessor.ProcessingResult)
  (results : list PDFProcessor.ProcessingResult) :
  bytes_of (r :: results)
  = (if PDFProcessor.success r then counted_size r else 0)
    + bytes_of results.
Proof.
  unfold bytes_of. cbn [List.filter].
  destruct (PDFProcessor.success r); cbn [List.map fold_right]; lia.
Qed.

Lemma batch_accounted_cons (r : PDFProcessor.ProcessingResult)
  (results : list PDFProcessor.ProcessingResult) (s0 s1 s2 s3 : Stats) :
  s1 = s0 -> accounted r s1 s2 -> batch_accounted results s2 s3 ->
  batch_accounted (r :: results) s0 s3.
Proof.
  intros -> (Hp & Ho & Hc & Ht & He & Hes & Hef & _)
    (Hp' & Ho' & Hc' & Ht' & Hlo & Hhi).
  unfold batch_accounted in *. rewrite !successes_tally in *.
  rewrite !tally_cons, bytes_of_cons. cbn [length].
  unfold analysed at 1.
  destruct (PDFProcessor.success r) eqn:Hs; cbn [andb negb] in *.
  - specialize (Hes eq_refl).
    destruct (is_type PDFProcessor.ocr_applied r),
      (is_type PDFProcessor.copy_only r); repeat split; lia.
  - destruct (PDFProcessor.analysis r) eqn:Ha.
    + assert (errors s2 = errors s0 + 1) by (apply Hef; congruence).
      repeat split; lia.
    + repeat split; lia.
Qed.

Lemma batch_loop_accounting (cb : option Callback) (total_files : nat)
  (file_paths : list string) :
  forall i results w,
    exists slots w',
      PDFProcessor.batch_loop U P B language output_dir create_backups cb
        total_files i file_paths results w = (Ok (results ++ slots), w')
      /\ length slots = length file_paths
      /\ batch_accounted slots (stats w) (stats w').
Proof.
  induction file_paths as [|file_path rest IH]; intros i results w.
  - exists [], w. cbn. rewrite app_nil_r. split; [done|]. split; [done|].
    unfold batch_accounted, successes, tally, bytes_of. cbn.
    repeat split; lia.
  - cbn [PDFProcessor.batch_loop]. unfold bind at 1, try_except.
    unfold bind at 1.
    destruct (progress cb (PDFProcessor.overall_progress i total_files) w)
      as [rp w0] eqn:Hp.
    apply progress_run in Hp as (-> & _ & Hst0).
    unfold bind at 1.
    destruct (returns_process_file U P B language output_dir create_backups
      file_path None false
      (Some (PDFProcessor.file_progress cb i total_files)) w0)
      as (result & w1 & Hrun).
    rewrite Hrun. cbn [ret].
    apply process_file_accounting_run in Hrun.
    destruct (IH (S i) (results ++ [result]) w1)
      as (slots & w' & Hloop & Hlen & Hacc).
    exists (result :: slots), w'. rewrite Hloop, <- app_assoc.
    split; [done|]. split; [cbn; lia|].
    by eapply batch_accounted_cons.
Qed.

(** X15. [process_batch] returns one result per path, and its results tell
    how the statistics moved over the whole batch: [files_processed] grew by
    the number of successes, [files_with_ocr] and [files_copied] by the
    successes of each strategy, [total_size_processed] by the analysed sizes
    of the successes, and [errors] by at least the number of failures that
    carry an analysis and at most the number of failures. The final progress
    report and the completion callback change none of the counters. *)
Theorem process_batch_accounting (file_paths : list string)
  (cb : option Callback) (cc : option PDFProcessor.Completion) (w : World) :
  exists results w',
    PDFProcessor.process_batch U P B language output_dir create_backups
      file_paths cb cc w = (Ok results, w')
    /\ length results = length file_paths
    /\ batch_accounted results (stats w) (stats w').
Proof.
  unfold PDFProcessor.process_batch.
  destruct (batch_loop_accounting cb (length file_paths) file_paths 0%nat []
              w) as (slots & w1 & Hloop & Hlen & Hacc).
  rewrite app_nil_l in Hloop.
  unfold bind at 1. rewrite Hloop. unfold bind at 1.
  destruct (progress cb 100 w1) as [rp w2] eqn:Hp.
  apply progress_run in Hp as (-> & _ & Hst).
  unfold bind at 1.
  destruct cc as [f|].
  - unfold emits. eexists slots, _. split; [done|]. split; [done|].
    cbn [stats]. by rewrite Hst.
  - exists slots, w2. split; [done|]. split; [done|]. by rewrite Hst.
Qed.

End Accounting.

(** * Further properties of the utilities *)

Section PathValidation.

Context (P : PathLib) (A : UtilsText.Access) (files : FS).

Lemma path_error_none (path : string) :
  UtilsText.path_error P A files path = None <-> acceptable P A files path.
Proof.
  unfold UtilsText.path_error, acceptable.
  destruct (String.eqb_spec path "") as [->|Hne].
  { split; [done|]. by intros [? _]. }
  destruct (path_exists files (path_str P path)); cbn [negb].
  2:{ split; [done|]. by intros (_ & ? & _). }
  destruct (UtilsText.is_file A (path_str P path)),
    (PDFAnalyzer.endswith (PDFAnalyzer.lower path) ".pdf"),
    (UtilsText.readable A path); cbn [negb andb];
    split; try done; try (by intros (_ & _ & _ & ?));
    by intros (_ & _ & Hpdf & _); specialize (Hpdf eq_refl).
Qed.

Lemma validate_paths_errors (paths : list string) (errors : list string) :
  fold_left
    (fun errors path =>
       match UtilsText.path_error P A files path with
       | Some e => errors ++ [e]
       | None => errors
       end) paths errors
  = errors ++ omap (UtilsText.path_error P A files) paths.
Proof.
  revert errors. induction paths as [|path paths IH]; intros errors.
  - cbn. by rewrite app_nil_r.
  - cbn [fold_left omap list_omap]. rewrite IH.
    destruct (UtilsText.path_error P A files path); [|done].
    by rewrite <- app_assoc.
Qed.

(** X16. [validate_paths] reports one error for each offending path, in the
    order of the paths, and nothing else; it answers [True] exactly when
    every path is acceptable: not empty, existing, readable and, if it is a
    regular file, named [.pdf] in any letter case. A directory passes
    whatever its name. *)
Theorem validate_paths_reports (paths : list string) :
  snd (UtilsText.validate_paths P A files paths)
  = omap (UtilsText.path_error P A files) paths
  /\ (length (snd (UtilsText.validate_paths P A files paths))
      <= length paths)%nat
  /\ (fst (UtilsText.validate_paths P A files paths) = true
      <-> Forall (acceptable P A files) paths).
Proof.
  unfold UtilsText.validate_paths. cbn [fst snd].
  rewrite validate_paths_errors, app_nil_l.
  split; [done|]. split.
  { induction paths as [|path paths IH]; [done|].
    cbn [omap list_omap length].
    destruct (UtilsText.path_error P A files path); cbn [length]; lia. }
  rewrite Nat.eqb_eq.
  induction paths as [|path paths IH]; [by split|].
  cbn [omap list_omap]. rewrite Forall_cons, <- path_error_none, <- IH.
  destruct (UtilsText.path_error P A files path); cbn [length].
  - split; [lia|]. by intros [? _].
  - split; [by intros ?|]. by intros [_ ?].
Qed.

End PathValidation.

Section FileSizes.

Lemma divided_value (n : Z) (k : nat) :
  (divided n k == inject_Z n / inject_Z (1024 ^ Z.of_nat k))%Q.
Proof.
  induction k as [|k IH].
  - change (inject_Z n == inject_Z n / 1)%Q. field.
  - change (divided n (S k)) with (divided n k / 1024)%Q. rewrite IH.
    rewrite Nat2Z.inj_succ, Z.pow_succ_r by lia. rewrite inject_Z_mult.
    assert (~ (inject_Z (1024 ^ Z.of_nat k) == 0)%Q).
    { change 0%Q with (inject_Z 0). rewrite inject_Z_injective.
      pose proof (Z.pow_pos_nonneg 1024 (Z.of_nat k)). lia. }
    change (inject_Z 1024) with 1024%Q. by field.
Qed.

Lemma divided_at_least (n : Z) (k : nat) (c : Z) :
  c * 1024 ^ Z.of_nat k <= n <-> (inject_Z c <= divided n k)%Q.
Proof.
  rewrite divided_value.
  assert (0 < 1024 ^ Z.of_nat k) as Hpos by (apply Z.pow_pos_nonneg; lia).
  assert (0 < inject_Z (1024 ^ Z.of_nat k))%Q as HposQ.
  { change 0%Q with (inject_Z 0). by rewrite <- Zlt_Qlt. }
  split.
  - intros Hle. apply Qle_shift_div_l; [done|].
    rewrite <- inject_Z_mult. by rewrite <- Zle_Qle.
  - intros Hle. destruct (Z_le_gt_dec (c * 1024 ^ Z.of_nat k) n) as [|Hgt];
      [done|exfalso].
    apply (Qle_not_lt _ _ Hle). apply Qlt_shift_div_r; [done|].
    rewrite <- inject_Z_mult. rewrite <- Zlt_Qlt. lia.
Qed.

Lemma scale_stops (n : Z) (k : nat) :
  (k <= 4)%nat ->
  1024 ^ Z.of_nat k <= n ->
  ((k < 4)%nat -> n < 1024 ^ Z.of_nat (S k)) ->
  forall fuel j,
    (j <= k)%nat -> (k - j <= fuel)%nat ->
    UtilsText.scale fuel (divided n j) j = (divided n k, k).
Proof.
  intros Hk Hlo Hhi. induction fuel as [|fuel IH]; intros j Hj Hfuel.
  - by replace j with k by lia.
  - cbn [UtilsText.scale].
    change (length UtilsText.units - 1)%nat with 4%nat.
    destruct (decide (j = k)) as [->|Hne].
    + destruct (Qle_bool 1024 (divided n k)) eqn:Hq; [|done].
      destruct (k <? 4)%nat eqn:Hk4; [|done]. exfalso.
      apply Nat.ltb_lt in Hk4. specialize (Hhi Hk4).
      apply Qle_bool_iff in Hq.
      change 1024%Q with (inject_Z 1024) in Hq.
      apply divided_at_least in Hq.
      rewrite Nat2Z.inj_succ, Z.pow_succ_r in Hhi by lia. lia.
    + assert (Qle_bool 1024 (divided n j) = true) as ->.
      { apply Qle_bool_iff. change 1024%Q with (inject_Z 1024).
        apply divided_at_least.
        rewrite <- Z.pow_succ_r, <- Nat2Z.inj_succ by lia.
        etrans; [|exact Hlo]. apply Z.pow_le_mono_r; lia. }
      assert ((j <? 4)%nat = true) as -> by (apply Nat.ltb_lt; lia).
      cbn [andb]. rewrite Nat.add_1_r.
      change (divided n j / 1024)%Q with (divided n (S j)).
      apply IH; lia.
Qed.

Lemma py_int_integer (n : Z) : PDFProcessor.py_int (inject_Z n) = n.
Proof.
  unfold PDFProcessor.py_int.
  destruct (Qle_bool 0 (inject_Z n)); [apply Qfloor_Z|apply Qceiling_Z].
Qed.

Lemma float_of_int_exact (n : Z) :
  Z.abs n < 2 ^ 53 -> UtilsText.float_of_int n = Ok (inject_Z n).
Proof.
  intros Hn. unfold UtilsText.float_of_int.
  by apply Z.ltb_lt in Hn as ->.
Qed.

(** X17. On a positive size below [2^53] (where [float(size_bytes)] is
    exact) [format_file_size] picks the largest unit that the size reaches,
    [TB] at the most: a size from [1024^k] up to [1024^(k+1)] (up to [2^53]
    for [k = 4]) is printed in unit [k], as the integer itself for bytes
    and with one decimal of the size divided [k] times by 1024 otherwise;
    the number printed is at least 1, and below 1024 before rounding unless
    the unit is [TB]. *)
Theorem format_file_size_unit (size_bytes : Z) (k : nat) :
  0 < size_bytes ->
  size_bytes < 2 ^ 53 ->
  (k <= 4)%nat ->
  1024 ^ Z.of_nat k <= size_bytes ->
  ((k < 4)%nat -> size_bytes < 1024 ^ Z.of_nat (S k)) ->
  UtilsText.format_file_size size_bytes
  = Ok ((if (k =? 0)%nat then pretty size_bytes
         else UtilsText.format_1f (divided size_bytes k))
        +:+ " " +:+ nth k UtilsText.units "")
  /\ (1 <= divided size_bytes k)%Q
  /\ ((k < 4)%nat -> (divided size_bytes k < 1024)%Q).
Proof.
  intros Hpos Hfloat Hk Hlo Hhi. split; [|split].
  - unfold UtilsText.format_file_size.
    destruct (Z.eqb_spec size_bytes 0) as [|_]; [lia|].
    rewrite float_of_int_exact by lia.
    change (inject_Z size_bytes) with (divided size_bytes 0).
    rewrite (scale_stops size_bytes k Hk Hlo Hhi 5 0) by lia.
    destruct k as [|k]; [|done].
    lazy beta iota zeta. cbn [Nat.eqb].
    change (divided size_bytes 0) with (inject_Z size_bytes).
    by rewrite py_int_integer.
  - change 1%Q with (inject_Z 1). apply divided_at_least. lia.
  - intros Hk4. specialize (Hhi Hk4). apply Qnot_le_lt. intros Hle.
    change 1024%Q with (inject_Z 1024) in Hle.
    apply divided_at_least in Hle.
    rewrite Nat2Z.inj_succ, Z.pow_succ_r in Hhi by lia. lia.
Qed.

End FileSizes.

Lemma format_file_size_unit_witness :
  UtilsText.format_file_size 1536 = Ok "1.5 KB"
  /\ (1 <= divided 1536 1)%Q /\ (divided 1536 1 < 1024)%Q.
Proof.
  destruct (format_file_size_unit 1536 1) as (Hfmt & Hlo & Hhi).
  - lia.
  - reflexivity.
  - lia.
  - vm_compute. discriminate.
  - intros _. reflexivity.
  - split; [rewrite Hfmt; reflexivity|]. split; [exact Hlo|].
    apply Hhi. lia.
Defined.

(** Above [2^53] the size is first rounded to a float: the exact quotient
    of this size would print as 8192.1. *)
Example format_file_size_rounds_first :
  UtilsText.format_file_size 9007254230322381 = Ok "8192.0 TB".
Proof. vm_compute. reflexivity. Qed.

Section FileNames.

Context (U : Unicode).

Lemma replace_removes (char : codepoint) (s : pystr) :
  char <> UtilsText.underscore ->
  Forall (fun c => c <> char) (UtilsText.replace char UtilsText.underscore s).
Proof.
  intros Hne. unfold UtilsText.replace. apply Forall_map, Forall_forall.
  intros c _. cbn. destruct (N.eqb_spec c char); congruence.
Qed.

Lemma replace_keeps_absent (d char : codepoint) (s : pystr) :
  d <> UtilsText.underscore ->
  Forall (fun c => c <> d) s ->
  Forall (fun c => c <> d) (UtilsText.replace char UtilsText.underscore s).
Proof.
  intros Hne Hs. unfold UtilsText.replace. apply Forall_map.
  eapply Forall_impl; [exact Hs|]. intros c Hc. cbn.
  destruct (N.eqb c char); congruence.
Qed.

Lemma replace_absent (char : codepoint) (s : pystr) :
  Forall (fun c => c <> char) s ->
  UtilsText.replace char UtilsText.underscore s = s.
Proof.
  unfold UtilsText.replace. induction 1 as [|c s Hc _ IH]; [done|].
  cbn [map]. rewrite IH. by destruct (N.eqb_spec c char).
Qed.

Lemma replaced_removes (chars : pystr) (d : codepoint) :
  d <> UtilsText.underscore ->
  forall s,
    d ∈ chars \/ Forall (fun c => c <> d) s ->
    Forall (fun c => c <> d)
      (fold_left (fun name char =>
                    UtilsText.replace char UtilsText.underscore name)
         chars s).
Proof.
  intros Hne. induction chars as [|char chars IH]; intros s Hd.
  - destruct Hd as [Hd|Hd]; [by apply elem_of_nil in Hd|done].
  - cbn [fold_left]. apply IH.
    destruct Hd as [Hd|Hd].
    + apply elem_of_cons in Hd as [->|Hd]; [|by left].
      right. by apply replace_removes.
    + right. by apply replace_keeps_absent.
Qed.

Lemma replaced_free (s : pystr) :
  free_of UtilsText.invalid_chars
    (fold_left (fun name char =>
                  UtilsText.replace char UtilsText.underscore name)
       UtilsText.invalid_chars s).
Proof.
  unfold free_of.
  assert (forall d, d ∈ UtilsText.invalid_chars ->
            Forall (fun c => c <> d)
              (fold_left (fun name char =>
                            UtilsText.replace char UtilsText.underscore name)
                 UtilsText.invalid_chars s)) as Hall.
  { intros d Hd. apply replaced_removes; [|by left].
    intros ->. revert Hd. unfold UtilsText.invalid_chars, UtilsText.underscore.
    rewrite !elem_of_cons, elem_of_nil. intros Hd.
    repeat (destruct Hd as [Hd|Hd]; [discriminate Hd|]). done. }
  apply Forall_forall. intros c Hc Hin.
  specialize (Hall c Hin). rewrite Forall_forall in Hall.
  by apply (Hall c Hc).
Qed.

Lemma replaced_id (chars s : pystr) :
  free_of chars s ->
  fold_left (fun name char =>
               UtilsText.replace char UtilsText.underscore name) chars s
  = s.
Proof.
  intros Hs. induction chars as [|char chars IH]; [done|].
  cbn [fold_left]. rewrite replace_absent.
  - apply IH. eapply Forall_impl; [exact Hs|]. intros c Hc Hin.
    apply Hc. by right.
  - eapply Forall_impl; [exact Hs|]. intros c Hc ->. apply Hc. by left.
Qed.

Lemma split_from_chars (I : codepoint -> Prop) (s : pystr) :
  forall cur,
    Forall I s -> Forall I cur ->
    Forall (Forall I) (UtilsText.split_from U s cur).
Proof.
  induction s as [|c s IH]; intros cur Hs Hcur.
  - cbn. destruct cur; [done|]. by apply Forall_singleton.
  - apply Forall_cons in Hs as [Hc Hs]. cbn [UtilsText.split_from].
    destruct (isspace U c).
    + destruct cur as [|c0 cur]; [by apply IH|].
      apply Forall_cons. split; [done|]. by apply IH.
    + apply IH; [done|]. apply Forall_app. split; [done|].
      by apply Forall_singleton.
Qed.

Lemma join_space_chars (I : codepoint -> Prop) (words : list pystr) :
  I UtilsText.space -> Forall (Forall I) words ->
  Forall I (UtilsText.join_space words).
Proof.
  intros Hspace. induction 1 as [|w words Hw Hwords IH]; [done|].
  cbn [UtilsText.join_space]. destruct words as [|w' words]; [done|].
  apply Forall_app. split; [done|]. apply Forall_cons. by split.
Qed.

Lemma cleaned_free (filename : pystr) :
  free_of UtilsText.invalid_chars (UtilsText.cleaned U filename).
Proof.
  unfold UtilsText.cleaned, free_of. apply join_space_chars.
  - unfold UtilsText.invalid_chars, UtilsText.space.
    rewrite !elem_of_cons, elem_of_nil. intros Hd.
    repeat (destruct Hd as [Hd|Hd]; [discriminate Hd|]). done.
  - apply split_from_chars; [apply replaced_free|done].
Qed.

(** X18. Whatever the name, [sanitize_filename] returns at most 200
    characters, none of which is one of the nine characters it replaces. *)
Theorem sanitize_filename_safe (filename : pystr) :
  (length (UtilsText.sanitize_filename U filename) <= 200)%nat
  /\ free_of UtilsText.invalid_chars
       (UtilsText.sanitize_filename U filename).
Proof.
  unfold UtilsText.sanitize_filename. lazy zeta.
  pose proof (cleaned_free filename) as Hfree.
  destruct (200 <? length (UtilsText.cleaned U filename))%nat eqn:Hlen.
  - split; [rewrite length_take; lia|]. by apply Forall_take.
  - apply Nat.ltb_ge in Hlen. by split.
Qed.

Lemma split_from_words_ok (s : pystr) :
  forall cur, spaceless U cur -> words_ok U (UtilsText.split_from U s cur).
Proof.
  unfold words_ok, spaceless.
  induction s as [|c s IH]; intros cur Hcur.
  - cbn. destruct cur; [done|]. by apply Forall_singleton.
  - cbn [UtilsText.split_from]. destruct (isspace U c) eqn:Hc.
    + destruct cur as [|c0 cur]; [by apply IH|].
      apply Forall_cons. split; [done|]. by apply IH.
    + apply IH. apply Forall_app. split; [done|]. by apply Forall_singleton.
Qed.

Lemma split_from_word (w : pystr) :
  spaceless U w ->
  forall s cur,
    UtilsText.split_from U (w ++ s) cur = UtilsText.split_from U s (cur ++ w).
Proof.
  induction 1 as [|c w Hc _ IH]; intros s cur.
  - by rewrite app_nil_r.
  - cbn [app UtilsText.split_from]. rewrite Hc, IH.
    by rewrite <- app_assoc.
Qed.

Lemma split_join_space (words : list pystr) :
  isspace U UtilsText.space = true ->
  words_ok U words ->
  UtilsText.split U (UtilsText.join_space words) = words.
Proof.
  intros Hspace. unfold UtilsText.split.
  induction 1 as [|w words [Hne Hw] Hwords IH]; [done|].
  cbn [UtilsText.join_space]. destruct words as [|w' words].
  - rewrite <- (app_nil_r w) at 1. rewrite split_from_word by done.
    cbn. by destruct w.
  - rewrite split_from_word by done. cbn [app UtilsText.split_from].
    rewrite Hspace, IH. by destruct w.
Qed.

Lemma join_space_spaceless (words : list pystr) :
  isspace U UtilsText.space = false ->
  words_ok U words -> spaceless U (UtilsText.join_space words).
Proof.
  intros Hspace Hwords. apply join_space_chars; [done|].
  eapply Forall_impl; [exact Hwords|]. by intros w [_ ?].
Qed.

Lemma split_spaceless (s : pystr) :
  spaceless U s -> UtilsText.join_space (UtilsText.split U s) = s.
Proof.
  intros Hs. unfold UtilsText.split.
  rewrite <- (app_nil_r s) at 1. rewrite split_from_word by done.
  cbn. by destruct s.
Qed.

Lemma join_split_join (words : list pystr) :
  words_ok U words ->
  UtilsText.join_space (UtilsText.split U (UtilsText.join_space words))
  = UtilsText.join_space words.
Proof.
  intros Hwords. destruct (isspace U UtilsText.space) eqn:Hspace.
  - by rewrite split_join_space.
  - by apply split_spaceless, join_space_spaceless.
Qed.

Lemma cleaned_idempotent (filename : pystr) :
  UtilsText.cleaned U (UtilsText.cleaned U filename)
  = UtilsText.cleaned U filename.
Proof.
  unfold UtilsText.cleaned at 1. lazy zeta.
  rewrite replaced_id by apply cleaned_free.
  unfold UtilsText.cleaned. apply join_split_join.
  apply split_from_words_ok. constructor.
Qed.

(** X19. On a name whose cleaned form needs no cut, [sanitize_filename] is
    idempotent: sanitizing its own result changes nothing. (A name cut at
    200 characters may end in the space that separated two words.) *)
Theorem sanitize_filename_idempotent (filename : pystr) :
  (length (UtilsText.cleaned U filename) <= 200)%nat ->
  UtilsText.sanitize_filename U (UtilsText.sanitize_filename U filename)
  = UtilsText.sanitize_filename U filename.
Proof.
  intros Hlen. apply Nat.ltb_ge in Hlen.
  unfold UtilsText.sanitize_filename. lazy zeta.
  by rewrite Hlen, cleaned_idempotent, Hlen.
Qed.

Lemma join_split_length (s : pystr) :
  forall cur,
    (length (UtilsText.join_space (UtilsText.split_from U s cur))
     <= length cur + length s)%nat.
Proof.
  induction s as [|c s IH]; intros cur.
  - cbn. destruct cur; cbn; lia.
  - cbn [UtilsText.split_from length]. destruct (isspace U c).
    + destruct cur as [|c0 cur].
      * specialize (IH []). cbn [length] in IH |- *. lia.
      * specialize (IH []). cbn [UtilsText.join_space].
        destruct (UtilsText.split_from U s []) as [|w ws].
        -- cbn [length]. lia.
        -- rewrite length_app. cbn [length] in IH |- *. lia.
    + specialize (IH (cur ++ [c])). rewrite length_app in IH.
      cbn [length] in IH. lia.
Qed.

(** X20. [sanitize_filename] never lengthens a name. *)
Theorem sanitize_filename_not_longer (filename : pystr) :
  (length (UtilsText.sanitize_filename U filename) <= length filename)%nat.
Proof.
  assert (length (UtilsText.cleaned U filename) <= length filename)%nat
    as Hclean.
  { unfold UtilsText.cleaned, UtilsText.split. lazy zeta.
    etrans; [apply join_split_length|]. cbn [length plus].
    unfold UtilsText.invalid_chars. cbn [fold_left].
    unfold UtilsText.replace. by rewrite !length_map. }
  unfold UtilsText.sanitize_filename. lazy zeta.
  destruct (200 <? length (UtilsText.cleaned U filename))%nat;
    [rewrite length_take|]; lia.
Qed.

End FileNames.

Lemma sanitize_filename_idempotent_witness :
  UtilsText.sanitize_filename Examples.ascii_unicode
    FurtherExamples.untidy_name
  = FurtherExamples.codepoints "a_b c"
  /\ UtilsText.sanitize_filename Examples.ascii_unicode
       (UtilsText.sanitize_filename Examples.ascii_unicode
          FurtherExamples.untidy_name)
     = UtilsText.sanitize_filename Examples.ascii_unicode
         FurtherExamples.untidy_name.
Proof.
  split; [reflexivity|].
  apply (sanitize_filename_idempotent Examples.ascii_unicode
           FurtherExamples.untidy_name).
  vm_compute. lia.
Defined.

(** * Backups *)

Section Backups.

Context (U : Unicode) (P : PathLib) (B : Backend).
Context (language : string) (output_dir : option string)
        (create_backups : bool).

Lemma create_backup_path (file_path : string) :
  yields (PDFProcessor.create_backup P B file_path)
    (fun b => b = None \/ b = Some (backup_file P B file_path)).
Proof.
  unfold PDFProcessor.create_backup. apply yields_try_except.
  - eapply yields_bind; [apply yields_any|intros files _].
    destruct (negb (path_exists files (path_str P file_path))).
    + apply yields_ret. by left.
    + lazy zeta. do 2 (eapply yields_bind; [apply yields_any|intros ? _]).
      apply yields_ret. by right.
  - intros e. apply yields_ret. by left.
Qed.


End Backups.

(** * The percentages of a batch *)

Section CallbackProgress.

Context (I : event -> Prop) (f : Callback).
Context (U : Unicode) (P : PathLib) (B : Backend).
Context (language : string) (output_dir : option string)
        (create_backups : bool).

Hypothesis library_events : forall e, is_progress e = false -> I e.
Hypothesis shown_events :
  forall q, percent_ok (Progress q) -> Forall I (Progress <$> f q).

Lemma adds_progress_via (q : Q) :
  percent_ok (Progress q) -> log_adds I (progress (Some f) q).
Proof.
  intros Hq w. exists (Progress <$> f q). split; [done|]. by apply shown_events.
Qed.

Lemma adds_modify (g : Stats -> Stats) : log_adds I (modify_stats g).
Proof. by apply adds_nothing. Qed.

Lemma adds_lookup_key {A} (key : string) (v : option A) :
  log_adds I (PDFProcessor.lookup_key key v).
Proof. destruct v; [apply adds_ret|apply adds_raise]. Qed.

Ltac via_step :=
  first
    [ solve [auto with adds]
    | apply adds_modify
    | apply adds_lookup_key
    | apply adds_emit; apply library_events; reflexivity
    | apply adds_progress_via;
      first [ apply percent_ok_constant; discriminate
            | right; reflexivity ]
    | apply adds_bind; [|intros ?]
    | apply adds_try_except; [|intros ?]
    | progress lazy zeta
    | match goal with
      | |- log_adds _ (if ?b then _ else _) => destruct b
      | |- log_adds _ (match ?x with _ => _ end) => destruct x
      end ].

Ltac via := repeat via_step.

Lemma adds_fallback_pages_via (input_path temp_dir : string) (total : nat)
  (page_nums : list nat) :
  Forall (fun i => (i < total)%nat) page_nums ->
  forall ocr_results,
    log_adds I
      (OCRProcessor.fallback_pages P B language input_path (Some f)
         temp_dir total page_nums ocr_results).
Proof.
  induction 1 as [|page_num rest Hlt _ IH]; intros ocr_results;
    cbn [OCRProcessor.fallback_pages]; [apply adds_ret|].
  apply adds_bind.
  { apply adds_progress_via. apply percent_ok_constant.
    - eapply Qle_trans; [|apply page_progress_range; exact Hlt]. discriminate.
    - eapply Qle_trans; [apply page_progress_range; exact Hlt|]. discriminate. }
  intros _. via.
Qed.

Lemma adds_process_pdf_via (input_path output_path : string)
  (config : option OCRProcessor.Config) :
  log_adds I
    (OCRProcessor.process_pdf P B language input_path output_path (Some f)
       config).
Proof.
  unfold OCRProcessor.process_pdf, OCRProcessor.run_strategies,
    OCRProcessor._tesseract_fallback_ocr, OCRProcessor._handle_encrypted_pdf,
    OCRProcessor._combine_pdfs, OCRProcessor.ocrmypdf.
  via.
  all: apply adds_fallback_pages_via, Forall_forall; intros i Hi;
    apply elem_of_seq in Hi; lia.
Qed.

Lemma adds_process_file_via (input_path : string)
  (output_path : option string) (force_ocr : bool) :
  log_adds I
    (PDFProcessor.process_file U P B language output_dir create_backups
       input_path output_path force_ocr (Some f)).
Proof.
  unfold PDFProcessor.process_file, PDFProcessor.create_backup.
  pose proof adds_process_pdf_via as Hpdf.
  via.
Qed.

End CallbackProgress.

Section BatchProgress.

Context (U : Unicode) (P : PathLib) (B : Backend).
Context (language : string) (output_dir : option string)
        (create_backups : bool).

Lemma py_int_comp (x y : Q) :
  (x == y)%Q -> PDFProcessor.py_int x = PDFProcessor.py_int y.
Proof.
  intros Heq. unfold PDFProcessor.py_int.
  assert (Qle_bool 0 x = Qle_bool 0 y) as ->.
  { apply eq_true_iff_eq. rewrite !Qle_bool_iff. by rewrite Heq. }
  by rewrite (Qfloor_comp _ _ Heq), (Qceiling_comp _ _ Heq).
Qed.

Lemma py_int_percentage (x : Q) :
  (-1 < x)%Q -> (x <= 100)%Q -> 0 <= PDFProcessor.py_int x <= 100.
Proof.
  intros Hlo Hhi. unfold PDFProcessor.py_int.
  destruct (Qle_bool 0 x) eqn:H0.
  - apply Qle_bool_iff in H0. split.
    + change 0 with (Qfloor 0). by apply Qfloor_resp_le.
    + change 100 with (Qfloor 100). by apply Qfloor_resp_le.
  - assert (x < 0)%Q as Hneg.
    { apply Qnot_le_lt. intros Hle. apply Qle_bool_iff in Hle. congruence. }
    pose proof (Qle_ceiling x) as Hup. pose proof (Qceiling_lt x) as Hdown.
    assert (-1 < Qceiling x).
    { rewrite Zlt_Qlt. eapply Qlt_le_trans; [exact Hlo|exact Hup]. }
    assert (Qceiling x - 1 < 0).
    { rewrite Zlt_Qlt. eapply Qlt_trans; [exact Hdown|exact Hneg]. }
    lia.
Qed.

Lemma combined_progress_value (i total : nat) (q : Q) :
  (0 < total)%nat ->
  (inject_Z (Z.of_nat i) * (100 / inject_Z (Z.of_nat total))
   + q * (100 / inject_Z (Z.of_nat total)) / 100
   == (100 * inject_Z (Z.of_nat i) + q) / inject_Z (Z.of_nat total))%Q.
Proof.
  intros Hpos. field. change 0%Q with (inject_Z 0).
  rewrite inject_Z_injective. lia.
Qed.

Lemma file_progress_ok (i total : nat) (q : Q) :
  (i < total)%nat ->
  percent_ok (Progress q) ->
  Forall (batch_percent_ok total)
    (Progress <$> PDFProcessor.file_progress (Some record_progress) i total
                    q).
Proof.
  intros Hi Hq. unfold PDFProcessor.file_progress, record_progress.
  lazy zeta. cbn [fmap list_fmap]. apply Forall_singleton.
  cbn [batch_percent_ok].
  rewrite (py_int_comp _ _ (combined_progress_value i total q ltac:(lia))).
  set (t := inject_Z (Z.of_nat total)).
  set (n := inject_Z (Z.of_nat i)).
  assert (0 < t)%Q as Ht.
  { subst t. change 0%Q with (inject_Z 0). rewrite <- Zlt_Qlt. lia. }
  assert (n + 1 <= t)%Q as Hnt.
  { subst n t. change 1%Q with (inject_Z 1).
    rewrite <- inject_Z_plus, <- Zle_Qle. lia. }
  assert (0 <= n)%Q as Hn.
  { subst n. change 0%Q with (inject_Z 0). rewrite <- Zle_Qle. lia. }
  assert (forall x, (-1 < x)%Q -> (x <= 100)%Q ->
            ((0 <= inject_Z (PDFProcessor.py_int x))%Q
             /\ (inject_Z (PDFProcessor.py_int x) <= 100)%Q)) as Hrange.
  { intros x Hlo Hhi. pose proof (py_int_percentage x Hlo Hhi) as [H0 H1].
    split.
    - change 0%Q with (inject_Z 0). by rewrite <- Zle_Qle.
    - change 100%Q with (inject_Z 100). by rewrite <- Zle_Qle. }
  assert ((100 * n + q) / t <= 100)%Q as Hhi.
  { apply Qle_shift_div_r; [exact Ht|].
    destruct Hq as [[_ Hq]|Hq]; [|rewrite Hq]; lra. }
  destruct Hq as [[Hq0 Hq1]|Hq].
  - left. apply Hrange; [|exact Hhi].
    apply Qlt_shift_div_l; [exact Ht|]. lra.
  - destruct (decide (i = 0%nat /\ total = 1%nat)) as [[-> ->]|Hnot].
    + right. split; [|done].
      assert (PDFProcessor.py_int ((100 * n + q) / t) = -1) as ->; [|done].
      rewrite (py_int_comp _ (-1)); [done|].
      subst n t. rewrite Hq. reflexivity.
    + left. apply Hrange; [|exact Hhi].
      apply Qlt_shift_div_l; [exact Ht|]. rewrite Hq.
      destruct (decide (i = 0%nat)) as [->|Hi0].
      * assert (2 <= t)%Q.
        { subst t. change 2%Q with (inject_Z 2). rewrite <- Zle_Qle. lia. }
        lra.
      * assert (1 <= n)%Q.
        { subst n. change 1%Q with (inject_Z 1). rewrite <- Zle_Qle. lia. }
        lra.
Qed.

Lemma overall_progress_ok (i total : nat) :
  (i < total)%nat ->
  batch_percent_ok total (Progress (PDFProcessor.overall_progress i total)).
Proof.
  intros Hi. left. unfold PDFProcessor.overall_progress.
  set (t := inject_Z (Z.of_nat total)).
  set (n := inject_Z (Z.of_nat i)).
  assert (0 < t)%Q as Ht.
  { subst t. change 0%Q with (inject_Z 0). rewrite <- Zlt_Qlt. lia. }
  assert (n <= t)%Q as Hnt.
  { subst n t. rewrite <- Zle_Qle. lia. }
  assert (0 <= n)%Q as Hn.
  { subst n. change 0%Q with (inject_Z 0). rewrite <- Zle_Qle. lia. }
  assert (0 <= n / t)%Q as Hlo.
  { apply Qle_shift_div_l; [exact Ht|]. lra. }
  assert (n / t <= 1)%Q as Hhi.
  { apply Qle_shift_div_r; [exact Ht|]. lra. }
  destruct (py_int_percentage (n / t * 100)) as [H0 H1]; [lra|lra|].
  split.
  - change 0%Q with (inject_Z 0). by rewrite <- Zle_Qle.
  - change 100%Q with (inject_Z 100). by rewrite <- Zle_Qle.
Qed.

Lemma adds_batch_loop (total_files : nat) (file_paths : list string) :
  forall i results,
    (i + length file_paths <= total_files)%nat ->
    log_adds (batch_percent_ok total_files)
      (PDFProcessor.batch_loop U P B language output_dir create_backups
         (Some record_progress) total_files i file_paths results).
Proof.
  induction file_paths as [|file_path rest IH]; intros i results Hlen;
    cbn [PDFProcessor.batch_loop]; [apply adds_ret|].
  cbn [length] in Hlen.
  apply adds_bind; [|intros ?; apply IH; lia].
  apply adds_try_except; [|intros ?; apply adds_ret].
  apply adds_bind.
  { apply adds_progress. apply overall_progress_ok. lia. }
  intros _. apply adds_bind; [|intros ?; apply adds_ret].
  apply adds_process_file_via.
  - by intros [].
  - intros q Hq. apply file_progress_ok; [lia|exact Hq].
Qed.

(** X22. What [process_batch] shows to its progress callback: first
    percentages that all lie between 0 and 100, then 100, then whatever the
    completion callback does. The failure sentinel -1 that [process_file]
    reports reaches the callback of a batch only when the batch is a single
    file; in a longer batch it is scaled into an ordinary percentage. *)
Theorem process_batch_percentages (file_paths : list string)
  (cc : option PDFProcessor.Completion) (w : World) :
  let run :=
    PDFProcessor.process_batch U P B language output_dir create_backups
      file_paths (Some record_progress) cc w in
  exists shown,
    log (snd run)
    = log w ++ shown ++ Progress 100 :: completion_events cc run
    /\ Forall (batch_percent_ok (length file_paths)) shown.
Proof.
  lazy zeta.
  destruct (adds_batch_loop (length file_paths) file_paths 0 []
              ltac:(lia) w) as (shown & Hlog & Hshown).
  destruct (batch_loop_slots U P B language output_dir create_backups
              (Some record_progress) (length file_paths) file_paths 0%nat []
              w) as (slots & w1 & Hloop & _).
  rewrite app_nil_l in Hloop. rewrite Hloop in Hlog. cbn [snd] in Hlog.
  exists shown. split; [|exact Hshown].
  destruct cc as [g|].
  - assert (PDFProcessor.process_batch U P B language output_dir
              create_backups file_paths (Some record_progress) (Some g) w
            = (Ok slots,
               {| fs := fs w1; stats := stats w1;
                  log := (log w1 ++ [Progress 100])
                         ++ g slots (PDFProcessor.get_stats (stats w1)) |}))
      as ->.
    { unfold PDFProcessor.process_batch, bind. by rewrite Hloop. }
    cbn [completion_events fst snd log stats].
    by rewrite Hlog, <- !app_assoc.
  - assert (PDFProcessor.process_batch U P B language output_dir
              create_backups file_paths (Some record_progress) None w
            = (Ok slots,
               {| fs := fs w1; stats := stats w1;
                  log := log w1 ++ [Progress 100] |}))
      as ->.
    { unfold PDFProcessor.process_batch, bind. by rewrite Hloop. }
    cbn [completion_events fst snd log stats].
    by rewrite Hlog, <- !app_assoc.
Qed.

End BatchProgress.

(** * The temporary decrypted copy *)

Section TemporaryCopy.

Context (P : PathLib) (B : Backend) (language : string).
Context (input_path output_path : string) (cb : option Callback).

Lemma adds_progress_plain (q : Q) :
  log_adds (works_on_input input_path) (progress cb q).
Proof.
  intros w. destruct cb as [f|]; cbn.
  - exists (Progress <$> f q). split; [done|].
    induction (f q) as [|x l IH]; constructor; [exact Logic.I|exact IH].
  - exists []. by rewrite app_nil_r.
Qed.

Ltac plain_step :=
  first
    [ solve [auto with adds]
    | apply adds_progress_plain
    | apply adds_emit; first [exact Logic.I | reflexivity]
    | apply adds_bind; [|intros ?]
    | apply adds_try_except; [|intros ?]
    | progress lazy zeta
    | match goal with
      | |- log_adds _ (if ?b then _ else _) => destruct b
      | |- log_adds _ (match ?x with _ => _ end) => destruct x
      end ].

Ltac plain := repeat plain_step.

Lemma adds_fallback_pages_plain (temp_input temp_dir : string) (total : nat)
  (page_nums : list nat) :
  forall ocr_results,
    log_adds (works_on_input input_path)
      (OCRProcessor.fallback_pages P B language temp_input cb temp_dir total
         page_nums ocr_results).
Proof.
  induction page_nums as [|page_num rest IH]; intros ocr_results;
    cbn [OCRProcessor.fallback_pages]; plain.
Qed.

Lemma adds_run_strategies_plain (config : OCRProcessor.Config) :
  log_adds (works_on_input input_path)
    (OCRProcessor.run_strategies P B language input_path output_path cb
       config).
Proof.
  unfold OCRProcessor.run_strategies, OCRProcessor._tesseract_fallback_ocr,
    OCRProcessor._combine_pdfs, OCRProcessor.ocrmypdf.
  plain; apply adds_fallback_pages_plain.
Qed.

Lemma adds_after_strategies_plain :
  log_adds (works_on_input input_path)
    (after_strategies B input_path output_path cb input_path).
Proof.
  unfold after_strategies.
  apply adds_bind; [apply adds_get_fs|intros files].
  rewrite String.eqb_refl. cbn [negb andb]. plain.
Qed.

Lemma adds_failed_plain (e : string) :
  log_adds (works_on_input input_path) (failed input_path output_path cb e).
Proof. unfold failed. plain. Qed.

(** The decryption step on a document as PyMuPDF reports it: the input
    itself is answered, nothing is written, and only progress is shown. *)
Lemma handle_encrypted_pdf_plain (w : World) :
  (forall doc, open_doc (fs w) input_path = Ok doc ->
               as_pymupdf_reports doc) ->
  exists w' new,
    try_except (OCRProcessor._handle_encrypted_pdf P B input_path cb)
      (fun _ => ret input_path) w = (Ok input_path, w')
    /\ fs w' = fs w
    /\ log w' = log w ++ new
    /\ Forall (works_on_input input_path) new.
Proof.
  intros Hdoc.
  assert (exists w' new,
            OCRProcessor._handle_encrypted_pdf P B input_path cb w
            = (Ok input_path, w')
            /\ fs w' = fs w
            /\ log w' = log w ++ new
            /\ Forall (works_on_input input_path) new)
    as (w' & new & Hrun & Hrest).
  2:{ exists w', new. unfold try_except. by rewrite Hrun. }
  unfold OCRProcessor._handle_encrypted_pdf, try_except.
  destruct (adds_progress_plain 5 w) as (new5 & Hlog5 & Hnew5).
  destruct (progress cb 5 w) as [r5 w5] eqn:H5. cbn [snd] in Hlog5.
  apply progress_run in H5 as Hrun5. destruct Hrun5 as (-> & Hfs5 & _).
  rewrite (bind_run _ _ _ _ _ H5).
  erewrite bind_run; [|reflexivity].
  unfold lift_result at 1. rewrite Hfs5.
  destruct (open_doc (fs w) input_path) as [doc|e] eqn:Hopen.
  2:{ erewrite bind_run_raise; [|reflexivity]. by exists w5, new5. }
  erewrite bind_run; [|reflexivity].
  destruct (is_encrypted doc) eqn:Henc; cbn [negb].
  2:{ by exists w5, new5. }
  destruct (adds_progress_plain 7 w5) as (new7 & Hlog7 & Hnew7).
  destruct (progress cb 7 w5) as [r7 w7] eqn:H7. cbn [snd] in Hlog7.
  apply progress_run in H7 as Hrun7. destruct Hrun7 as (-> & Hfs7 & _).
  rewrite (bind_run _ _ _ _ _ H7).
  rewrite (Hdoc doc eq_refl Henc).
  exists w7, (new5 ++ new7). split; [reflexivity|].
  split; [congruence|]. split; [by rewrite Hlog7, Hlog5, app_assoc|].
  by apply Forall_app.
Qed.

(** What comes before the strategies, on a document as PyMuPDF reports
    it: the strategies are given the input itself. *)
Lemma before_strategies_plain (w : World) :
  (forall doc,
     open_doc (found_by_decryption P B output_path (fs w)) input_path
     = Ok doc -> as_pymupdf_reports doc) ->
  exists res w0 new,
    before_strategies P B input_path output_path cb w = (res, w0)
    /\ log w0 = log w ++ new
    /\ Forall (works_on_input input_path) new
    /\ forall temp_input, res = Ok temp_input -> temp_input = input_path.
Proof.
  intros Hdoc. unfold before_strategies.
  erewrite bind_run; [|reflexivity]. lazy zeta.
  assert (exists ra wa,
            (if negb (String.eqb (dirname P output_path) "")
                && negb (path_exists (fs w) (dirname P output_path))
             then lift_fs (os_makedirs B (dirname P output_path))
             else ret tt) w = (ra, wa)
            /\ log wa = log w
            /\ fs wa = found_by_decryption P B output_path (fs w))
    as (ra & wa & Hmk & Hloga & Hfsa).
  { unfold found_by_decryption. lazy zeta.
    destruct (negb (String.eqb (dirname P output_path) "")
              && negb (path_exists (fs w) (dirname P output_path))).
    - unfold lift_fs.
      destruct (os_makedirs B (dirname P output_path) (fs w))
        as [r files]. by eexists _, _.
    - by eexists _, _. }
  destruct ra as [[]|e].
  2:{ rewrite (bind_run_raise _ _ _ _ _ Hmk).
      exists (Raise e), wa, []. rewrite app_nil_r.
      split; [done|]. split; [done|]. split; [constructor|]. done. }
  rewrite (bind_run _ _ _ _ _ Hmk).
  destruct (adds_progress_plain 0 wa) as (new0 & Hlog0 & Hnew0).
  destruct (progress cb 0 wa) as [r0 w0] eqn:H0. cbn [snd] in Hlog0.
  apply progress_run in H0 as Hrun0. destruct Hrun0 as (-> & Hfs0 & _).
  rewrite (bind_run _ _ _ _ _ H0).
  destruct (handle_encrypted_pdf_plain w0)
    as (w1 & new1 & Hrun1 & Hfs1 & Hlog1 & Hnew1).
  { intros doc Hopen. apply Hdoc. by rewrite <- Hfsa, <- Hfs0. }
  rewrite (bind_run _ _ _ _ _ Hrun1).
  destruct (adds_progress_plain 10 w1) as (new10 & Hlog10 & Hnew10).
  destruct (progress cb 10 w1) as [r10 w10] eqn:H10. cbn [snd] in Hlog10.
  apply progress_run in H10 as Hrun10. destruct Hrun10 as (-> & _ & _).
  rewrite (bind_run _ _ _ _ _ H10).
  destruct (adds_progress_plain 20 w10) as (new20 & Hlog20 & Hnew20).
  destruct (progress cb 20 w10) as [r20 w20] eqn:H20. cbn [snd] in Hlog20.
  apply progress_run in H20 as Hrun20. destruct Hrun20 as (-> & _ & _).
  rewrite (bind_run _ _ _ _ _ H20).
  exists (Ok input_path), w20, (new0 ++ new1 ++ new10 ++ new20).
  split; [reflexivity|]. split.
  { rewrite Hlog20, Hlog10, Hlog1, Hlog0, Hloga. by rewrite <- !app_assoc. }
  split; [by rewrite !Forall_app|].
  by intros temp_input [= <-].
Qed.


End TemporaryCopy.

